(** * k3s-deploy-cli: node discovery, role classification and IP convergence

    A shallow embedding of [src/k3s_deploy_cli/k3s_manager.py],
    [proxmox_api.py], [models.py] and [config.py].  Python objects become
    records, dictionaries become [gmap]s, the Proxmox cluster becomes an
    explicit [World] that is threaded through every call, and exceptions
    become the [Raise] branch of a small state-and-error monad. *)

From Stdlib Require Import Ascii.
From stdpp Require Import gmap strings list fin_maps sorting pretty.

Open Scope Z_scope.

#[local] Set Warnings "-clear-no-such-hyp".

(** ** Python primitives *)

Module Py.

(** [str] truthiness: the empty string is falsy. *)
Definition truthy (s : string) : bool := bool_decide (s ≠ "").

(** Truthiness of an [Optional[str]]: [None] and [""] are falsy. *)
Definition truthy_opt (o : option string) : bool :=
  match o with Some s => truthy s | None => false end.

(** [a != b] on strings. *)
Definition neq (a b : string) : bool := bool_decide (a ≠ b).

(** [str.lower] and [str.upper], on the ASCII range (strings are byte
    strings here; bytes above 127 are left alone). *)
Definition lower_char (c : ascii) : ascii :=
  let n := Ascii.N_of_ascii c in
  if ((65 <=? n) && (n <=? 90))%N then Ascii.ascii_of_N (n + 32) else c.

Definition upper_char (c : ascii) : ascii :=
  let n := Ascii.N_of_ascii c in
  if ((97 <=? n) && (n <=? 122))%N then Ascii.ascii_of_N (n - 32) else c.

Fixpoint map_chars (f : ascii → ascii) (s : string) : string :=
  match s with
  | EmptyString => EmptyString
  | String c s' => String (f c) (map_chars f s')
  end.

Definition lower : string → string := map_chars lower_char.
Definition upper : string → string := map_chars upper_char.

(** The characters [str.strip()] removes (ASCII part of [str.isspace]). *)
Definition isspace (c : ascii) : bool :=
  let n := Ascii.N_of_ascii c in
  (((9 <=? n) && (n <=? 13)) || ((28 <=? n) && (n <=? 32)))%N.

Fixpoint lstrip (s : string) : string :=
  match s with
  | String c s' => if isspace c then lstrip s' else s
  | EmptyString => EmptyString
  end.

Definition strip (s : string) : string :=
  String.rev (lstrip (String.rev (lstrip s))).

(** [s.split(sep)] for a one-character separator. *)
Fixpoint split_go (sep : ascii) (cur : string) (s : string) : list string :=
  match s with
  | EmptyString => [String.rev cur]
  | String c s' =>
      if bool_decide (c = sep) then String.rev cur :: split_go sep "" s'
      else split_go sep (String c cur) s'
  end.

Definition split (sep : ascii) (s : string) : list string := split_go sep "" s.

(** [sep.join(l)]. *)
Fixpoint join (sep : string) (l : list string) : string :=
  match l with
  | [] => ""
  | [x] => x
  | x :: l' => x +:+ sep +:+ join sep l'
  end.

(** [sub in s] on strings. *)
Fixpoint contains (sub s : string) : bool :=
  String.prefix sub s ||
  match s with
  | EmptyString => false
  | String _ s' => contains sub s'
  end.

(** [urllib.parse.quote(s)] with the default [safe="/"]. *)
Definition hex_digit (n : N) : ascii :=
  Ascii.ascii_of_N (if (n <? 10)%N then 48 + n else 55 + n).

Definition quote_safe (c : ascii) : bool :=
  let n := Ascii.N_of_ascii c in
  (((48 <=? n) && (n <=? 57)) || ((65 <=? n) && (n <=? 90)) ||
   ((97 <=? n) && (n <=? 122)) ||
   (n =? 45) || (n =? 46) || (n =? 95) || (n =? 126) || (n =? 47))%N.

Fixpoint quote (s : string) : string :=
  match s with
  | EmptyString => EmptyString
  | String c s' =>
      if quote_safe c then String c (quote s')
      else let n := Ascii.N_of_ascii c in
           String "%"%char (String (hex_digit (n / 16)) (String (hex_digit (n mod 16)) (quote s')))
  end.

(** [sorted(l, key=...)] / [list.sort(key=...)]: a stable sort that only
    ever asks whether one key is strictly below another. *)
Section Sorting.
Context {A K : Type} (key : A → K) (lt : K → K → bool).

Fixpoint insert_sorted (x : A) (l : list A) : list A :=
  match l with
  | [] => [x]
  | y :: l' =>
      if lt (key y) (key x) then y :: insert_sorted x l' else x :: y :: l'
  end.

Definition sorted (l : list A) : list A := foldr insert_sorted [] l.
End Sorting.

(** [list(set(l))] for objects hashed and compared through [key]: one
    representative per key, the first one met.  CPython leaves the order
    of the result unspecified; every use in this program sorts it by a
    key that is distinct across the survivors before looking at it. *)
Fixpoint list_set `{EqDecision K} {A} (key : A → K) (l : list A) : list A :=
  match l with
  | [] => []
  | x :: l' => x :: filter (λ y, key y ≠ key x) (list_set key l')
  end.

End Py.

(** ** models.py *)

Record VMIdentifier := mkVM {
  proxmox_node : string;
  vmid : Z;
  name : option string;
  ip_address : option string;
  tags : list string;
  config : gmap string string;
  (** [vm.status] is attached to the object by the manager's loops. *)
  status : option string;
}.

(** [__eq__] and [__hash__] look at this pair only; it is also the sort key
    [lambda vm: (vm.proxmox_node, vm.vmid)]. *)
Definition sort_key (vm : VMIdentifier) : string * Z := (proxmox_node vm, vmid vm).

(** Tuple comparison [a < b]: the first differing component decides. *)
Definition key_ltb (a b : string * Z) : bool :=
  if bool_decide (a.1 = b.1) then a.2 <? b.2 else String.ltb a.1 b.1.

Definition key_lt (a b : string * Z) : Prop := key_ltb a b = true.
Definition key_le (a b : string * Z) : Prop := key_ltb b a = false.

Definition vm_lt (a b : VMIdentifier) : Prop := key_lt (sort_key a) (sort_key b).
Definition vm_le (a b : VMIdentifier) : Prop := key_le (sort_key a) (sort_key b).

Definition sort_nodes : list VMIdentifier → list VMIdentifier :=
  Py.sorted sort_key key_ltb.

(** ** The manager object *)

Record Manager := mkManager {
  k3s_version : string;
  servers : list VMIdentifier;
  agents : list VMIdentifier;
  storage : list VMIdentifier;
  all_nodes : list VMIdentifier;
  server_master : option VMIdentifier;
  servers_no_first : list VMIdentifier;
}.

(** [K3sDeploymentManager._populate_node_lists].  Its log lines only report
    the lists and are left out. *)
Definition _populate_node_lists (m : Manager) : Manager :=
  let all_nodes' := sort_nodes (all_nodes m) in
  let servers' := sort_nodes (servers m) in
  let agents' := sort_nodes (agents m) in
  let storage' := sort_nodes (storage m) in
  match servers' with
  | master :: rest =>
      {| k3s_version := k3s_version m;
         servers := servers'; agents := agents'; storage := storage';
         all_nodes := all_nodes';
         server_master := Some master;
         servers_no_first := rest |}
  | [] =>
      {| k3s_version := k3s_version m;
         servers := servers'; agents := agents'; storage := storage';
         all_nodes := all_nodes';
         server_master := None;
         servers_no_first := [] |}
  end.

(** ** exceptions.py, and the built-in exceptions the code can raise *)

Inductive Exn :=
| K3sDeployError
| ProxmoxError
| NodeDiscoveryError
| ConfigurationError
| ValueError
| AttributeError
| TypeError
| UnicodeDecodeError
| RecursionError
| EOFError
(** Not a Python exception: the run has left the typed fragment covered
    here, by building a [VMIdentifier] whose [proxmox_node] is not a [str]
    or whose [vmid] is not an [int], or an SSH key that is not a [str]. *)
| Unmodelled.

Inductive Result (A : Type) :=
| Ok (a : A)
| Raise (e : Exn).
Arguments Ok {A} a.
Arguments Raise {A} e.

(** ** Parsed JSON, with the duck-typed operations the loader applies *)

#[local] Set Warnings "-register-all".

Inductive Json :=
| JNull
| JBool (b : bool)
| JNum (z : Z)      (* integers; JSON reals are not covered *)
| JStr (s : string)
| JArr (items : list Json)
| JObj (fields : list (string * Json)).

Module Js.

Fixpoint assoc (k : string) (fields : list (string * Json)) : option Json :=
  match fields with
  | [] => None
  | (k', v) :: rest => if bool_decide (k' = k) then Some v else assoc k rest
  end.

(** [d.get(k, default)]: only a dict has [.get]. *)
Definition get (d : Json) (k : string) (default : Json) : Result Json :=
  match d with
  | JObj fields => Ok (from_option id default (assoc k fields))
  | _ => Raise AttributeError
  end.

Fixpoint chars (s : string) : list Json :=
  match s with
  | EmptyString => []
  | String c s' => JStr (String c EmptyString) :: chars s'
  end.

(** What [for x in j] walks over. *)
Definition iter (j : Json) : Result (list Json) :=
  match j with
  | JArr items => Ok items
  | JObj fields => Ok (JStr <$> fields.*1)
  | JStr s => Ok (chars s)
  | _ => Raise TypeError
  end.

(** [bool(j)]. *)
Definition truthy (j : Json) : bool :=
  match j with
  | JNull => false
  | JBool b => b
  | JNum z => bool_decide (z ≠ 0)
  | JStr s => Py.truthy s
  | JArr items => bool_decide (items ≠ [])
  | JObj fields => bool_decide (fields ≠ [])
  end.

(** [str(j)].  Exact on scalars.  The text of a list or dict is cut after
    its opening bracket: role matching compares the whole text with a role
    name, and no role name starts with a bracket. *)
Definition str (j : Json) : string :=
  match j with
  | JNull => "None"
  | JBool true => "True"
  | JBool false => "False"
  | JNum z => pretty z
  | JStr s => s
  | JArr _ => "["
  | JObj _ => "{"
  end.

Definition is_ssh_key (j : Json) : bool :=
  match j with JStr s => bool_decide (s = "ssh_key") | _ => false end.

(** ["ssh_key" in data]. *)
Definition has_ssh_key (data : Json) : Result bool :=
  match data with
  | JObj fields => Ok (bool_decide (is_Some (assoc "ssh_key" fields)))
  | JArr items => Ok (existsb is_ssh_key items)
  | JStr s => Ok (Py.contains "ssh_key" s)
  | _ => Raise TypeError
  end.

(** [data["ssh_key"]], reached only after [has_ssh_key] answered yes. *)
Definition ssh_key_item (data : Json) : Result Json :=
  match data with
  | JObj fields =>
      match assoc "ssh_key" fields with
      | Some v => Ok v
      | None => Raise Unmodelled (* KeyError; excluded by the membership test *)
      end
  | _ => Raise TypeError
  end.

End Js.

(** ** config.py *)

Record AppConfig := mkAppConfig {
  SERVER_TAG : string;
  AGENT_TAG : string;
  STORAGE_TAG : string;
  (** [int(ipaddress.IPv4Address(K3S_NODE_IP_RANGE_START))]; [None] when the
      constructor raises [AddressValueError].  Same for the end. *)
  K3S_NODE_IP_RANGE_START : option Z;
  K3S_NODE_IP_RANGE_END : option Z;
  K3S_NODE_CIDR : string;
  K3S_NODE_GATEWAY : string;
  K3S_NODE_DNS_SERVERS : list string;
  K3S_NODE_SEARCH_DOMAIN : option string;
  K3S_NODE_IPCONFIG_INDEX : Z;
  SSH_PUBLIC_KEY : option string;
}.

(** The values config.py ships, with an empty environment. *)
Definition default_config : AppConfig :=
  {| SERVER_TAG := "k3s-server";
     AGENT_TAG := "k3s-agent";
     STORAGE_TAG := "k3s-storage";
     K3S_NODE_IP_RANGE_START := Some 168427721;   (* 10.10.0.201 *)
     K3S_NODE_IP_RANGE_END := Some 168427749;     (* 10.10.0.229 *)
     K3S_NODE_CIDR := "24";
     K3S_NODE_GATEWAY := "10.10.0.1";
     K3S_NODE_DNS_SERVERS := ["10.10.0.1"];
     K3S_NODE_SEARCH_DOMAIN := Some "lan.home.vwn.io";
     K3S_NODE_IPCONFIG_INDEX := 0;
     SSH_PUBLIC_KEY := None |}.

(** [str(ipaddress.IPv4Address(n))]. *)
Definition ipv4_str (n : Z) : string :=
  pretty (n / 16777216 mod 256) +:+ "." +:+ pretty (n / 65536 mod 256) +:+ "." +:+
  pretty (n / 256 mod 256) +:+ "." +:+ pretty (n mod 256).

(** [f"ipconfig{app_config.K3S_NODE_IPCONFIG_INDEX}"]. *)
Definition ipconfig_key (E : AppConfig) : string :=
  "ipconfig" +:+ pretty (K3S_NODE_IPCONFIG_INDEX E).

(** ** The world outside the process *)

(** What [json.load] raises on a file that opens, other than
    [json.JSONDecodeError] and [IOError]: the bytes are not valid UTF-8
    ([f.read()] fails), or the JSON text nests deeper than the parser's
    recursion limit. *)
Inductive LoadFailure :=
| NotUtf8
| NestedTooDeep.

Definition load_failure_exn (f : LoadFailure) : Exn :=
  match f with
  | NotUtf8 => UnicodeDecodeError
  | NestedTooDeep => RecursionError
  end.

(** [NODE_CONFIG_FILE] as [exists()], [open()] and [json.load()] find it:
    missing; [IOError] on opening or reading; [json.JSONDecodeError];
    another exception of [json.load]; or the parsed value. *)
Inductive ConfigFile :=
| CfAbsent
| CfIOError
| CfInvalidJson
| CfLoadRaises (f : LoadFailure)
| CfJson (data : Json).

(** [SSH_PUBLIC_KEY_PATH] as [exists()], [open()] and [read()] find it. *)
Inductive KeyFile :=
| KfAbsent
| KfIOError
| KfText (content : string).

(** Requests sent to the Proxmox API, in the order they were sent. *)
Inductive Call :=
| CallNodesGet
| CallQemuGet (node_name : string)
| CallConfigGet (node_name : string) (vmid : Z)
| CallStatusCurrent (node_name : string) (vmid : Z)
| CallConfigPut (node_name : string) (vmid : Z) (params : gmap string string)
| CallStatusPost (node_name : string) (vmid : Z) (pve_api_action : string).

Inductive Level := INFO_BLUE | INFO_GREEN | INFO_YELLOW | WARNING | ERROR | CRITICAL.

(** The log lines that report a decision or a failure; a VM is named by its
    (node, vmid) pair.  Pure progress lines are left out. *)
Inductive Msg :=
| MsgApiFailed (c : Call)                          (* logger.error in proxmox_api *)
| MsgVmsOnNodeFailed (node_name : string)          (* "Warning: Failed to get VMs for node" *)
| MsgNoRoleTaggedNodes                             (* "Warning: No K3s nodes discovered with any of the role tags" *)
| MsgConfigFileNoNodes                             (* "Config file ... loaded but no K3s nodes defined." *)
| MsgStatusSkipAction (k : string * Z)             (* "Could not get status for ... Skipping action." *)
| MsgAlreadyRunning (k : string * Z)
| MsgAlreadyStopped (k : string * Z)
| MsgStartInsteadOfReboot (k : string * Z)         (* "... is not running ... Starting it instead of rebooting." *)
| MsgUnknownAction (action : string)               (* "Internal error: Unknown VM action" *)
| MsgNoVmLocations                                 (* "Warning: No VM locations discovered/loaded. Skipping ..." *)
| MsgKeyFromEnv | MsgKeyFromConfigFile | MsgKeyFromKeyFile
| MsgKeyConfigUnreadable                           (* "Warning: Could not read SSH key from config file" *)
| MsgKeyFileEmpty | MsgKeyFileUnreadable | MsgKeyFileMissing
| MsgNoSshKey                                      (* "No SSH public key found. VM configuration will only include network settings." *)
| MsgStatusAssumedUnknown (k : string * Z)         (* "Could not get status for ... Assuming unknown." *)
| MsgConfigSkip (k : string * Z)                   (* "Could not get config for ... Skipping." *)
| MsgRangeExhausted (k : string * Z)               (* "No more IP addresses available ..." / "Cannot configure ..." *)
| MsgAlreadyConfigured (k : string * Z) (ip : string)
| MsgNeedsReboot (k : string * Z)                  (* "Note: ... needs a reboot for cloud-init ..." *)
| MsgWriteSkipped (k : string * Z)                 (* "Skipping IP configuration for ... due to previous error." *)
| MsgNeedRestartSummary (ks : list (string * Z))   (* "The following running VMs were modified and need restart" *)
| MsgRestarted (k : string * Z)                    (* "Successfully restarted VM" *)
| MsgRestartFailed (k : string * Z)                (* "Failed to restart VM ..." *)
| MsgExecutingCommand (command : string)           (* cli.py: "Executing command: ..." *)
| MsgCommandCompleted (command : string)           (* cli.py: "Command '...' completed successfully." *)
| MsgApplicationError (e : Exn)                    (* cli.py: "An application error occurred: ..." *)
| MsgUnexpectedError (e : Exn).                    (* cli.py: "An unexpected critical error occurred: ..." *)

Record World := mkWorld {
  (** answer of [client.nodes.get()]; [None] is a [ResourceException] *)
  nodes_get : option (list (gmap string string));
  (** answer of [client.nodes(n).qemu.get()], each entry reduced to its
      ["vmid"] field if it has one *)
  qemu_get : string → option (list (option Z));
  (** the configuration the cluster stores for each VM that exists *)
  vm_store : gmap (string * Z) (gmap string string);
  config_get_fails : string → Z → bool;
  config_put_fails : string → Z → bool;
  (** answer of [....status.current.get()] *)
  status_current : string → Z → option (gmap string string);
  (** task id answered to [....status.<action>.post()] *)
  status_post : string → Z → string → option string;
  node_config_file : ConfigFile;
  ssh_public_key_file : KeyFile;
  calls : list Call;
  log : list (Level * Msg);
}.

Definition add_call (c : Call) (w : World) : World :=
  {| nodes_get := nodes_get w; qemu_get := qemu_get w; vm_store := vm_store w;
     config_get_fails := config_get_fails w; config_put_fails := config_put_fails w;
     status_current := status_current w; status_post := status_post w;
     node_config_file := node_config_file w;
     ssh_public_key_file := ssh_public_key_file w;
     calls := calls w ++ [c]; log := log w |}.

Definition add_log (l : Level * Msg) (w : World) : World :=
  {| nodes_get := nodes_get w; qemu_get := qemu_get w; vm_store := vm_store w;
     config_get_fails := config_get_fails w; config_put_fails := config_put_fails w;
     status_current := status_current w; status_post := status_post w;
     node_config_file := node_config_file w;
     ssh_public_key_file := ssh_public_key_file w;
     calls := calls w; log := log w ++ [l] |}.

Definition set_store (s : gmap (string * Z) (gmap string string)) (w : World) : World :=
  {| nodes_get := nodes_get w; qemu_get := qemu_get w; vm_store := s;
     config_get_fails := config_get_fails w; config_put_fails := config_put_fails w;
     status_current := status_current w; status_post := status_post w;
     node_config_file := node_config_file w;
     ssh_public_key_file := ssh_public_key_file w;
     calls := calls w; log := log w |}.

(** ** Computations: a world in, a result or an exception and a world out *)

Definition M (A : Type) : Type := World → Result A * World.

Definition raise {A} (e : Exn) : M A := λ w, (Raise e, w).

#[global] Instance M_ret : MRet M := λ A a w, (Ok a, w).

#[global] Instance M_bind : MBind M := λ A B k c w,
  match c w with
  | (Ok a, w') => k a w'
  | (Raise e, w') => (Raise e, w')
  end.

#[global] Instance M_fmap : FMap M := λ A B f c w,
  match c w with
  | (Ok a, w') => (Ok (f a), w')
  | (Raise e, w') => (Raise e, w')
  end.

Definition ret {A} (a : A) : M A := mret a.

Definition lift {A} (r : Result A) : M A := λ w, (r, w).
Definition reads {A} (f : World → A) : M A := λ w, (Ok (f w), w).
Definition modify (f : World → World) : M unit := λ w, (Ok (), f w).
Definition call (c : Call) : M unit := λ w, (Ok (), add_call c w).
Definition logm (lvl : Level) (msg : Msg) : M unit := λ w, (Ok (), add_log (lvl, msg) w).

(** [try: body / except ProxmoxError: handler]. *)
Definition except_ProxmoxError {A} (body handler : M A) : M A :=
  λ w, match body w with
       | (Raise ProxmoxError, w') => handler w'
       | r => r
       end.

(** [for x in l: s = body(s, x)]; an exception ends the loop. *)
Fixpoint for_each {S A} (body : S → A → M S) (s : S) (l : list A) : M S :=
  match l with
  | [] => ret s
  | x :: l' => s' ← body s x; for_each body s' l'
  end.

(** ** proxmox_api.py

    [get_proxmox_client()] is taken to hand back the connected client. *)

Definition get_proxmox_cluster_nodes : M (list string) :=
  call CallNodesGet;;
  r ← reads nodes_get;
  match r with
  | Some nodes_data =>
      (* both the empty and the non-empty answer return the sorted names *)
      ret (Py.sorted id String.ltb (omap (λ node_info, node_info !! "node") nodes_data))
  | None => logm ERROR (MsgApiFailed CallNodesGet);; raise ProxmoxError
  end.

Definition get_vms_on_node (node_name : string) : M (list Z) :=
  call (CallQemuGet node_name);;
  r ← reads (λ w, qemu_get w node_name);
  match r with
  | Some vms_data => ret (Py.sorted id Z.ltb (omap id vms_data))
  | None => logm INFO_YELLOW (MsgVmsOnNodeFailed node_name);; ret []
  end.

Definition get_vm_config (node_name : string) (vmid : Z) : M (gmap string string) :=
  call (CallConfigGet node_name vmid);;
  r ← reads (λ w, if config_get_fails w node_name vmid then None
                  else vm_store w !! (node_name, vmid));
  match r with
  | Some config_data => ret config_data
  | None => logm ERROR (MsgApiFailed (CallConfigGet node_name vmid));; raise ProxmoxError
  end.

Definition get_vm_status (node_name : string) (vmid : Z) : M (gmap string string) :=
  call (CallStatusCurrent node_name vmid);;
  r ← reads (λ w, status_current w node_name vmid);
  match r with
  | Some status_data => ret status_data
  | None => logm ERROR (MsgApiFailed (CallStatusCurrent node_name vmid));; raise ProxmoxError
  end.

Definition valid_actions : list string := ["start"; "stop"; "shutdown"; "reboot"].

Definition control_vm (node_name : string) (vmid : Z) (action : string) : M string :=
  if bool_decide (action ∉ valid_actions) then raise ValueError
  else
    let pve_api_action := if bool_decide (action = "stop") then "shutdown" else action in
    call (CallStatusPost node_name vmid pve_api_action);;
    r ← reads (λ w, status_post w node_name vmid pve_api_action);
    match r with
    | Some task_id => ret task_id
    | None =>
        logm ERROR (MsgApiFailed (CallStatusPost node_name vmid pve_api_action));;
        raise ProxmoxError
    end.

(** The dictionary [set_vm_network_config] sends. *)
Definition params_to_set (E : AppConfig) (ipconfig_value : string)
    (nameserver_value searchdomain_value ssh_key : option string) : gmap string string :=
  let p0 : gmap string string := <[ipconfig_key E := ipconfig_value]> ∅ in
  let p1 := match nameserver_value with
            | Some v => if Py.truthy v then <["nameserver" := v]> p0 else p0
            | None => p0
            end in
  let p2 := match searchdomain_value with
            | Some v => if Py.truthy v then <["searchdomain" := v]> p1 else p1
            | None => p1
            end in
  match ssh_key with
  | Some v => if Py.truthy v then <["sshkeys" := Py.quote v]> p2 else p2
  | None => p2
  end.

(** A [PUT] that the cluster accepts stores the sent options over the ones
    it had.  The returned text is used by no caller. *)
Definition set_vm_network_config (E : AppConfig) (node_name : string) (vmid : Z)
    (ipconfig_value : string) (nameserver_value searchdomain_value ssh_key : option string)
    : M unit :=
  let params := params_to_set E ipconfig_value nameserver_value searchdomain_value ssh_key in
  call (CallConfigPut node_name vmid params);;
  r ← reads (λ w, if config_put_fails w node_name vmid then None
                  else vm_store w !! (node_name, vmid));
  match r with
  | Some stored =>
      modify (λ w, set_store (<[(node_name, vmid) := params ∪ stored]> (vm_store w)) w)
  | None =>
      logm ERROR (MsgApiFailed (CallConfigPut node_name vmid params));;
      raise ProxmoxError
  end.

(** ** k3s_manager.py: loading and discovery *)

Definition with_lists (m : Manager) (srv agt sto al : list VMIdentifier) : Manager :=
  {| k3s_version := k3s_version m;
     servers := srv; agents := agt; storage := sto; all_nodes := al;
     server_master := server_master m;
     servers_no_first := servers_no_first m |}.

Definition Loaded : Type := list VMIdentifier * list VMIdentifier * list VMIdentifier.

(** Body of the inner loop of [load_nodes_from_config_file]. *)
Definition load_vm (E : AppConfig) (proxmox_node_id : Json) (acc : Loaded)
    (vm_info : Json) : Result Loaded :=
  match Js.get vm_info "vmid" JNull with
  | Raise e => Raise e
  | Ok vmid =>
      match Js.get vm_info "role" (JStr "") with
      | Raise e => Raise e
      | Ok role_v =>
          let role := Py.upper (Js.str role_v) in
          if negb (Js.truthy vmid) then Ok acc
          else
            match proxmox_node_id, vmid with
            | JStr node, JNum id =>
                let vm_identifier := mkVM node id None None [] ∅ None in
                let '(loaded_servers, loaded_agents, loaded_storage) := acc in
                if bool_decide (role = Py.upper (SERVER_TAG E) ∨ role = "SERVER") then
                  Ok (loaded_servers ++ [vm_identifier], loaded_agents, loaded_storage)
                else if bool_decide (role = Py.upper (AGENT_TAG E) ∨ role = "AGENT") then
                  Ok (loaded_servers, loaded_agents ++ [vm_identifier], loaded_storage)
                else if bool_decide (role = Py.upper (STORAGE_TAG E) ∨ role = "STORAGE") then
                  Ok (loaded_servers, loaded_agents, loaded_storage ++ [vm_identifier])
                else Ok acc
            | _, _ => Raise Unmodelled
            end
      end
  end.

Fixpoint load_vms (E : AppConfig) (proxmox_node_id : Json) (acc : Loaded)
    (vms : list Json) : Result Loaded :=
  match vms with
  | [] => Ok acc
  | vm_info :: rest =>
      match load_vm E proxmox_node_id acc vm_info with
      | Ok acc' => load_vms E proxmox_node_id acc' rest
      | Raise e => Raise e
      end
  end.

(** Body of the outer loop. *)
Definition load_host (E : AppConfig) (acc : Loaded) (p_node_info : Json) : Result Loaded :=
  match Js.get p_node_info "id" JNull with
  | Raise e => Raise e
  | Ok proxmox_node_id =>
      if negb (Js.truthy proxmox_node_id) then Ok acc
      else
        match Js.get p_node_info "vms" (JArr []) with
        | Raise e => Raise e
        | Ok vms_v =>
            match Js.iter vms_v with
            | Raise e => Raise e
            | Ok vms => load_vms E proxmox_node_id acc vms
            end
        end
  end.

Fixpoint load_hosts (E : AppConfig) (acc : Loaded) (hosts : list Json) : Result Loaded :=
  match hosts with
  | [] => Ok acc
  | p_node_info :: rest =>
      match load_host E acc p_node_info with
      | Ok acc' => load_hosts E acc' rest
      | Raise e => Raise e
      end
  end.

(** The loops of [load_nodes_from_config_file] over parsed [data]. *)
Definition load_data (E : AppConfig) (data : Json) : Result Loaded :=
  match Js.get data "nodes" (JArr []) with
  | Raise e => Raise e
  | Ok nodes_v =>
      match Js.iter nodes_v with
      | Raise e => Raise e
      | Ok hosts => load_hosts E ([], [], []) hosts
      end
  end.

Definition load_nodes_from_config_file (E : AppConfig) (m : Manager) : M (bool * Manager) :=
  f ← reads node_config_file;
  match f with
  | CfAbsent => ret (false, m)
  | CfIOError | CfInvalidJson => raise ConfigurationError
  | CfLoadRaises f =>
      (* not among [except (json.JSONDecodeError, IOError)] *)
      raise (load_failure_exn f)
  | CfJson data =>
      '(loaded_servers, loaded_agents, loaded_storage) ← lift (load_data E data);
      let m1 := with_lists m loaded_servers loaded_agents loaded_storage
                  (Py.list_set sort_key (loaded_servers ++ loaded_agents ++ loaded_storage)) in
      ret (true, _populate_node_lists m1)
  end.

(** [[tag.strip() for tag in tags_str.split(";") if tag.strip()]]. *)
Definition parse_tags (tags_str : string) : list string :=
  filter (λ t, t ≠ "") (Py.strip <$> Py.split ";" tags_str).

(** Body of the inner loop of [discover_nodes_by_tags]. *)
Definition discover_vm (E : AppConfig) (p_node_name : string) (m : Manager) (vmid : Z)
    : M Manager :=
  r ← except_ProxmoxError (Some <$> get_vm_config p_node_name vmid) (ret None);
  match r with
  | None => ret m
  | Some vm_config =>
      let vm_name := vm_config !! "name" in
      let tags_str := default "" (vm_config !! "tags") in
      let vm_tags := parse_tags tags_str in
      if bool_decide (vm_tags = []) then ret m
      else
        let vm_identifier := mkVM p_node_name vmid vm_name None vm_tags vm_config None in
        let is_server := bool_decide (SERVER_TAG E ∈ vm_tags) in
        let is_agent := bool_decide (AGENT_TAG E ∈ vm_tags) in
        let is_storage := bool_decide (STORAGE_TAG E ∈ vm_tags) in
        if negb (is_server || is_agent || is_storage) then ret m
        else
          ret (with_lists m
                 (if is_server then servers m ++ [vm_identifier] else servers m)
                 (if is_agent then agents m ++ [vm_identifier] else agents m)
                 (if is_storage then storage m ++ [vm_identifier] else storage m)
                 (all_nodes m ++ [vm_identifier]))
  end.

(** Body of the outer loop. *)
Definition discover_host (E : AppConfig) (m : Manager) (p_node_name : string) : M Manager :=
  r ← except_ProxmoxError (Some <$> get_vms_on_node p_node_name) (ret None);
  match r with
  | None => ret m
  | Some vmids_on_node => for_each (discover_vm E p_node_name) m vmids_on_node
  end.

Definition discover_nodes_by_tags (E : AppConfig) (m : Manager) : M Manager :=
  proxmox_host_nodes ←
    except_ProxmoxError get_proxmox_cluster_nodes (raise NodeDiscoveryError);
  if bool_decide (proxmox_host_nodes = []) then raise NodeDiscoveryError
  else
    m1 ← for_each (discover_host E) m proxmox_host_nodes;
    let m2 := with_lists m1
                (Py.list_set sort_key (servers m1))
                (Py.list_set sort_key (agents m1))
                (Py.list_set sort_key (storage m1))
                (Py.list_set sort_key (all_nodes m1)) in
    (if bool_decide (all_nodes m2 = []) then logm INFO_YELLOW MsgNoRoleTaggedNodes
     else ret ());;
    (* "Not raising an error here, let the caller decide." *)
    ret (_populate_node_lists m2).

Definition ensure_nodes_are_discovered (E : AppConfig) (discover_if_empty : bool)
    (m : Manager) : M Manager :=
  if bool_decide (all_nodes m ≠ []) then ret m
  else
    '(loaded, m1) ← load_nodes_from_config_file E m;
    if loaded && bool_decide (all_nodes m1 ≠ []) then ret m1
    else
      (if loaded then logm INFO_YELLOW MsgConfigFileNoNodes else ret ());;
      if discover_if_empty then
        m2 ← discover_nodes_by_tags E m1;
        if bool_decide (all_nodes m2 ≠ []) then ret m2
        else raise NodeDiscoveryError
      else raise NodeDiscoveryError.

(** ** k3s_manager.py: lifecycle actions *)

Definition set_status (s : string) (vm : VMIdentifier) : VMIdentifier :=
  {| proxmox_node := proxmox_node vm; vmid := vmid vm; name := name vm;
     ip_address := ip_address vm; tags := tags vm; config := config vm;
     status := Some s |}.

(** [vm.config = c; vm.name = vm.config.get("name", vm.name)]. *)
Definition set_config (c : gmap string string) (vm : VMIdentifier) : VMIdentifier :=
  {| proxmox_node := proxmox_node vm; vmid := vmid vm;
     name := match c !! "name" with Some n => Some n | None => name vm end;
     ip_address := ip_address vm; tags := tags vm; config := c;
     status := status vm |}.

(** [status_data.get("status", "unknown").lower()]. *)
Definition status_of (status_data : gmap string string) : string :=
  Py.lower (default "unknown" (status_data !! "status")).

(** Body of the loop of [perform_vm_action]; the result is the VM object as
    the iteration leaves it.  Nothing here catches what [control_vm] raises. *)
Definition perform_vm_action_node (action : string) (vm : VMIdentifier) : M VMIdentifier :=
  r ← except_ProxmoxError
        (status_data ← get_vm_status (proxmox_node vm) (vmid vm);
         ret (Some (status_of status_data)))
        (logm ERROR (MsgStatusSkipAction (sort_key vm));; ret None);
  match r with
  | None => ret vm
  | Some current_status =>
      let vm := set_status current_status vm in
      if bool_decide (action = "start") then
        if bool_decide (current_status = "running") then
          logm INFO_GREEN (MsgAlreadyRunning (sort_key vm));; ret vm
        else
          control_vm (proxmox_node vm) (vmid vm) "start";; ret vm
      else if bool_decide (action = "stop") then
        if bool_decide (current_status = "stopped") then
          logm INFO_GREEN (MsgAlreadyStopped (sort_key vm));; ret vm
        else
          control_vm (proxmox_node vm) (vmid vm) "stop";; ret vm
      else if bool_decide (action = "restart") then
        if bool_decide (current_status ≠ "running") then
          logm INFO_YELLOW (MsgStartInsteadOfReboot (sort_key vm));;
          control_vm (proxmox_node vm) (vmid vm) "start";; ret vm
        else
          control_vm (proxmox_node vm) (vmid vm) "reboot";; ret vm
      else
        logm ERROR (MsgUnknownAction action);; ret vm
  end.

(** [perform_vm_action].  The loop mutates the objects in [self.all_nodes];
    the role lists alias them and are not rebuilt here. *)
Definition perform_vm_action (E : AppConfig) (action : string) (m : Manager) : M Manager :=
  m ← ensure_nodes_are_discovered E true m;
  if bool_decide (all_nodes m = []) then
    logm INFO_YELLOW MsgNoVmLocations;; ret m
  else
    vms ← for_each (λ done vm, vm' ← perform_vm_action_node action vm; ret (done ++ [vm']))
            [] (all_nodes m);
    ret (with_lists m (servers m) (agents m) (storage m) vms).

(** ** k3s_manager.py: SSH key resolution *)

Definition _get_ssh_public_key (E : AppConfig) : M (option string) :=
  if Py.truthy_opt (SSH_PUBLIC_KEY E) then
    logm INFO_BLUE MsgKeyFromEnv;; ret (SSH_PUBLIC_KEY E)
  else
    f ← reads node_config_file;
    from_config ←
      match f with
      | CfAbsent => ret None
      | CfIOError | CfInvalidJson => logm INFO_YELLOW MsgKeyConfigUnreadable;; ret None
      | CfLoadRaises f => raise (load_failure_exn f)
      | CfJson data =>
          has ← lift (Js.has_ssh_key data);
          if has : bool then
            logm INFO_BLUE MsgKeyFromConfigFile;;
            v ← lift (Js.ssh_key_item data);
            ret (Some v)
          else ret None
      end;
    match from_config with
    | Some (JStr s) => ret (Some s)
    | Some JNull => ret None
    | Some _ => raise Unmodelled
    | None =>
        k ← reads ssh_public_key_file;
        match k with
        | KfText content =>
            let key_content := Py.strip content in
            if Py.truthy key_content then
              logm INFO_BLUE MsgKeyFromKeyFile;; ret (Some key_content)
            else
              logm INFO_YELLOW MsgKeyFileEmpty;; ret None
        | KfIOError => logm INFO_YELLOW MsgKeyFileUnreadable;; ret None
        | KfAbsent => logm INFO_YELLOW MsgKeyFileMissing;; ret None
        end
    end.

(** ** k3s_manager.py: IP convergence *)

(** The local variables the loop of [configure_vms] carries. *)
Record LoopState := mkLoop {
  next_ip_to_assign_int : Z;
  modified_vms : list VMIdentifier;
  running_modified_vms : list VMIdentifier;
}.

Definition advance (st : LoopState) : LoopState :=
  {| next_ip_to_assign_int := next_ip_to_assign_int st + 1;
     modified_vms := modified_vms st;
     running_modified_vms := running_modified_vms st |}.

Definition add_modified (vm : VMIdentifier) (st : LoopState) : LoopState :=
  {| next_ip_to_assign_int := next_ip_to_assign_int st;
     modified_vms := modified_vms st ++ [vm];
     running_modified_vms := running_modified_vms st |}.

Definition add_running_modified (vm : VMIdentifier) (st : LoopState) : LoopState :=
  {| next_ip_to_assign_int := next_ip_to_assign_int st;
     modified_vms := modified_vms st;
     running_modified_vms := running_modified_vms st ++ [vm] |}.

Definition target_ipconfig_value (E : AppConfig) (next_ip : Z) : string :=
  "ip=" +:+ ipv4_str next_ip +:+ "/" +:+ K3S_NODE_CIDR E +:+ ",gw=" +:+ K3S_NODE_GATEWAY E.

Definition target_nameserver_value (E : AppConfig) : string :=
  Py.join " " (K3S_NODE_DNS_SERVERS E).

(** The "Idempotency Check" block. *)
Definition needs_update (E : AppConfig) (force : bool) (next_ip : Z)
    (vm_config : gmap string string) : bool :=
  let current_ipconfig_value := default "" (vm_config !! ipconfig_key E) in
  let current_nameserver_value := default "" (vm_config !! "nameserver") in
  let current_searchdomain_value := default "" (vm_config !! "searchdomain") in
  let needs_update := force in
  if negb needs_update then
    let needs_update :=
      if Py.neq current_ipconfig_value (target_ipconfig_value E next_ip)
      then true else needs_update in
    let needs_update :=
      if Py.truthy (target_nameserver_value E)
         && Py.neq current_nameserver_value (target_nameserver_value E)
      then true else needs_update in
    let needs_update :=
      if match K3S_NODE_SEARCH_DOMAIN E with
         | Some target => Py.truthy target && Py.neq current_searchdomain_value target
         | None => false
         end
      then true else needs_update in
    needs_update
  else needs_update.

(** Body of the [for vm in sorted_nodes] loop: the loop's variables after
    the iteration, and the object [vm] as the iteration leaves it.  The
    body assigns [vm.status] always and [vm.config], [vm.name] when it
    fetched the attribute map; it does not touch the object after a
    write. *)
Definition configure_node_obj (E : AppConfig) (restart_after force : bool)
    (ssh_key : option string) (ip_range_end_int : Z)
    (st : LoopState) (vm : VMIdentifier) : M (LoopState * VMIdentifier) :=
  current_status ←
    except_ProxmoxError
      (status_data ← get_vm_status (proxmox_node vm) (vmid vm);
       ret (status_of status_data))
      (logm WARNING (MsgStatusAssumedUnknown (sort_key vm));; ret "unknown");
  let vm := set_status current_status vm in
  fetched ←
    (if bool_decide (config vm = ∅) || bool_decide (config vm !! ipconfig_key E = None) then
       except_ProxmoxError
         (c ← get_vm_config (proxmox_node vm) (vmid vm); ret (Some (set_config c vm)))
         (logm ERROR (MsgConfigSkip (sort_key vm));; ret None)
     else ret (Some vm));
  match fetched with
  | None => ret (st, vm)
  | Some vm =>
      if next_ip_to_assign_int st >? ip_range_end_int then
        logm ERROR (MsgRangeExhausted (sort_key vm));; ret (st, vm)
      else if negb (needs_update E force (next_ip_to_assign_int st) (config vm)) then
        logm INFO_GREEN
          (MsgAlreadyConfigured (sort_key vm) (ipv4_str (next_ip_to_assign_int st)));;
        ret (advance st, vm)
      else
        st' ←
          except_ProxmoxError
            (set_vm_network_config E (proxmox_node vm) (vmid vm)
               (target_ipconfig_value E (next_ip_to_assign_int st))
               (Some (target_nameserver_value E))
               (K3S_NODE_SEARCH_DOMAIN E)
               ssh_key;;
             let st1 := add_modified vm st in
             if bool_decide (status vm = Some "running") then
               (if negb restart_after then logm INFO_YELLOW (MsgNeedsReboot (sort_key vm))
                else ret ());;
               ret (add_running_modified vm st1)
             else ret st1)
            (logm ERROR (MsgWriteSkipped (sort_key vm));; ret st);
        ret (advance st', vm)
  end.

(** The same iteration, followed in the loop's variables only. *)
Definition configure_node (E : AppConfig) (restart_after force : bool)
    (ssh_key : option string) (ip_range_end_int : Z)
    (st : LoopState) (vm : VMIdentifier) : M LoopState :=
  fst <$> configure_node_obj E restart_after force ssh_key ip_range_end_int st vm.

Definition configure_loop (E : AppConfig) (restart_after force : bool)
    (ssh_key : option string) (ip_range_end_int : Z)
    : LoopState → list VMIdentifier → M LoopState :=
  for_each (configure_node E restart_after force ssh_key ip_range_end_int).

(** The loop with the objects it has been through, in loop order. *)
Definition configure_loop_obj (E : AppConfig) (restart_after force : bool)
    (ssh_key : option string) (ip_range_end_int : Z)
    : LoopState * list VMIdentifier → list VMIdentifier →
      M (LoopState * list VMIdentifier) :=
  for_each (λ '(st, seen) vm,
              '(st', vm') ← configure_node_obj E restart_after force ssh_key
                              ip_range_end_int st vm;
              ret (st', seen ++ [vm'])).

(** Body of the [for vm in modified_vms] loop. *)
Definition restart_node (vm : VMIdentifier) : M unit :=
  except_ProxmoxError
    (control_vm (proxmox_node vm) (vmid vm) "restart";;
     logm INFO_GREEN (MsgRestarted (sort_key vm)))
    (logm ERROR (MsgRestartFailed (sort_key vm))).

Definition restart_modified (vms : list VMIdentifier) : M unit :=
  for_each (λ _ vm, restart_node vm) () vms.

(** [configure_vms] from "Get SSH public key" on, over a non-empty
    [self.all_nodes].  The result is the loop's final state together with
    the node objects as the loop leaves them, in loop order:
    [self.all_nodes] holds these same objects, and a later call sorts them
    again. *)
Definition configure_nodes (E : AppConfig) (restart_after force : bool)
    (all_nodes : list VMIdentifier) : M (LoopState * list VMIdentifier) :=
  ssh_key ← _get_ssh_public_key E;
  (if negb (Py.truthy_opt ssh_key) then logm INFO_YELLOW MsgNoSshKey else ret ());;
  match K3S_NODE_IP_RANGE_START E, K3S_NODE_IP_RANGE_END E with
  | Some ip_range_start_int, Some ip_range_end_int =>
      let sorted_nodes := sort_nodes all_nodes in
      '(st, seen) ← configure_loop_obj E restart_after force ssh_key ip_range_end_int
                      (mkLoop ip_range_start_int [] [], []) sorted_nodes;
      (if bool_decide (running_modified_vms st ≠ []) && negb restart_after then
         logm INFO_YELLOW (MsgNeedRestartSummary (sort_key <$> running_modified_vms st))
       else ret ());;
      (if bool_decide (modified_vms st ≠ []) && restart_after then
         restart_modified (modified_vms st)
       else ret ());;
      ret (st, seen)
  | _, _ => raise ConfigurationError
  end.

(** [configure_vms]; [None] is the early return on an empty node list. *)
Definition configure_vms (E : AppConfig) (restart_after force : bool) (m : Manager)
    : M (option (LoopState * list VMIdentifier)) :=
  m ← ensure_nodes_are_discovered E true m;
  if bool_decide (all_nodes m = []) then
    logm INFO_YELLOW MsgNoVmLocations;; ret None
  else
    st ← configure_nodes E restart_after force (all_nodes m);
    ret (Some st).

(** ** Reading the call trace *)

(** The calls made between world [w] and a later world [w']. *)
Definition calls_since (w w' : World) : list Call :=
  drop (length (calls w)) (calls w').

Definition log_since (w w' : World) : list (Level * Msg) :=
  drop (length (log w)) (log w').

(** The power actions posted, as (node, vmid, transport-level action). *)
Definition posted (cs : list Call) : list (string * Z * string) :=
  omap (λ c, match c with
             | CallStatusPost n v a => Some (n, v, a)
             | _ => None
             end) cs.

(** The configuration writes sent. *)
Definition written (cs : list Call) : list (string * Z * gmap string string) :=
  omap (λ c, match c with
             | CallConfigPut n v p => Some (n, v, p)
             | _ => None
             end) cs.

(** ** Sample data *)

Definition vm_a : VMIdentifier := mkVM "pve1" 100 None None [] ∅ None.
Definition vm_b : VMIdentifier := mkVM "pve1" 101 None None [] ∅ None.
Definition vm_c : VMIdentifier := mkVM "pve2" 200 None None [] ∅ None.

Definition demo_manager : Manager :=
  mkManager "v1.32.4+k3s1" [vm_b; vm_a] [vm_b] [vm_c] [vm_c; vm_b; vm_a] None [].

Definition empty_manager : Manager := mkManager "v1.32.4+k3s1" [] [] [] [] None [].

(** A cluster of one host whose VMs all run and whose API never fails. *)
Definition demo_world (store : gmap (string * Z) (gmap string string)) : World :=
  {| nodes_get := Some [{["node" := "pve1"]}];
     qemu_get := λ _, Some [Some 100; Some 101];
     vm_store := store;
     config_get_fails := λ _ _, false;
     config_put_fails := λ _ _, false;
     status_current := λ _ _, Some {["status" := "running"]};
     status_post := λ _ _ _, Some "UPID";
     node_config_file := CfAbsent;
     ssh_public_key_file := KfAbsent;
     calls := [];
     log := [] |}.

Definition demo_store : gmap (string * Z) (gmap string string) :=
  {[ ("pve1", 100) := {["tags" := "k3s-server"]};
     ("pve1", 101) := {["tags" := "k3s-agent"]} ]}.

(** ** Reading a convergence step *)

(** What [get_vm_config] answers for a VM. *)
Definition remote_config (w : World) (k : string * Z) : option (gmap string string) :=
  if config_get_fails w k.1 k.2 then None else vm_store w !! k.

(** The attribute map an iteration of the convergence loop ends up
    comparing against: the one the object already carries when it has the
    interface's key, a freshly fetched one otherwise ([None]: the fetch
    failed and the node is skipped). *)
Definition observed_config (E : AppConfig) (vm : VMIdentifier) (w : World)
    : option (gmap string string) :=
  if bool_decide (config vm = ∅) || bool_decide (config vm !! ipconfig_key E = None)
  then remote_config w (sort_key vm)
  else Some (config vm).

(** The dictionary a convergence write sends at cursor [next_ip]. *)
Definition target_params (E : AppConfig) (ssh_key : option string) (next_ip : Z)
    : gmap string string :=
  params_to_set E (target_ipconfig_value E next_ip)
    (Some (target_nameserver_value E)) (K3S_NODE_SEARCH_DOMAIN E) ssh_key.

(** The parts of the world no call of this program changes. *)
Definition same_remote (w w' : World) : Prop :=
  nodes_get w' = nodes_get w ∧ qemu_get w' = qemu_get w ∧
  config_get_fails w' = config_get_fails w ∧
  config_put_fails w' = config_put_fails w ∧
  status_current w' = status_current w ∧ status_post w' = status_post w ∧
  node_config_file w' = node_config_file w ∧
  ssh_public_key_file w' = ssh_public_key_file w.

(** An object's attribute map is current: empty (to be fetched on demand),
    or what the cluster stores for that VM and would answer when asked. *)
Definition up_to_date (w : World) (vm : VMIdentifier) : Prop :=
  config vm = ∅ ∨ remote_config w (sort_key vm) = Some (config vm).





(** One past the largest IPv4 address, as an integer. *)
Definition ipv4_limit : Z := 4294967296.

(** The text has no occurrence of the character. *)
Fixpoint lacks_char (c : ascii) (s : string) : bool :=
  match s with
  | "" => true
  | String c' s' => negb (Ascii.eqb c c') && lacks_char c s'
  end.




(** The same cluster with its configuration reads and writes failing or
    not, uniformly over all VMs. *)
Definition with_failures (get_fails put_fails : bool) (w : World) : World :=
  {| nodes_get := nodes_get w; qemu_get := qemu_get w; vm_store := vm_store w;
     config_get_fails := λ _ _, get_fails;
     config_put_fails := λ _ _, put_fails;
     status_current := status_current w; status_post := status_post w;
     node_config_file := node_config_file w;
     ssh_public_key_file := ssh_public_key_file w;
     calls := calls w; log := log w |}.

(** The same cluster seen with other local files. *)
Definition with_files (cf : ConfigFile) (kf : KeyFile) (w : World) : World :=
  {| nodes_get := nodes_get w; qemu_get := qemu_get w; vm_store := vm_store w;
     config_get_fails := config_get_fails w; config_put_fails := config_put_fails w;
     status_current := status_current w; status_post := status_post w;
     node_config_file := cf;
     ssh_public_key_file := kf;
     calls := calls w; log := log w |}.

(** First and last address of the shipped range. *)
Definition range_start : Z := 168427721.
Definition range_end : Z := 168427749.


(** ** Reading the loader's accumulators *)

(** No VM gathered so far has id 0. *)
Definition no_vmid_zero (acc : Loaded) : Prop :=
  Forall (λ vm, vmid vm ≠ 0) (acc.1.1 ++ acc.1.2 ++ acc.2).


(** The exceptions the loader's loops can end in: a non-dict asked for
    [.get], a non-iterable walked over, or an entry outside the typed
    fragment. *)
Definition loader_exn (e : Exn) : Prop :=
  e = AttributeError ∨ e = TypeError ∨ e = Unmodelled.

(** ** Reading the host list *)

(** The inventory client enumerates no host: the call fails, or its answer
    names none. *)
Definition no_hosts (w : World) : Prop :=
  match nodes_get w with
  | None => True
  | Some nodes_data => omap (λ node_info, node_info !! "node") nodes_data = []
  end.

(** A cluster whose only VM carries no role tag. *)
Definition untagged_world : World :=
  demo_world {[ ("pve1", 100) := {["tags" := "backup;web"]} ]}.


(** ** Reading the SSH key sources *)

(** The [ssh_key] field of the config-file data, when the file holds an
    object that has one. *)
Definition ssh_key_field (w : World) : option Json :=
  match node_config_file w with
  | CfJson (JObj fields) => Js.assoc "ssh_key" fields
  | _ => None
  end.

(** The config file is missing, unreadable, or holds a JSON object. *)
Definition config_data_is_object (w : World) : Prop :=
  match node_config_file w with
  | CfJson (JObj _) | CfAbsent | CfIOError | CfInvalidJson => True
  | CfJson _ | CfLoadRaises _ => False
  end.

(** What the key file contributes: its stripped content when non-empty. *)
Definition key_file_content (w : World) : option string :=
  match ssh_public_key_file w with
  | KfText content =>
      if Py.truthy (Py.strip content) then Some (Py.strip content) else None
  | _ => None
  end.

(** The resolution as the specification words it: the first of the three
    sources that yields non-empty content. *)
Definition first_nonempty_source (E : AppConfig) (w : World) : option string :=
  if Py.truthy_opt (SSH_PUBLIC_KEY E) then SSH_PUBLIC_KEY E
  else match ssh_key_field w with
       | Some (JStr s) => if Py.truthy s then Some s else key_file_content w
       | _ => key_file_content w
       end.

(** A config file with an empty [ssh_key] field next to a usable key file. *)
Definition empty_key_field_world : World :=
  with_files (CfJson (JObj [("ssh_key", JStr "")])) (KfText "ssh-rsa AAAA user@host")
    (demo_world demo_store).

(** A write that carries network settings and no SSH key. *)
Definition network_only (E : AppConfig) (p : string * Z * gmap string string) : Prop :=
  is_Some (p.2 !! ipconfig_key E) ∧ p.2 !! "sshkeys" = None.

(** ** Running computations *)

Ltac run :=
  unfold except_ProxmoxError, get_vm_status, get_vm_config, control_vm,
    set_vm_network_config, logm, call, reads, modify, lift, raise, ret,
    mret, M_ret, mbind, M_bind, fmap, M_fmap in *;
  simpl in *.

Ltac since :=
  unfold calls_since, log_since; simpl; rewrite <-?app_assoc, ?drop_app_length; simpl.


(** * The rest of the manager and its callers *)

(** ** models.py: [VMIdentifier.__str__] *)

(** [f"{node}:{vmid}" + (f" ({name})" if name else "")]. *)
Definition vm_str (vm : VMIdentifier) : string :=
  proxmox_node vm +:+ ":" +:+ pretty (vmid vm) +:+
  (if Py.truthy_opt (name vm) then " (" +:+ default "" (name vm) +:+ ")" else "").

(** ** k3s_manager.py: [_parse_vm_location] *)

(** [s.split(sep, 1)]: at most one cut, at the first separator. *)
Fixpoint split_once_go (sep : ascii) (cur : string) (s : string) : list string :=
  match s with
  | EmptyString => [String.rev cur]
  | String c s' =>
      if bool_decide (c = sep) then [String.rev cur; s']
      else split_once_go sep (String c cur) s'
  end.

Definition split_once (sep : ascii) (s : string) : list string := split_once_go sep "" s.

Section ParseVmLocation.
(** Python's [int(text)]; [None] stands for its [ValueError]. *)
Variable py_int : string → option Z.

Definition _parse_vm_location (location_str : string) : Result (string * Z) :=
  if negb (Py.contains ":" location_str) then Raise ValueError
  else
    match split_once ":" location_str with
    | [parts0; parts1] =>
        match py_int parts1 with
        | Some n => Ok (parts0, n)
        | None => Raise ValueError
        end
    | _ => Raise Unmodelled (* IndexError on parts[1]; excluded by the membership test *)
    end.
End ParseVmLocation.

(** Decimal digits only, read left to right: a reader that is enough to
    try [_parse_vm_location] on the text of a non-negative id. *)
Fixpoint read_digits (acc : N) (s : string) : option N :=
  match s with
  | EmptyString => Some acc
  | String c s' =>
      let n := Ascii.N_of_ascii c in
      if ((48 <=? n) && (n <=? 57))%N then read_digits (acc * 10 + (n - 48)) s' else None
  end.

Definition read_nat_text (s : string) : option Z :=
  match s with
  | EmptyString => None
  | _ => Z.of_N <$> read_digits 0 s
  end.

(** ** k3s_manager.py: [provision_k3s_cluster] *)

(** The provisioning stub: its only decision is whether a master exists.
    The line it logs before raising has no counterpart in [Msg] and is left
    out, as are its progress lines. *)
Definition provision_k3s_cluster (E : AppConfig) (m : Manager) : M Manager :=
  m ← ensure_nodes_are_discovered E true m;
  match server_master m with
  | None => raise K3sDeployError
  | Some _ => ret m
  end.

(** ** k3s_manager.py: [check_k3s_version] *)

(** What [requests.get(...)], [raise_for_status()] and [response.json()]
    come to. *)
Inductive ReleaseResponse :=
| RespRequestException
| RespJSONDecodeError
| RespJson (latest_release_data : Json).

Definition set_k3s_version (v : string) (m : Manager) : Manager :=
  {| k3s_version := v;
     servers := servers m; agents := agents m; storage := storage m;
     all_nodes := all_nodes m;
     server_master := server_master m;
     servers_no_first := servers_no_first m |}.

(** How [input()] can fail: [EOFError] on a closed or exhausted standard
    input, [UnicodeDecodeError] on bytes it cannot decode. *)
Inductive InputFailure :=
| StdinClosed
| StdinUndecodable.

Definition input_failure_exn (f : InputFailure) : Exn :=
  match f with
  | StdinClosed => EOFError
  | StdinUndecodable => UnicodeDecodeError
  end.

(** What [input()] comes to: a line, or an exception. *)
Inductive PromptInput :=
| InputLine (answer_line : string)
| InputRaises (f : InputFailure).

(** The outcome of a version check, and whether [input()] was called. *)
Record VersionCheck := mkVersionCheck {
  vc_result : Result Manager;
  vc_prompted : bool;
}.

(** [check_k3s_version], given the release lookup's outcome and what a
    prompt would read.  The [try] around the body catches
    [requests.RequestException] and [json.JSONDecodeError] only, so an
    exception of [input()] leaves the function.  Its log lines are left
    out; so is the assignment to [app_config.K3S_VERSION], which nothing
    reads afterwards. *)
Definition check_k3s_version (response : ReleaseResponse) (answer : PromptInput)
    (ask_update : bool) (m : Manager) : VersionCheck :=
  match response with
  | RespRequestException | RespJSONDecodeError => mkVersionCheck (Ok m) false
  | RespJson latest_release_data =>
      match Js.get latest_release_data "tag_name" JNull with
      | Raise e => mkVersionCheck (Raise e) false
      | Ok latest_tag_name =>
          if negb (Js.truthy latest_tag_name) then mkVersionCheck (Ok m) false
          else if match latest_tag_name with
                  | JStr tag => Py.neq (k3s_version m) tag
                  | _ => true
                  end
          then
            if ask_update then
              match answer with
              | InputRaises f => mkVersionCheck (Raise (input_failure_exn f)) true
              | InputLine answer_line =>
                  let answer := Py.lower (Py.strip answer_line) in
                  if bool_decide (answer = "y") then
                    match latest_tag_name with
                    | JStr tag => mkVersionCheck (Ok (set_k3s_version tag m)) true
                    | _ => mkVersionCheck (Raise Unmodelled) true
                    end
                  else mkVersionCheck (Ok m) true
              end
            else mkVersionCheck (Ok m) false
          else mkVersionCheck (Ok m) false
      end
  end.

(** ** cli.py *)

(** The parsed command line. *)
Inductive Command :=
| CmdStart
| CmdStop
| CmdRestart
| CmdConfigureIps
| CmdProvision
| CmdCheckVersion (update : bool).

(** [args.command]. *)
Definition command_name (cmd : Command) : string :=
  match cmd with
  | CmdStart => "start"
  | CmdStop => "stop"
  | CmdRestart => "restart"
  | CmdConfigureIps => "configure-ips"
  | CmdProvision => "provision"
  | CmdCheckVersion _ => "check-version"
  end.

(** [args.func(args, manager)]. *)
Definition run_handler (E : AppConfig) (response : ReleaseResponse) (answer : PromptInput)
    (cmd : Command) (manager : Manager) : M unit :=
  match cmd with
  | CmdStart => perform_vm_action E "start" manager;; ret ()
  | CmdStop => perform_vm_action E "stop" manager;; ret ()
  | CmdRestart => perform_vm_action E "restart" manager;; ret ()
  | CmdConfigureIps =>
      (* [manager.configure_ips()]: the manager has no attribute of that name *)
      raise AttributeError
  | CmdProvision => provision_k3s_cluster E manager;; ret ()
  | CmdCheckVersion update =>
      lift (vc_result (check_k3s_version response answer update manager));; ret ()
  end.

(** [except K3sDeployError] also catches its three subclasses. *)
Definition is_K3sDeployError (e : Exn) : bool :=
  match e with
  | K3sDeployError | ProxmoxError | NodeDiscoveryError | ConfigurationError => true
  | _ => false
  end.

(** [main_cli] from the parsed command on, with the four lines it logs
    itself: the process exit code, 0 when the function returns.  [None]:
    the run left the typed fragment.  No exception of this program carries
    a [stderr] attribute, so the line for it is never written. *)
Definition main_cli (E : AppConfig) (response : ReleaseResponse) (answer : PromptInput)
    (cmd : Command) (w : World) : option Z * World :=
  match run_handler E response answer cmd empty_manager
          (add_log (INFO_BLUE, MsgExecutingCommand (command_name cmd)) w) with
  | (Ok _, w') => (Some 0, add_log (INFO_GREEN, MsgCommandCompleted (command_name cmd)) w')
  | (Raise Unmodelled, w') => (None, w')
  | (Raise e, w') =>
      if is_K3sDeployError e then (Some 1, add_log (ERROR, MsgApplicationError e) w')
      else (Some 2, add_log (CRITICAL, MsgUnexpectedError e) w')
  end.

(** The release answer brings [check_k3s_version] to its prompt when an
    update is asked for: an object whose [tag_name] is truthy and is not
    the current version. *)
Definition prompt_due (response : ReleaseResponse) (m : Manager) : Prop :=
  ∃ fields,
    response = RespJson (JObj fields) ∧
    Js.truthy (from_option id JNull (Js.assoc "tag_name" fields)) = true ∧
    from_option id JNull (Js.assoc "tag_name" fields) ≠ JStr (k3s_version m).


(** ** Reading a convergence pass *)

(** The cluster accepts a configuration write for VM [k]. *)
Definition write_accepted (w : World) (k : string * Z) : bool :=
  negb (config_put_fails w k.1 k.2) && bool_decide (is_Some (vm_store w !! k)).

(** The attributes a convergence write sets, given the resolved key: the
    interface's network config always, the optional ones when non-empty. *)
Definition sent_attrs (E : AppConfig) (ssh_key : option string) : list string :=
  [ipconfig_key E] ++
  (if Py.truthy (target_nameserver_value E) then ["nameserver"] else []) ++
  (if Py.truthy_opt (K3S_NODE_SEARCH_DOMAIN E) then ["searchdomain"] else []) ++
  (if Py.truthy_opt ssh_key then ["sshkeys"] else []).



(** ** Reading discovery *)

(** The host names [get_proxmox_cluster_nodes] hands to the discovery loop
    (none when the call fails). *)
Definition host_names (w : World) : list string :=
  match nodes_get w with
  | Some nodes_data =>
      Py.sorted id String.ltb (omap (λ node_info, node_info !! "node") nodes_data)
  | None => []
  end.

(** The VM ids [get_vms_on_node] returns for a host. *)
Definition vms_on_node (w : World) (node_name : string) : list Z :=
  match qemu_get w node_name with
  | Some vms_data => Py.sorted id Z.ltb (omap id vms_data)
  | None => []
  end.

(** The tags of an attribute map, as discovery parses them. *)
Definition vm_tags_of (c : gmap string string) : list string :=
  parse_tags (default "" (c !! "tags")).

(** The object discovery builds for a VM whose attribute map is [c]. *)
Definition discovered_vm (node_name : string) (vmid : Z) (c : gmap string string)
    : VMIdentifier :=
  mkVM node_name vmid (c !! "name") None (vm_tags_of c) c None.

Definition is_server_tags (E : AppConfig) (tags : list string) : bool :=
  bool_decide (SERVER_TAG E ∈ tags).
Definition is_agent_tags (E : AppConfig) (tags : list string) : bool :=
  bool_decide (AGENT_TAG E ∈ tags).
Definition is_storage_tags (E : AppConfig) (tags : list string) : bool :=
  bool_decide (STORAGE_TAG E ∈ tags).
Definition is_role_tags (E : AppConfig) (tags : list string) : bool :=
  is_server_tags E tags || is_agent_tags E tags || is_storage_tags E tags.

(** The VMs among [vmids] on [node_name] whose attribute map can be read
    and whose tags satisfy [sel], in order. *)
Definition found (w : World) (sel : list string → bool) (node_name : string)
    (vmids : list Z) : list VMIdentifier :=
  omap (λ vmid,
          match remote_config w (node_name, vmid) with
          | Some c => if sel (vm_tags_of c) then Some (discovered_vm node_name vmid c)
                      else None
          | None => None
          end) vmids.

(** The same over all the VMs of a list of hosts. *)
Definition found_all (w : World) (sel : list string → bool) (hosts : list string)
    : list VMIdentifier :=
  hosts ≫= (λ h, found w sel h (vms_on_node w h)).

(** Discovery walks over VM [k]: its host is enumerated and lists it. *)
Definition visited (w : World) (k : string * Z) : Prop :=
  k.1 ∈ host_names w ∧ k.2 ∈ vms_on_node w k.1.

(** VM [k]'s attribute map can be read and its tags satisfy [sel]. *)
Definition tagged (w : World) (sel : list string → bool) (k : string * Z) : Prop :=
  ∃ c, remote_config w k = Some c ∧ sel (vm_tags_of c) = true.

(** A request that only reads. *)
Definition is_read (c : Call) : Prop :=
  match c with
  | CallNodesGet | CallQemuGet _ | CallConfigGet _ _ | CallStatusCurrent _ _ => True
  | CallConfigPut _ _ _ | CallStatusPost _ _ _ => False
  end.

(** A manager that holds no node yet. *)
Definition no_nodes (m : Manager) : Prop :=
  servers m = [] ∧ agents m = [] ∧ storage m = [] ∧ all_nodes m = [].


(** ** Reading a lifecycle run *)

(** A node list file that gives host [pve1] an agent and a server. *)
Definition sample_node_file : Json :=
  JObj [("nodes",
         JArr [JObj [("id", JStr "pve1");
                     ("vms", JArr [JObj [("vmid", JNum 101); ("role", JStr "agent")];
                                   JObj [("vmid", JNum 100); ("role", JStr "k3s-server")]])]])].

(** The transport-level action due for a VM in state [current_status]
    under the command [action], if any. *)
Definition planned_post (action current_status : string) : option string :=
  if bool_decide (action = "start") then
    if bool_decide (current_status = "running") then None else Some "start"
  else if bool_decide (action = "stop") then
    if bool_decide (current_status = "stopped") then None else Some "shutdown"
  else if bool_decide (action = "restart") then
    if bool_decide (current_status = "running") then Some "reboot" else Some "start"
  else None.

(** The action due for [vm] as the cluster reports its state; none when
    the state cannot be read. *)
Definition due_post (w : World) (action : string) (vm : VMIdentifier) : option string :=
  status_current w (proxmox_node vm) (vmid vm) ≫= λ status_data,
    planned_post action (status_of status_data).

(** The requests of one iteration: the status read, then the action due. *)
Definition node_requests (w : World) (action : string) (vm : VMIdentifier) : list Call :=
  CallStatusCurrent (proxmox_node vm) (vmid vm) ::
  match due_post w action vm with
  | Some a => [CallStatusPost (proxmox_node vm) (vmid vm) a]
  | None => []
  end.

(** The cluster rejects the action due for [vm]. *)
Definition post_rejected (w : World) (action : string) (vm : VMIdentifier) : bool :=
  match due_post w action vm with
  | Some a => bool_decide (status_post w (proxmox_node vm) (vmid vm) a = None)
  | None => false
  end.

(** The object as an iteration leaves it: with the state read, if any. *)
Definition refreshed (w : World) (vm : VMIdentifier) : VMIdentifier :=
  match status_current w (proxmox_node vm) (vmid vm) with
  | Some status_data => set_status (status_of status_data) vm
  | None => vm
  end.

(** The loop of [perform_vm_action] on its own. *)
Definition perform_vm_action_loop (action : string) (nodes : list VMIdentifier)
    : M (list VMIdentifier) :=
  for_each (λ done vm, vm' ← perform_vm_action_node action vm; ret (done ++ [vm']))
    [] nodes.

(** The commands that act on the discovered VMs. *)
Definition action_name (cmd : Command) : option string :=
  match cmd with
  | CmdStart => Some "start"
  | CmdStop => Some "stop"
  | CmdRestart => Some "restart"
  | _ => None
  end.


(** ** proxmox_api.py: [get_proxmox_client] on its own *)

(** The connection settings config.py reads from the environment. *)
Record ClientSettings := mkClientSettings {
  PROXMOX_HOST : option string;
  PROXMOX_USER : option string;
  PROXMOX_PASSWORD : option string;
  PROXMOX_TOKEN_ID : option string;
  PROXMOX_TOKEN_SECRET : option string;
  PROXMOX_SSL_VERIFY : bool;
  PROXMOX_PORT : Z;
}.

Inductive Secret :=
| TokenValue (token_value : string)
| Password (password : string).

(** The arguments a [ProxmoxAPI] object is built from. *)
Record ProxmoxAPI := mkProxmoxAPI {
  api_host : string;
  api_user : string;
  api_secret : Secret;
  api_port : Z;
  api_verify_ssl : bool;
}.

(** The module's global client, the connections attempted so far, and
    whether urllib3's insecure-request warnings have been switched off. *)
Record ClientState := mkClientState {
  _proxmox_client : option ProxmoxAPI;
  attempted : list ProxmoxAPI;
  warnings_disabled : bool;
}.

(** [get_proxmox_client].  [connects c] says whether building [c] and the
    version check that follows both succeed; every failure of either ends
    in [ProxmoxError].  Log lines are left out. *)
Definition get_proxmox_client (S : ClientSettings) (connects : ProxmoxAPI → bool)
    (st : ClientState) : Result ProxmoxAPI * ClientState :=
  match _proxmox_client st with
  | Some client => (Ok client, st)
  | None =>
      if negb (Py.truthy_opt (PROXMOX_HOST S)) || negb (Py.truthy_opt (PROXMOX_USER S))
      then (Raise ConfigurationError, st)
      else
        let host := default "" (PROXMOX_HOST S) in
        let user_full := default "" (PROXMOX_USER S) in
        let temp_client :=
          if Py.truthy_opt (PROXMOX_TOKEN_ID S) && Py.truthy_opt (PROXMOX_TOKEN_SECRET S)
          then
            let api_user_string := user_full +:+ "!" +:+ default "" (PROXMOX_TOKEN_ID S) in
            Some (mkProxmoxAPI host api_user_string
                    (TokenValue (default "" (PROXMOX_TOKEN_SECRET S)))
                    (PROXMOX_PORT S) (PROXMOX_SSL_VERIFY S))
          else if Py.truthy_opt (PROXMOX_PASSWORD S)
          then
            Some (mkProxmoxAPI host user_full (Password (default "" (PROXMOX_PASSWORD S)))
                    (PROXMOX_PORT S) (PROXMOX_SSL_VERIFY S))
          else None in
        match temp_client with
        | None => (Raise ConfigurationError, st)
        | Some client =>
            if connects client then
              (Ok client,
               mkClientState (Some client) (attempted st ++ [client])
                 (warnings_disabled st || negb (PROXMOX_SSL_VERIFY S)))
            else
              (Raise ProxmoxError,
               mkClientState None (attempted st ++ [client]) (warnings_disabled st))
        end
  end.

(** Settings that carry a token and a password at once. *)
Definition sample_settings : ClientSettings :=
  mkClientSettings (Some "pve.lan") (Some "root@pam") (Some "secret")
    (Some "deploy") (Some "0000-1111") true 8006.

(** * Properties *)

(** ** The sort key is a total order *)

Section KeyOrder.

Lemma string_ltb_leb (s1 s2 : string) : String.ltb s1 s2 = negb (String.leb s2 s1).
Proof.
  unfold String.ltb, String.leb. rewrite (String.compare_antisym s2 s1).
  by destruct (String.compare s1 s2).
Qed.

Lemma key_le_spec (a b : string * Z) :
  key_le a b ↔ String.le a.1 b.1 ∧ (a.1 = b.1 → a.2 ≤ b.2).
Proof.
  unfold key_le, key_ltb, String.le. case_bool_decide as Heq.
  - rewrite Heq, Z.ltb_ge. split.
    + intros ?. split; [|done]. apply Is_true_true.
      destruct (String.leb_total a.1 a.1); done.
    + intros [_ H]. by apply H.
  - rewrite string_ltb_leb, negb_false_iff. split.
    + intros H. split; [by apply Is_true_true|]. intros Hab. by destruct Heq.
    + intros [H _]. by apply Is_true_true.
Qed.

#[global] Instance key_le_trans : Transitive key_le.
Proof.
  intros a b c [Hab1 Hab2]%key_le_spec [Hbc1 Hbc2]%key_le_spec.
  apply key_le_spec. split; [by etrans|].
  intros Hac. rewrite Hac in Hab1.
  assert (b.1 = c.1) as Hbc by (by apply (anti_symm String.le)).
  specialize (Hbc2 Hbc). rewrite <-Hac in Hbc. specialize (Hab2 (eq_sym Hbc)). lia.
Qed.

#[global] Instance key_le_antisym : AntiSymm (=) key_le.
Proof.
  intros [a1 a2] [b1 b2] [H1 H2]%key_le_spec [H3 H4]%key_le_spec. simpl in *.
  assert (a1 = b1) as -> by (by apply (anti_symm String.le)).
  f_equal. specialize (H2 eq_refl). specialize (H4 eq_refl). lia.
Qed.

#[global] Instance key_le_total : Total key_le.
Proof.
  intros a b. rewrite !key_le_spec.
  destruct (decide (a.1 = b.1)) as [Heq|Hne].
  - rewrite Heq. destruct (Z.le_gt_cases a.2 b.2); [left|right]; split; try done; lia.
  - destruct (total String.le a.1 b.1); [left|right]; split; try done; congruence.
Qed.

Lemma key_lt_le (a b : string * Z) : key_lt a b → key_le a b.
Proof.
  unfold key_lt. intros Hlt. destruct (total key_le a b) as [|Hba]; [done|].
  unfold key_le in Hba. congruence.
Qed.

Lemma key_lt_iff (a b : string * Z) : key_lt a b ↔ key_le a b ∧ a ≠ b.
Proof.
  split.
  - intros Hlt. split; [by apply key_lt_le|]. intros ->.
    assert (key_le b b) as Hbb by (destruct (total key_le b b); done).
    unfold key_lt, key_le in *. congruence.
  - intros [Hle Hne]. unfold key_lt. destruct (key_ltb a b) eqn:Hab; [done|].
    destruct Hne. by apply (anti_symm key_le).
Qed.

End KeyOrder.

(** ** [sorted(..., key=(node, vmid))] *)

Section SortNodes.

Lemma insert_sorted_perm (x : VMIdentifier) l :
  Py.insert_sorted sort_key key_ltb x l ≡ₚ x :: l.
Proof.
  induction l as [|y l IH]; simpl; [done|].
  destruct (key_ltb _ _); [|done]. rewrite IH. apply Permutation_swap.
Qed.

Lemma sort_nodes_perm l : sort_nodes l ≡ₚ l.
Proof.
  induction l as [|x l IH]; simpl; [done|].
  unfold sort_nodes in *. simpl. by rewrite insert_sorted_perm, IH.
Qed.

Lemma insert_sorted_Sorted (x : VMIdentifier) l :
  Sorted vm_le l → Sorted vm_le (Py.insert_sorted sort_key key_ltb x l).
Proof.
  induction 1 as [|y l Hl IH Hhd]; simpl; [repeat constructor|].
  destruct (key_ltb (sort_key y) (sort_key x)) eqn:Hyx.
  - constructor; [done|].
    destruct Hhd as [|z l Hz]; simpl.
    + constructor. by apply key_lt_le.
    + destruct (key_ltb (sort_key z) (sort_key x)); constructor; [done|].
      by apply key_lt_le.
  - constructor; [by constructor|]. constructor. done.
Qed.

Lemma sort_nodes_Sorted l : Sorted vm_le (sort_nodes l).
Proof.
  induction l as [|x l IH]; [constructor|].
  unfold sort_nodes in *. simpl. by apply insert_sorted_Sorted.
Qed.

#[global] Instance vm_le_trans : Transitive vm_le.
Proof. intros a b c. unfold vm_le. apply key_le_trans. Qed.

Lemma sort_nodes_StronglySorted l : StronglySorted vm_le (sort_nodes l).
Proof. apply Sorted_StronglySorted; [apply _|apply sort_nodes_Sorted]. Qed.

(** With distinct keys the order is strict. *)
Lemma sort_nodes_strict l :
  NoDup (sort_key <$> l) → StronglySorted vm_lt (sort_nodes l).
Proof.
  intros Hnd.
  assert (NoDup (sort_key <$> sort_nodes l)) as Hnd'.
  { by rewrite sort_nodes_perm. }
  pose proof (sort_nodes_StronglySorted l) as Hs.
  induction Hs as [|x l' Hs IH Hall]; [constructor|].
  rewrite fmap_cons in Hnd'. apply NoDup_cons in Hnd' as [Hnotin Hnd'].
  constructor; [by apply IH|].
  apply Forall_forall. intros y Hy. apply key_lt_iff. split.
  - rewrite Forall_forall in Hall. by apply Hall.
  - intros Heq. apply Hnotin. rewrite Heq. by apply list_elem_of_fmap_2.
Qed.

Lemma NoDup_fmap_eq {A B} (f : A → B) (l : list A) x y :
  NoDup (f <$> l) → x ∈ l → y ∈ l → f x = f y → x = y.
Proof.
  induction l as [|z l IH]; intros Hnd Hx Hy Hf; [by inv Hx|].
  rewrite fmap_cons in Hnd. apply NoDup_cons in Hnd as [Hz Hnd].
  inv Hx; inv Hy; try done.
  - destruct Hz. rewrite Hf. by apply list_elem_of_fmap_2.
  - destruct Hz. rewrite <-Hf. by apply list_elem_of_fmap_2.
  - by apply IH.
Qed.

(** Two orderings of one set of distinct VMs sort to the same list. *)
Lemma sort_nodes_unique l1 l2 :
  NoDup (sort_key <$> l1) → l1 ≡ₚ l2 → sort_nodes l1 = sort_nodes l2.
Proof.
  intros Hnd Hp.
  apply (StronglySorted_unique_strong vm_le);
    [|apply sort_nodes_StronglySorted..|by rewrite !sort_nodes_perm].
  intros x1 x2 Hx1 Hx2 H12 H21.
  apply (NoDup_fmap_eq sort_key l1); [done|..].
  - by rewrite <-(sort_nodes_perm l1).
  - by rewrite Hp, <-(sort_nodes_perm l2).
  - by apply (anti_symm key_le).
Qed.


End SortNodes.

(** ** Deterministic ordering and master selection *)

Section Populate.

Lemma populate_fields (m : Manager) :
  servers (_populate_node_lists m) = sort_nodes (servers m) ∧
  agents (_populate_node_lists m) = sort_nodes (agents m) ∧
  storage (_populate_node_lists m) = sort_nodes (storage m) ∧
  all_nodes (_populate_node_lists m) = sort_nodes (all_nodes m) ∧
  server_master (_populate_node_lists m) = head (sort_nodes (servers m)) ∧
  servers_no_first (_populate_node_lists m) = tail (sort_nodes (servers m)).
Proof.
  unfold _populate_node_lists. destruct (sort_nodes (servers m)) eqn:Hs; simpl;
    rewrite ?Hs; done.
Qed.

Lemma sort_nodes_nil_iff l : sort_nodes l = [] ↔ l = [].
Proof.
  split; [|by intros ->]. intros H.
  apply Permutation_nil. by rewrite <-(sort_nodes_perm l), H.
Qed.

End Populate.

(** C6.  For VMs with distinct (host-node, VM id) pairs, populating the node
    lists leaves every role list a rearrangement of itself that is strictly
    ascending in (host-node, VM id); the master is the first sorted server,
    absent exactly when there is no server; the non-master servers are the
    rest of the sorted server list; and any other ordering of the same
    servers yields the same master and the same remaining servers. *)
Theorem populate_node_lists_sorted_master (m : Manager) :
  NoDup (sort_key <$> all_nodes m) →
  NoDup (sort_key <$> servers m) →
  NoDup (sort_key <$> agents m) →
  NoDup (sort_key <$> storage m) →
  let m' := _populate_node_lists m in
  (StronglySorted vm_lt (all_nodes m') ∧ all_nodes m' ≡ₚ all_nodes m) ∧
  (StronglySorted vm_lt (servers m') ∧ servers m' ≡ₚ servers m) ∧
  (StronglySorted vm_lt (agents m') ∧ agents m' ≡ₚ agents m) ∧
  (StronglySorted vm_lt (storage m') ∧ storage m' ≡ₚ storage m) ∧
  server_master m' = head (servers m') ∧
  (server_master m' = None ↔ servers m = []) ∧
  servers_no_first m' = tail (servers m') ∧
  (∀ m2, servers m2 ≡ₚ servers m →
         server_master (_populate_node_lists m2) = server_master m' ∧
         servers_no_first (_populate_node_lists m2) = servers_no_first m').
Proof.
  intros Hall Hsrv Hagt Hsto m'. subst m'.
  destruct (populate_fields m) as (-> & -> & -> & -> & -> & ->).
  repeat split; try (by apply sort_nodes_strict); try apply sort_nodes_perm.
  - intros Hhd. apply sort_nodes_nil_iff. by destruct (sort_nodes (servers m)).
  - intros ->. done.
  - destruct (populate_fields m2) as (_ & _ & _ & _ & -> & _).
    f_equal. symmetry. by apply sort_nodes_unique.
  - destruct (populate_fields m2) as (_ & _ & _ & _ & _ & ->).
    f_equal. symmetry. by apply sort_nodes_unique.
Qed.

Lemma populate_node_lists_sorted_master_witness :
  server_master (_populate_node_lists demo_manager) = Some vm_a ∧
  servers_no_first (_populate_node_lists demo_manager) = [vm_b].
Proof.
  assert (∀ l : list VMIdentifier,
            bool_decide (NoDup (sort_key <$> l)) = true → NoDup (sort_key <$> l)) as Hnd.
  { intros l. apply bool_decide_eq_true_1. }
  destruct (populate_node_lists_sorted_master demo_manager)
    as (_ & _ & _ & _ & Hmaster & _ & Hrest & _);
    [apply Hnd; vm_compute; reflexivity..|].
  split; [rewrite Hmaster | rewrite Hrest]; vm_compute; reflexivity.
Defined.

(** ** Lifecycle transitions *)

(** C7.  For a node whose status fetch succeeds, one iteration of the
    lifecycle loop posts: nothing for start on a running VM and a start on
    any other status; nothing for stop on a stopped VM and a shutdown on any
    other status; a reboot for restart on a running VM and a start on any
    other status. *)
Theorem perform_vm_action_node_table (vm : VMIdentifier) (w : World)
    (status_data : gmap string string) :
  status_current w (proxmox_node vm) (vmid vm) = Some status_data →
  let current_status := status_of status_data in
  let issued action :=
    posted (calls_since w (perform_vm_action_node action vm w).2) in
  let post a := [(proxmox_node vm, vmid vm, a)] in
  (current_status = "running" → issued "start" = []) ∧
  (current_status ≠ "running" → issued "start" = post "start") ∧
  (current_status = "stopped" → issued "stop" = []) ∧
  (current_status ≠ "stopped" → issued "stop" = post "shutdown") ∧
  (current_status = "running" → issued "restart" = post "reboot") ∧
  (current_status ≠ "running" → issued "restart" = post "start").
Proof.
  intros Hst current_status issued post. subst issued post. simpl.
  unfold perform_vm_action_node. run. rewrite Hst. simpl.
  fold current_status.
  repeat split; intros Hcur;
    rewrite ?Hcur, ?(bool_decide_eq_false_2 _ Hcur), ?(bool_decide_eq_true_2 _ Hcur);
    simpl; try destruct (status_post _ _ _ _); simpl; by since.
Qed.

Lemma perform_vm_action_node_table_witness :
  posted (calls_since (demo_world demo_store)
            (perform_vm_action_node "restart" vm_a (demo_world demo_store)).2)
  = [("pve1", 100, "reboot")].
Proof.
  destruct (perform_vm_action_node_table vm_a (demo_world demo_store)
              {["status" := "running"]} eq_refl) as (_ & _ & _ & _ & Hreboot & _).
  apply Hreboot. vm_compute. reflexivity.
Defined.

(** The spec's scenario: restart on a stopped VM posts a start. *)
Example restart_on_stopped_posts_start (w : World) :
  status_current w "pve1" 100 = Some {["status" := "stopped"]} →
  posted (calls_since w (perform_vm_action_node "restart" vm_a w).2)
  = [("pve1", 100, "start")].
Proof.
  intros Hst. unfold perform_vm_action_node. run. rewrite Hst. simpl.
  change (status_of {["status" := "stopped"]}) with "stopped".
  rewrite bool_decide_eq_true_2 by done. simpl.
  destruct (status_post w "pve1" 100 "start"); simpl; by since.
Qed.

(** ** One convergence step *)

Section Step.
Context (E : AppConfig) (restart_after force : bool) (ssh_key : option string)
        (ip_range_end_int : Z).

Lemma same_remote_refl w : same_remote w w.
Proof. by repeat split. Qed.

Lemma same_remote_trans w1 w2 w3 :
  same_remote w1 w2 → same_remote w2 w3 → same_remote w1 w3.
Proof.
  unfold same_remote. intros (?&?&?&?&?&?&?&?) (?&?&?&?&?&?&?&?).
  repeat split; congruence.
Qed.

(** What one iteration does, by the branch it takes. *)
Lemma configure_node_obj_spec (st : LoopState) (vm : VMIdentifier) (w : World) :
  ∃ st' vm' w',
    configure_node_obj E restart_after force ssh_key ip_range_end_int st vm w
      = (Ok (st', vm'), w') ∧
    same_remote w w' ∧ sort_key vm' = sort_key vm ∧
    match observed_config E vm w with
    | None =>
        st' = st ∧ vm_store w' = vm_store w ∧ written (calls_since w w') = []
    | Some c =>
        if next_ip_to_assign_int st >? ip_range_end_int then
          st' = st ∧ vm_store w' = vm_store w ∧ written (calls_since w w') = []
        else if negb (needs_update E force (next_ip_to_assign_int st) c) then
          st' = advance st ∧ vm_store w' = vm_store w ∧
          written (calls_since w w') = []
        else
          let params := target_params E ssh_key (next_ip_to_assign_int st) in
          written (calls_since w w') = [(proxmox_node vm, vmid vm, params)] ∧
          next_ip_to_assign_int st' = next_ip_to_assign_int st + 1 ∧
          match (if config_put_fails w (proxmox_node vm) (vmid vm) then None
                 else vm_store w !! sort_key vm) with
          | None =>
              vm_store w' = vm_store w ∧
              modified_vms st' = modified_vms st ∧
              running_modified_vms st' = running_modified_vms st
          | Some stored =>
              vm_store w' = <[sort_key vm := params ∪ stored]> (vm_store w) ∧
              ∃ vm', sort_key vm' = sort_key vm ∧ config vm' = c ∧
                modified_vms st' = modified_vms st ++ [vm'] ∧
                running_modified_vms st' =
                  running_modified_vms st ++
                    (if bool_decide (status vm' = Some "running") then [vm'] else [])
          end
    end.
Proof.
  unfold configure_node_obj, observed_config, remote_config, target_params, sort_key. run.
  destruct (status_current w (proxmox_node vm) (vmid vm)) as [status_data|]; simpl.
  all: destruct (bool_decide (config vm = ∅) || bool_decide (config vm !! ipconfig_key E = None));
    simpl.
  all: try (destruct (config_get_fails w (proxmox_node vm) (vmid vm)); simpl;
            [| destruct (vm_store w !! (proxmox_node vm, vmid vm)) as [c|] eqn:Hc; simpl]).
  all: try (eexists _, _, _; split; [reflexivity|]; split; [by repeat split|];
            split; [reflexivity|]; repeat split; by since).
  all: destruct (next_ip_to_assign_int st >? ip_range_end_int); simpl.
  all: try (eexists _, _, _; split; [reflexivity|]; split; [by repeat split|];
            split; [reflexivity|]; repeat split; by since).
  all: destruct (needs_update E force _ _); simpl.
  all: try (eexists _, _, _; split; [reflexivity|]; split; [by repeat split|];
            split; [reflexivity|]; repeat split; by since).
  all: destruct (config_put_fails w (proxmox_node vm) (vmid vm)); simpl.
  all: try (eexists _, _, _; split; [reflexivity|]; split; [by repeat split|];
            split; [reflexivity|]; repeat split; by since).
  all: try rewrite Hc; simpl.
  all: try (destruct (vm_store w !! (proxmox_node vm, vmid vm)) as [stored|]; simpl).
  all: try (eexists _, _, _; split; [reflexivity|]; split; [by repeat split|];
            split; [reflexivity|]; repeat split; by since).
  all: simplify_eq.
  all: try match goal with |- context [bool_decide (Some ?s = Some "running")] =>
         destruct (bool_decide (Some s = Some "running")) eqn:Hrun end; simpl.
  all: destruct restart_after; simpl.
  all: eexists _, _, _; split; [reflexivity|]; split; [by repeat split|].
  all: split; [reflexivity|].
  all: split; [by since|]; split; [done|]; split; [done|].
  all: eexists; split_and!; cycle 2;
    [reflexivity
    |simpl; rewrite ?Hrun; simpl; rewrite <-?app_assoc; try done
    |reflexivity..].
  all: by rewrite app_nil_r.
Qed.

Lemma configure_node_spec (st : LoopState) (vm : VMIdentifier) (w : World) :
  ∃ st' w',
    configure_node E restart_after force ssh_key ip_range_end_int st vm w = (Ok st', w') ∧
    same_remote w w' ∧
    match observed_config E vm w with
    | None =>
        st' = st ∧ vm_store w' = vm_store w ∧ written (calls_since w w') = []
    | Some c =>
        if next_ip_to_assign_int st >? ip_range_end_int then
          st' = st ∧ vm_store w' = vm_store w ∧ written (calls_since w w') = []
        else if negb (needs_update E force (next_ip_to_assign_int st) c) then
          st' = advance st ∧ vm_store w' = vm_store w ∧
          written (calls_since w w') = []
        else
          let params := target_params E ssh_key (next_ip_to_assign_int st) in
          written (calls_since w w') = [(proxmox_node vm, vmid vm, params)] ∧
          next_ip_to_assign_int st' = next_ip_to_assign_int st + 1 ∧
          match (if config_put_fails w (proxmox_node vm) (vmid vm) then None
                 else vm_store w !! sort_key vm) with
          | None =>
              vm_store w' = vm_store w ∧
              modified_vms st' = modified_vms st ∧
              running_modified_vms st' = running_modified_vms st
          | Some stored =>
              vm_store w' = <[sort_key vm := params ∪ stored]> (vm_store w) ∧
              ∃ vm', sort_key vm' = sort_key vm ∧ config vm' = c ∧
                modified_vms st' = modified_vms st ++ [vm'] ∧
                running_modified_vms st' =
                  running_modified_vms st ++
                    (if bool_decide (status vm' = Some "running") then [vm'] else [])
          end
    end.
Proof.
  destruct (configure_node_obj_spec st vm w) as (st' & vm' & w' & Hrun & Hsame & _ & Hspec).
  exists st', w'. split; [|done].
  unfold configure_node, fmap, M_fmap. by rewrite Hrun.
Qed.
End Step.

(** ** The address cursor *)

Section Cursor.
Context (E : AppConfig) (restart_after force : bool) (ssh_key : option string)
        (ip_range_end_int : Z).

(** A node either consumes one address or none. *)
Lemma configure_node_cursor (st : LoopState) (vm : VMIdentifier) (w : World) :
  ∃ st' w',
    configure_node E restart_after force ssh_key ip_range_end_int st vm w = (Ok st', w') ∧
    same_remote w w' ∧
    dom (vm_store w') = dom (vm_store w) ∧
    next_ip_to_assign_int st' =
      if bool_decide (is_Some (observed_config E vm w))
         && (next_ip_to_assign_int st <=? ip_range_end_int)
      then next_ip_to_assign_int st + 1 else next_ip_to_assign_int st.
Proof.
  destruct (configure_node_spec E restart_after force ssh_key ip_range_end_int st vm w)
    as (st' & w' & Hrun & Hsame & Hspec).
  exists st', w'. split; [done|]. split; [done|].
  destruct (observed_config E vm w) as [c|].
  - rewrite bool_decide_eq_true_2 by eauto. simpl.
    rewrite Z.gtb_ltb in Hspec. rewrite Z.leb_antisym.
    destruct (ip_range_end_int <? next_ip_to_assign_int st); simpl.
    { destruct Hspec as (-> & -> & _). done. }
    destruct (needs_update E force _ c); simpl in Hspec.
    + destruct Hspec as (_ & Hnext & Hput). split; [|done].
      destruct (config_put_fails w _ _); [by destruct Hput as (-> & _)|].
      destruct (vm_store w !! sort_key vm) eqn:Hk; [|by destruct Hput as (-> & _)].
      destruct Hput as (-> & _). apply dom_insert_lookup_L. by rewrite Hk.
    + destruct Hspec as (-> & -> & _). done.
  - rewrite bool_decide_eq_false_2 by apply is_Some_None. simpl.
    destruct Hspec as (-> & -> & _). done.
Qed.

(** Whether a node's attribute map can be had does not change as other
    nodes are processed. *)
Lemma observed_config_is_Some (vm : VMIdentifier) (w w' : World) :
  same_remote w w' → dom (vm_store w') = dom (vm_store w) →
  is_Some (observed_config E vm w') ↔ is_Some (observed_config E vm w).
Proof.
  intros (_ & _ & Hget & _) Hdom. unfold observed_config, remote_config.
  rewrite Hget. destruct (_ || _); [|done].
  destruct (config_get_fails w _ _); [done|].
  by rewrite <-!elem_of_dom, Hdom.
Qed.

Lemma configure_loop_cursor (nodes : list VMIdentifier) (st : LoopState) (w : World) :
  Forall (λ vm, is_Some (observed_config E vm w)) nodes →
  next_ip_to_assign_int st + Z.of_nat (length nodes) - 1 ≤ ip_range_end_int →
  ∃ st' w',
    configure_loop E restart_after force ssh_key ip_range_end_int st nodes w = (Ok st', w') ∧
    next_ip_to_assign_int st' = next_ip_to_assign_int st + Z.of_nat (length nodes).
Proof.
  revert st w. induction nodes as [|vm nodes IH]; intros st w Hall Hroom.
  { exists st, w. split; [done|]. simpl. lia. }
  apply Forall_cons in Hall as [Hvm Hall]. simpl in Hroom.
  destruct (configure_node_cursor st vm w) as (st1 & w1 & Hrun & Hsame & Hdom & Hnext).
  rewrite bool_decide_eq_true_2 in Hnext by done.
  rewrite (proj2 (Z.leb_le _ _)) in Hnext by lia. simpl in Hnext.
  destruct (IH st1 w1) as (st' & w' & Hloop & Hfinal).
  - eapply Forall_impl; [exact Hall|]. intros vm' Hvm'. simpl.
    by apply (observed_config_is_Some vm' w w1).
  - lia.
  - exists st', w'. split; [|rewrite Hfinal, Hnext; simpl; lia].
    unfold configure_loop in *. simpl. unfold mbind, M_bind. by rewrite Hrun.
Qed.

End Cursor.

(** C2, as the code has it.  A node consumes exactly one address on the
    idempotent skip, on a successful write and on a failed write alike; it
    consumes none when its attribute map cannot be fetched or when the range
    is exhausted.  Hence N nodes whose attribute maps are available, in a
    range with room for all of them, leave the cursor at start plus N. *)
Theorem cursor_advances_once_per_configured_node
    (E : AppConfig) (restart_after force : bool) (ssh_key : option string)
    (ip_range_end_int : Z) :
  (∀ st vm w, ∃ st' w',
      configure_node E restart_after force ssh_key ip_range_end_int st vm w = (Ok st', w') ∧
      next_ip_to_assign_int st' =
        if bool_decide (is_Some (observed_config E vm w))
           && (next_ip_to_assign_int st <=? ip_range_end_int)
        then next_ip_to_assign_int st + 1 else next_ip_to_assign_int st) ∧
  (∀ nodes st w,
      Forall (λ vm, is_Some (observed_config E vm w)) nodes →
      next_ip_to_assign_int st + Z.of_nat (length nodes) - 1 ≤ ip_range_end_int →
      ∃ st' w',
        configure_loop E restart_after force ssh_key ip_range_end_int st nodes w
          = (Ok st', w') ∧
        next_ip_to_assign_int st' = next_ip_to_assign_int st + Z.of_nat (length nodes)).
Proof.
  split.
  - intros st vm w.
    destruct (configure_node_cursor E restart_after force ssh_key ip_range_end_int st vm w)
      as (st' & w' & Hrun & _ & _ & Hnext).
    by exists st', w'.
  - intros nodes st w. apply configure_loop_cursor.
Qed.

Lemma cursor_advances_once_per_configured_node_witness :
  ∃ st' w',
    configure_loop default_config false false None range_end
      (mkLoop range_start [] []) [vm_a; vm_b] (demo_world demo_store) = (Ok st', w') ∧
    next_ip_to_assign_int st' = range_start + 2.
Proof.
  destruct (cursor_advances_once_per_configured_node default_config false false None
              range_end) as [_ Hloop].
  apply (Hloop [vm_a; vm_b] (mkLoop range_start [] []) (demo_world demo_store)).
  - repeat constructor; vm_compute; eauto.
  - vm_compute. discriminate.
Defined.

(** C2 as stated fails: a node whose attribute map cannot be fetched is
    visited inside the range and leaves the cursor where it was. *)
Lemma cursor_stalls_when_config_fetch_fails :
  ¬ (∀ E restart_after force ssh_key ip_range_end_int st vm w st' w',
        configure_node E restart_after force ssh_key ip_range_end_int st vm w = (Ok st', w') →
        next_ip_to_assign_int st ≤ ip_range_end_int →
        next_ip_to_assign_int st' = next_ip_to_assign_int st + 1).
Proof.
  intros Hclaim.
  pose (w := with_failures true false (demo_world demo_store)).
  destruct (configure_node_spec default_config false false None range_end
              (mkLoop range_start [] []) vm_a w) as (st' & w' & Hrun & _ & Hspec).
  specialize (Hclaim _ _ _ _ _ _ _ _ _ _ Hrun).
  change (observed_config default_config vm_a w) with (@None (gmap string string)) in Hspec.
  destruct Hspec as (-> & _). simpl in Hclaim.
  assert (range_start ≤ range_end) as Hle by (vm_compute; discriminate).
  specialize (Hclaim Hle). lia.
Qed.

(** ** The idempotency check *)

Lemma needs_update_iff (E : AppConfig) (force : bool) (next_ip : Z)
    (c : gmap string string) :
  needs_update E force next_ip c = true ↔
    force = true ∨
    default "" (c !! ipconfig_key E) ≠ target_ipconfig_value E next_ip ∨
    (target_nameserver_value E ≠ "" ∧
     default "" (c !! "nameserver") ≠ target_nameserver_value E) ∨
    (∃ target, K3S_NODE_SEARCH_DOMAIN E = Some target ∧ target ≠ "" ∧
               default "" (c !! "searchdomain") ≠ target).
Proof.
  unfold needs_update. destruct force; simpl; [naive_solver|].
  unfold Py.neq, Py.truthy.
  destruct (K3S_NODE_SEARCH_DOMAIN E) as [target|];
    repeat case_bool_decide; simpl; naive_solver.
Qed.

(** C4.  For a node that reaches the idempotency check (its attribute map
    [c] is at hand and the cursor is inside the range): needs-update holds
    exactly when force is set, or the stored network-config string differs
    from the target, or the target nameserver string is non-empty and
    differs from the stored one, or the target search domain is non-empty
    and differs from the stored one.  When it does not hold, nothing is
    written and the ledger is unchanged.  With force set the node is written
    whatever its attribute map, and when that write succeeds the node is
    appended to the ledger. *)
Theorem needs_update_decides_write
    (E : AppConfig) (restart_after force : bool) (ssh_key : option string)
    (ip_range_end_int : Z) (st : LoopState) (vm : VMIdentifier) (w : World)
    (c : gmap string string) :
  observed_config E vm w = Some c →
  next_ip_to_assign_int st ≤ ip_range_end_int →
  let next_ip := next_ip_to_assign_int st in
  (needs_update E force next_ip c = true ↔
     force = true ∨
     default "" (c !! ipconfig_key E) ≠ target_ipconfig_value E next_ip ∨
     (target_nameserver_value E ≠ "" ∧
      default "" (c !! "nameserver") ≠ target_nameserver_value E) ∨
     (∃ target, K3S_NODE_SEARCH_DOMAIN E = Some target ∧ target ≠ "" ∧
                default "" (c !! "searchdomain") ≠ target)) ∧
  ∃ st' w',
    configure_node E restart_after force ssh_key ip_range_end_int st vm w = (Ok st', w') ∧
    (needs_update E force next_ip c = false →
       written (calls_since w w') = [] ∧ vm_store w' = vm_store w ∧
       modified_vms st' = modified_vms st ∧
       running_modified_vms st' = running_modified_vms st) ∧
    (force = true →
       written (calls_since w w')
         = [(proxmox_node vm, vmid vm, target_params E ssh_key next_ip)] ∧
       (config_put_fails w (proxmox_node vm) (vmid vm) = false →
        is_Some (vm_store w !! sort_key vm) →
        ∃ vm', sort_key vm' = sort_key vm ∧
               modified_vms st' = modified_vms st ++ [vm'])).
Proof.
  intros Hobs Hroom next_ip. split; [apply needs_update_iff|].
  destruct (configure_node_spec E restart_after force ssh_key ip_range_end_int st vm w)
    as (st' & w' & Hrun & _ & Hspec).
  exists st', w'. split; [done|].
  rewrite Hobs in Hspec.
  rewrite Z.gtb_ltb, (proj2 (Z.ltb_ge _ _)) in Hspec by done.
  fold next_ip in Hspec. split.
  - intros Hno. rewrite Hno in Hspec. simpl in Hspec.
    destruct Hspec as (-> & -> & ->). done.
  - intros ->. simpl in Hspec. destruct Hspec as (Hw & _ & Hput).
    split; [done|]. intros Hok [stored Hstored].
    rewrite Hok, Hstored in Hput. destruct Hput as (_ & vm' & Hk & _ & Hm & _).
    by exists vm'.
Qed.

Lemma needs_update_decides_write_witness :
  ∃ st' w',
    configure_node default_config false true None range_end
      (mkLoop range_start [] []) vm_a (demo_world demo_store) = (Ok st', w') ∧
    ∃ vm', sort_key vm' = ("pve1", 100) ∧ modified_vms st' = [vm'].
Proof.
  destruct (needs_update_decides_write default_config false true None range_end
              (mkLoop range_start [] []) vm_a (demo_world demo_store)
              {["tags" := "k3s-server"]})
    as (_ & st' & w' & Hrun & _ & Hforce).
  - vm_compute. reflexivity.
  - vm_compute. discriminate.
  - exists st', w'. split; [exact Hrun|].
    destruct (Hforce eq_refl) as (_ & Hledger).
    apply Hledger; [reflexivity|]. vm_compute. eauto.
Defined.

(** ** A second pass finds nothing to do *)

Section Idempotence.
Context (E : AppConfig).

Lemma ipconfig_key_head : ∃ rest, ipconfig_key E = String "i" rest.
Proof. unfold ipconfig_key. eexists. reflexivity. Qed.

Lemma ipconfig_key_ne (k : string) :
  k = "nameserver" ∨ k = "searchdomain" ∨ k = "sshkeys" → ipconfig_key E ≠ k.
Proof.
  destruct ipconfig_key_head as [rest ->]. intros [->|[->| ->]]; discriminate.
Qed.

Lemma params_lookup_ipconfig ip ns sd ssh :
  params_to_set E ip ns sd ssh !! ipconfig_key E = Some ip.
Proof.
  unfold params_to_set.
  repeat match goal with
         | |- context [match ?o with Some _ => _ | None => _ end] => destruct o
         | |- context [if Py.truthy ?s then _ else _] => destruct (Py.truthy s)
         end;
    rewrite ?lookup_insert_ne by (apply not_eq_sym, ipconfig_key_ne; auto);
    by rewrite lookup_insert_eq.
Qed.

Lemma params_lookup_nameserver ip ns sd ssh :
  Py.truthy ns = true →
  params_to_set E ip (Some ns) sd ssh !! "nameserver" = Some ns.
Proof.
  intros Hns. unfold params_to_set. rewrite Hns.
  repeat match goal with
         | |- context [match ?o with Some _ => _ | None => _ end] => destruct o
         | |- context [if Py.truthy ?s then _ else _] => destruct (Py.truthy s)
         end;
    rewrite ?lookup_insert_ne by done; by rewrite lookup_insert_eq.
Qed.

Lemma params_lookup_searchdomain ip ns sd ssh :
  Py.truthy sd = true →
  params_to_set E ip ns (Some sd) ssh !! "searchdomain" = Some sd.
Proof.
  intros Hsd. unfold params_to_set. rewrite Hsd.
  repeat match goal with
         | |- context [match ?o with Some _ => _ | None => _ end] => destruct o
         | |- context [if Py.truthy ?s then _ else _] => destruct (Py.truthy s)
         end;
    rewrite ?lookup_insert_ne by done; by rewrite lookup_insert_eq.
Qed.



Lemma remote_config_same (w w' : World) (k : string * Z) :
  same_remote w w' → vm_store w' !! k = vm_store w !! k →
  remote_config w' k = remote_config w k.
Proof. intros (_ & _ & Hget & _) Hk. unfold remote_config. by rewrite Hget, Hk. Qed.

Lemma up_to_date_same (w w' : World) (vm : VMIdentifier) :
  same_remote w w' → vm_store w' !! sort_key vm = vm_store w !! sort_key vm →
  up_to_date w vm → up_to_date w' vm.
Proof.
  intros Hsame Hk [?|Hr]; [by left|right]. by rewrite (remote_config_same w w').
Qed.



Section Pass.
Context (restart_after : bool) (ssh_key : option string) (ip_range_end_int : Z).

(** An iteration touches the stored configuration of its own VM only. *)
Lemma configure_node_frame force st vm w st' w' (k : string * Z) :
  configure_node E restart_after force ssh_key ip_range_end_int st vm w = (Ok st', w') →
  k ≠ sort_key vm → vm_store w' !! k = vm_store w !! k.
Proof.
  intros Hrun Hk.
  destruct (configure_node_spec E restart_after force ssh_key ip_range_end_int st vm w)
    as (st0 & w0 & Hrun0 & _ & Hspec).
  rewrite Hrun in Hrun0. simplify_eq.
  destruct (observed_config E vm w); [|by destruct Hspec as (_ & -> & _)].
  destruct (_ >? _); [by destruct Hspec as (_ & -> & _)|].
  destruct (negb _); [by destruct Hspec as (_ & -> & _)|].
  destruct Hspec as (_ & _ & Hput).
  destruct (if config_put_fails w _ _ then _ else _);
    destruct Hput as (-> & _); [|done].
  by rewrite lookup_insert_ne.
Qed.

Lemma configure_loop_total force nodes st w :
  ∃ st' w',
    configure_loop E restart_after force ssh_key ip_range_end_int st nodes w = (Ok st', w') ∧
    same_remote w w' ∧
    ∀ k, k ∉ sort_key <$> nodes → vm_store w' !! k = vm_store w !! k.
Proof.
  revert st w. induction nodes as [|vm nodes IH]; intros st w.
  { exists st, w. split; [done|]. split; [apply same_remote_refl|done]. }
  destruct (configure_node_spec E restart_after force ssh_key ip_range_end_int st vm w)
    as (st1 & w1 & Hrun & Hsame & _).
  destruct (IH st1 w1) as (st' & w' & Hloop & Hsame' & Hframe).
  exists st', w'. split; [|split].
  - unfold configure_loop in *. simpl. unfold mbind, M_bind. by rewrite Hrun.
  - by eapply same_remote_trans.
  - intros k Hk. rewrite fmap_cons, not_elem_of_cons in Hk. destruct Hk as [Hne Hk].
    rewrite (Hframe k Hk). by eapply configure_node_frame.
Qed.
End Pass.

End Idempotence.

Section SecondPass.
Context (E : AppConfig) (ip_range_end_int : Z).


End SecondPass.

(** ** The loop and the objects it leaves *)

Section LoopObjects.
Context (E : AppConfig) (restart_after force : bool) (ssh_key : option string)
        (ip_range_end_int : Z).

(** The loop with its objects runs as the loop followed in its variables
    does, and leaves one object per node, for the same VM. *)
Lemma configure_loop_obj_run (nodes : list VMIdentifier) :
  ∀ (st : LoopState) (seen : list VMIdentifier) (w : World),
  ∃ st' seen' w',
    configure_loop_obj E restart_after force ssh_key ip_range_end_int (st, seen) nodes w
      = (Ok (st', seen ++ seen'), w') ∧
    configure_loop E restart_after force ssh_key ip_range_end_int st nodes w
      = (Ok st', w') ∧
    sort_key <$> seen' = sort_key <$> nodes.
Proof.
  induction nodes as [|vm nodes IH]; intros st seen w.
  { exists st, [], w. by rewrite app_nil_r. }
  destruct (configure_node_obj_spec E restart_after force ssh_key ip_range_end_int st vm w)
    as (st1 & vm1 & w1 & Hrun & _ & Hkey & _).
  destruct (IH st1 (seen ++ [vm1]) w1) as (st' & seen' & w' & Hobj & Hloop & Hkeys).
  exists st', (vm1 :: seen'), w'. split; [|split].
  - unfold configure_loop_obj in *. simpl. unfold mbind, M_bind at 1.
    unfold mbind, M_bind at 1. rewrite Hrun. simpl.
    etrans; [exact Hobj|]. by rewrite <-app_assoc.
  - unfold configure_loop in *. simpl. unfold mbind, M_bind at 1.
    unfold configure_node at 1. unfold fmap, M_fmap. by rewrite Hrun.
  - rewrite !fmap_cons. by rewrite Hkey, Hkeys.
Qed.
End LoopObjects.

(** ** The whole convergence operation, run twice *)

Section TwoRuns.
Context (E : AppConfig).

Lemma same_remote_sym w w' : same_remote w w' → same_remote w' w.
Proof. unfold same_remote. intros (?&?&?&?&?&?&?&?). by repeat split. Qed.

(** Key resolution reads the configuration and the two files, and only
    ever writes to the log. *)
Lemma get_ssh_public_key_world (w : World) :
  same_remote w (_get_ssh_public_key E w).2 ∧
  vm_store (_get_ssh_public_key E w).2 = vm_store w ∧
  calls (_get_ssh_public_key E w).2 = calls w.
Proof.
  unfold _get_ssh_public_key. run.
  destruct (Py.truthy_opt (SSH_PUBLIC_KEY E)); [by repeat split|].
  destruct (node_config_file w) as [| | | |data]; simpl.
  1-3: destruct (ssh_public_key_file w) as [| |content]; simpl;
    try destruct (Py.truthy (Py.strip content)); by repeat split.
  { by repeat split. }
  destruct (Js.has_ssh_key data) as [[|]|e]; simpl; [| |by repeat split].
  - destruct (Js.ssh_key_item data) as [[| | |s| |]|e]; by repeat split.
  - destruct (ssh_public_key_file w) as [| |content]; simpl;
      try destruct (Py.truthy (Py.strip content)); by repeat split.
Qed.


(** An action outside [valid_actions] is refused before anything is sent. *)
Lemma control_vm_invalid node_name vmid action (w : World) :
  action ∉ valid_actions → control_vm node_name vmid action w = (Raise ValueError, w).
Proof. intros Hbad. unfold control_vm. by rewrite bool_decide_eq_true_2. Qed.

Lemma restart_not_valid : "restart" ∉ valid_actions.
Proof.
  unfold valid_actions. rewrite !not_elem_of_cons.
  repeat split; try discriminate. apply not_elem_of_nil.
Qed.

Lemma restart_modified_raises vm vms (w : World) :
  restart_modified (vm :: vms) w = (Raise ValueError, w).
Proof.
  unfold restart_modified, restart_node. simpl.
  unfold mbind, M_bind, except_ProxmoxError.
  by rewrite (control_vm_invalid _ _ _ _ restart_not_valid).
Qed.



End TwoRuns.




(** The spec's scenario on the way: the first run writes both nodes, in
    sort order, with consecutive addresses. *)
Example first_run_assigns_in_order :
  (λ '(n, v, p), (n, v, p !! "ipconfig0")) <$>
    written (calls (configure_nodes default_config false false [vm_b; vm_a]
                      (demo_world demo_store)).2)
  = [("pve1", 100, Some "ip=10.10.0.201/24,gw=10.10.0.1");
     ("pve1", 101, Some "ip=10.10.0.202/24,gw=10.10.0.1")].
Proof. vm_compute. reflexivity. Qed.

(** ** Restarting after a pass *)

(** C1, on the code.  The restart loop asks [control_vm] for the action
    "restart", which is not one of its valid actions: the first VM of a
    non-empty ledger raises [ValueError], which the loop's handler for
    [ProxmoxError] does not catch, so nothing is posted, nothing is logged
    and the loop ends there.  On the sample cluster a pass with
    [restart_after] set writes its node and then ends in [ValueError]
    without having posted any power action. *)
Theorem restart_after_raises_ValueError :
  (∀ node_name vmid w, control_vm node_name vmid "restart" w = (Raise ValueError, w)) ∧
  (∀ vm vms w, restart_modified (vm :: vms) w = (Raise ValueError, w)) ∧
  (configure_nodes default_config true false [vm_a] (demo_world demo_store)).1
    = Raise ValueError ∧
  (written (calls (configure_nodes default_config true false [vm_a]
                     (demo_world demo_store)).2)).*1 = [("pve1", 100)] ∧
  posted (calls (configure_nodes default_config true false [vm_a]
                   (demo_world demo_store)).2) = [].
Proof.
  split; [intros; apply control_vm_invalid, restart_not_valid|].
  split; [apply restart_modified_raises|].
  vm_compute. done.
Qed.

(** ** Skipped entries of the node list file *)

Section Loader.
Context (E : AppConfig).

Lemma load_vm_no_vmid_zero proxmox_node_id acc vm_info acc' :
  load_vm E proxmox_node_id acc vm_info = Ok acc' →
  no_vmid_zero acc → no_vmid_zero acc'.
Proof.
  unfold load_vm, no_vmid_zero. intros Hload Hacc.
  destruct (Js.get vm_info "vmid" JNull) as [vmid_v|]; [|done].
  destruct (Js.get vm_info "role" (JStr "")) as [role_v|]; [|done].
  destruct (Js.truthy vmid_v) eqn:Htruthy; simpl in Hload; [|by simplify_eq].
  destruct proxmox_node_id; try done. destruct vmid_v as [| |z| | |]; try done.
  simpl in Htruthy. apply bool_decide_eq_true_1 in Htruthy.
  destruct acc as [[srv agt] sto]. simpl in *.
  rewrite !Forall_app in Hacc. destruct Hacc as (? & ? & ?).
  repeat case_bool_decide; simplify_eq; simpl; rewrite !Forall_app;
    repeat split; try done; by repeat constructor.
Qed.

Lemma load_vms_no_vmid_zero proxmox_node_id vms acc acc' :
  load_vms E proxmox_node_id acc vms = Ok acc' →
  no_vmid_zero acc → no_vmid_zero acc'.
Proof.
  revert acc. induction vms as [|vm_info vms IH]; intros acc Hload Hacc; simpl in Hload.
  { by simplify_eq. }
  destruct (load_vm E proxmox_node_id acc vm_info) as [acc1|] eqn:Hvm; [|done].
  eapply IH; [done|]. by eapply load_vm_no_vmid_zero.
Qed.

Lemma load_hosts_no_vmid_zero hosts acc acc' :
  load_hosts E acc hosts = Ok acc' → no_vmid_zero acc → no_vmid_zero acc'.
Proof.
  revert acc. induction hosts as [|h hosts IH]; intros acc Hload Hacc; simpl in Hload.
  { by simplify_eq. }
  destruct (load_host E acc h) as [acc1|] eqn:Hh; [|done].
  eapply IH; [done|]. unfold load_host in Hh.
  destruct (Js.get h "id" JNull) as [id_v|]; [|done].
  destruct (negb (Js.truthy id_v)); [by simplify_eq|].
  destruct (Js.get h "vms" (JArr [])) as [vms_v|]; [|done].
  destruct (Js.iter vms_v) as [vms|]; [|done].
  by eapply load_vms_no_vmid_zero.
Qed.
End Loader.

(** C10.  The loader's loops leave their accumulators untouched on a host
    entry whose [id] is missing or falsy and on a VM entry whose [vmid] is
    missing or 0, whatever else the entry holds; no VM with id 0 ever
    reaches a role list; and a file whose only VM entry has [vmid] 0 and
    role SERVER loads as three empty role lists. *)
Theorem loader_skips_falsy_ids (E : AppConfig) :
  (∀ acc fields,
      (Js.assoc "id" fields = None ∨
       ∃ v, Js.assoc "id" fields = Some v ∧ Js.truthy v = false) →
      load_host E acc (JObj fields) = Ok acc) ∧
  (∀ proxmox_node_id acc fields,
      (Js.assoc "vmid" fields = None ∨ Js.assoc "vmid" fields = Some (JNum 0)) →
      load_vm E proxmox_node_id acc (JObj fields) = Ok acc) ∧
  (∀ data loaded_servers loaded_agents loaded_storage,
      load_data E data = Ok (loaded_servers, loaded_agents, loaded_storage) →
      Forall (λ vm, vmid vm ≠ 0) (loaded_servers ++ loaded_agents ++ loaded_storage)) ∧
  load_data E
    (JObj [("nodes",
            JArr [JObj [("id", JStr "pve1");
                        ("vms", JArr [JObj [("vmid", JNum 0); ("role", JStr "SERVER")]])]])])
  = Ok ([], [], []).
Proof.
  split; [|split; [|split]].
  - intros acc fields Hid. unfold load_host. simpl.
    destruct Hid as [->|(v & -> & Hv)]; simpl; [done|]. by rewrite Hv.
  - intros proxmox_node_id acc fields Hvmid. unfold load_vm. simpl.
    destruct Hvmid as [->| ->]; done.
  - intros data srv agt sto Hload. unfold load_data in Hload.
    destruct (Js.get data "nodes" (JArr [])) as [nodes_v|]; [|done].
    destruct (Js.iter nodes_v) as [hosts|]; [|done].
    apply (load_hosts_no_vmid_zero E hosts ([], [], []) (srv, agt, sto) Hload).
    constructor.
  - reflexivity.
Qed.

Lemma loader_skips_falsy_ids_witness :
  load_host default_config ([vm_a], [], [])
    (JObj [("id", JStr ""); ("vms", JArr [JObj [("vmid", JNum 7); ("role", JStr "AGENT")]])])
  = Ok ([vm_a], [], []) ∧
  load_vm default_config (JStr "pve1") ([vm_a], [], [])
    (JObj [("vmid", JNum 0); ("role", JStr "k3s-server")])
  = Ok ([vm_a], [], []).
Proof.
  destruct (loader_skips_falsy_ids default_config) as (Hhost & Hvm & _).
  split.
  - apply Hhost. right. exists (JStr ""). split; reflexivity.
  - apply Hvm. right. reflexivity.
Defined.

(** ** Outcomes of the node list file loader *)

Section LoaderOutcomes.
Context (E : AppConfig).

Lemma js_get_exn d k default e : Js.get d k default = Raise e → loader_exn e.
Proof. destruct d; simpl; intros [= <-]; by left. Qed.

Lemma js_iter_exn j e : Js.iter j = Raise e → loader_exn e.
Proof. destruct j; simpl; intros [= <-]; by right; left. Qed.

Lemma load_vm_exn proxmox_node_id acc vm_info e :
  load_vm E proxmox_node_id acc vm_info = Raise e → loader_exn e.
Proof.
  unfold load_vm.
  destruct (Js.get vm_info "vmid" JNull) as [vmid_v|] eqn:H1; [|intros [= <-]; by eapply js_get_exn].
  destruct (Js.get vm_info "role" (JStr "")) as [role_v|] eqn:H2; [|intros [= <-]; by eapply js_get_exn].
  destruct (negb (Js.truthy vmid_v)); [done|].
  destruct acc as [[srv agt] sto].
  destruct proxmox_node_id; try (intros [= <-]; by right; right).
  destruct vmid_v; try (intros [= <-]; by right; right).
  by repeat case_bool_decide.
Qed.

Lemma load_vms_exn proxmox_node_id vms acc e :
  load_vms E proxmox_node_id acc vms = Raise e → loader_exn e.
Proof.
  revert acc. induction vms as [|vm_info vms IH]; intros acc; simpl; [done|].
  destruct (load_vm E proxmox_node_id acc vm_info) eqn:Hvm; [by apply IH|].
  intros [= <-]. by eapply load_vm_exn.
Qed.

Lemma load_host_exn acc p_node_info e :
  load_host E acc p_node_info = Raise e → loader_exn e.
Proof.
  unfold load_host.
  destruct (Js.get p_node_info "id" JNull) as [id_v|] eqn:H1; [|intros [= <-]; by eapply js_get_exn].
  destruct (negb (Js.truthy id_v)); [done|].
  destruct (Js.get p_node_info "vms" (JArr [])) as [vms_v|] eqn:H2;
    [|intros [= <-]; by eapply js_get_exn].
  destruct (Js.iter vms_v) as [vms|] eqn:H3; [|intros [= <-]; by eapply js_iter_exn].
  apply load_vms_exn.
Qed.

Lemma load_hosts_exn hosts acc e :
  load_hosts E acc hosts = Raise e → loader_exn e.
Proof.
  revert acc. induction hosts as [|h hosts IH]; intros acc; simpl; [done|].
  destruct (load_host E acc h) eqn:Hh; [by apply IH|].
  intros [= <-]. by eapply load_host_exn.
Qed.

Lemma load_data_exn data e : load_data E data = Raise e → loader_exn e.
Proof.
  unfold load_data.
  destruct (Js.get data "nodes" (JArr [])) as [nodes_v|] eqn:H1; [|intros [= <-]; by eapply js_get_exn].
  destruct (Js.iter nodes_v) as [hosts|] eqn:H2; [|intros [= <-]; by eapply js_iter_exn].
  apply load_hosts_exn.
Qed.
End LoaderOutcomes.

(** C8, as the code has it.  When the backing file does not exist the
    loader answers "absent" and hands back the manager as it was.  It raises
    [ConfigurationError] exactly when opening or reading the file raises
    [IOError] or the text is not well-formed JSON ([json.JSONDecodeError]).
    A file that exists and makes [json.load] raise anything else (bytes
    that are not valid UTF-8, nesting beyond the parser's limit) lets that
    exception through, and well-formed JSON of another shape ends in
    [AttributeError] or [TypeError]: neither is [ConfigurationError]. *)
Theorem load_nodes_from_config_file_outcomes (E : AppConfig) (m : Manager) (w : World) :
  (node_config_file w = CfAbsent →
     load_nodes_from_config_file E m w = (Ok (false, m), w)) ∧
  ((load_nodes_from_config_file E m w).1 = Raise ConfigurationError ↔
     node_config_file w = CfIOError ∨ node_config_file w = CfInvalidJson) ∧
  (∀ f, node_config_file w = CfLoadRaises f →
     load_nodes_from_config_file E m w = (Raise (load_failure_exn f), w) ∧
     load_failure_exn f ≠ ConfigurationError) ∧
  (∀ data e, node_config_file w = CfJson data →
     (load_nodes_from_config_file E m w).1 = Raise e → loader_exn e).
Proof.
  unfold load_nodes_from_config_file. run. split; [|split; [|split]].
  - by intros ->.
  - destruct (node_config_file w) as [| | |[]|data]; simpl; try naive_solver.
    destruct (load_data E data) as [[[srv agt] sto]|e] eqn:Hload; simpl;
      [naive_solver|].
    apply load_data_exn in Hload. unfold loader_exn in Hload. naive_solver.
  - intros f ->. simpl. split; [done|]. by destruct f.
  - intros data e ->. simpl.
    destruct (load_data E data) as [[[srv agt] sto]|e'] eqn:Hload; simpl; [done|].
    intros [= <-]. by eapply load_data_exn.
Qed.

Lemma load_nodes_from_config_file_outcomes_witness :
  load_nodes_from_config_file default_config demo_manager (demo_world demo_store)
  = (Ok (false, demo_manager), demo_world demo_store).
Proof.
  destruct (load_nodes_from_config_file_outcomes default_config demo_manager
              (demo_world demo_store)) as [Habsent _].
  apply Habsent. reflexivity.
Defined.

(** C8 as stated fails: a file that holds well-formed JSON which is not the
    expected structure (here a bare list) ends in [AttributeError], not in
    [ConfigurationError]. *)
Lemma wrong_shape_is_not_ConfigurationError :
  (load_nodes_from_config_file default_config empty_manager
     (with_files (CfJson (JArr [])) KfAbsent (demo_world demo_store))).1
  = Raise AttributeError.
Proof. reflexivity. Qed.

(** The same for a file that exists and cannot be read as text: its bytes
    are not valid UTF-8, [json.load] raises [UnicodeDecodeError], and the
    loader's handler lets it through. *)
Example undecodable_file_is_not_ConfigurationError :
  (load_nodes_from_config_file default_config empty_manager
     (with_files (CfLoadRaises NotUtf8) KfAbsent (demo_world demo_store))).1
  = Raise UnicodeDecodeError.
Proof. reflexivity. Qed.

(** ** Discovery *)

Section Discovery.
Context (E : AppConfig).

Lemma sorted_nil_iff {A K} (key : A → K) (lt : K → K → bool) (l : list A) :
  Py.sorted key lt l = [] ↔ l = [].
Proof.
  split; [|by intros ->]. destruct l as [|x l]; [done|]. simpl.
  destruct (Py.sorted key lt l) as [|y l']; simpl; [done|].
  by destruct (lt (key y) (key x)).
Qed.

Lemma discover_vm_total p_node_name m vmid w :
  ∃ m' w', discover_vm E p_node_name m vmid w = (Ok m', w').
Proof.
  unfold discover_vm. run.
  destruct (config_get_fails w p_node_name vmid); simpl; [by eexists _, _|].
  destruct (vm_store w !! (p_node_name, vmid)) as [vm_config|]; simpl;
    [|by eexists _, _].
  destruct (bool_decide (parse_tags _ = [])); [by eexists _, _|].
  destruct (negb _); by eexists _, _.
Qed.

Lemma discover_vms_total p_node_name vmids m w :
  ∃ m' w', for_each (discover_vm E p_node_name) m vmids w = (Ok m', w').
Proof.
  revert m w. induction vmids as [|vmid vmids IH]; intros m w; simpl.
  { by eexists _, _. }
  destruct (discover_vm_total p_node_name m vmid w) as (m1 & w1 & Hvm).
  unfold mbind, M_bind. rewrite Hvm. apply IH.
Qed.

Lemma discover_host_total m p_node_name w :
  ∃ m' w', discover_host E m p_node_name w = (Ok m', w').
Proof.
  unfold discover_host, get_vms_on_node. run.
  destruct (qemu_get w p_node_name); simpl;
    [apply discover_vms_total|by eexists _, _].
Qed.

Lemma discover_hosts_total hosts m w :
  ∃ m' w', for_each (discover_host E) m hosts w = (Ok m', w').
Proof.
  revert m w. induction hosts as [|h hosts IH]; intros m w; simpl.
  { by eexists _, _. }
  destruct (discover_host_total m h w) as (m1 & w1 & Hh).
  unfold mbind, M_bind. rewrite Hh. apply IH.
Qed.

(** Discovery ends in [NodeDiscoveryError] when no host is enumerated, and
    returns normally in every other case. *)
Lemma discover_outcome m w :
  (no_hosts w ∧ (discover_nodes_by_tags E m w).1 = Raise NodeDiscoveryError) ∨
  (¬ no_hosts w ∧ ∃ m', (discover_nodes_by_tags E m w).1 = Ok m').
Proof.
  unfold discover_nodes_by_tags, get_proxmox_cluster_nodes, no_hosts. run.
  destruct (nodes_get w) as [nodes_data|]; simpl; [|by left].
  case_bool_decide as Hnames.
  - left. by apply sorted_nil_iff in Hnames.
  - right. split; [by rewrite <-(sorted_nil_iff id String.ltb)|].
    match goal with |- context [for_each (discover_host E) m ?hosts ?w1] =>
      destruct (discover_hosts_total hosts m w1) as (m1 & w1' & ->) end.
    destruct (bool_decide (_ = [])); simpl; by eexists.
Qed.
End Discovery.

(** C3, as the code has it.  [discover_nodes_by_tags] raises
    [NodeDiscoveryError] exactly when the inventory client enumerates no
    host (the host list call fails or names none) and returns normally
    otherwise, also when no VM carries a recognized role tag.  In that last
    case it is the caller, [ensure_nodes_are_discovered], that raises
    [NodeDiscoveryError]: started without nodes and without a node list
    file, it raises exactly when discovery raised or came back with no
    node. *)
Theorem discovery_raises_only_without_hosts (E : AppConfig) (m : Manager) (w : World) :
  ((discover_nodes_by_tags E m w).1 = Raise NodeDiscoveryError ↔ no_hosts w) ∧
  (¬ no_hosts w → ∃ m', (discover_nodes_by_tags E m w).1 = Ok m') ∧
  (all_nodes m = [] → node_config_file w = CfAbsent →
     ((ensure_nodes_are_discovered E true m w).1 = Raise NodeDiscoveryError ↔
        no_hosts w ∨
        ∃ m', (discover_nodes_by_tags E m w).1 = Ok m' ∧ all_nodes m' = [])).
Proof.
  split; [|split].
  - destruct (discover_outcome E m w) as [[Hno Hr]|[Hhosts [m' Hr]]]; rewrite Hr;
      naive_solver.
  - intros Hhosts. destruct (discover_outcome E m w) as [[Hno _]|[_ Hr]]; done.
  - intros Hempty Hfile. unfold ensure_nodes_are_discovered.
    rewrite Hempty. simpl.
    unfold load_nodes_from_config_file. run. rewrite Hfile. simpl.
    destruct (discover_outcome E m w) as [[Hno Hr]|[Hhosts [m' Hr]]];
      destruct (discover_nodes_by_tags E m w) as [r w']; simpl in *; subst r.
    + naive_solver.
    + case_bool_decide as Hnodes; simpl; naive_solver.
Qed.

Lemma discovery_raises_only_without_hosts_witness :
  (ensure_nodes_are_discovered default_config true empty_manager untagged_world).1
  = Raise NodeDiscoveryError.
Proof.
  destruct (discovery_raises_only_without_hosts default_config empty_manager untagged_world)
    as (_ & _ & Hensure).
  apply Hensure; [reflexivity..|].
  right. exists empty_manager. vm_compute. done.
Defined.

(** C3 as stated fails: with a host enumerated and no VM carrying a
    recognized role tag, [discover_nodes_by_tags] returns normally, with
    empty node lists. *)
Lemma discovery_without_tagged_vm_returns :
  (discover_nodes_by_tags default_config empty_manager untagged_world).1
  = Ok empty_manager.
Proof. vm_compute. reflexivity. Qed.

(** ** SSH key resolution *)

Section SshKey.
Context (E : AppConfig).

Lemma configure_node_grows restart_after force ssh_key ip_range_end_int st vm w st' w' :
  configure_node E restart_after force ssh_key ip_range_end_int st vm w = (Ok st', w') →
  calls w' = calls w ++ calls_since w w' ∧ log w' = log w ++ log_since w w'.
Proof.
  intros Hrun.
  enough (∃ st0 w0,
            configure_node E restart_after force ssh_key ip_range_end_int st vm w
              = (Ok st0, w0) ∧
            calls w0 = calls w ++ calls_since w w0 ∧
            log w0 = log w ++ log_since w w0) as (st0 & w0 & Hrun0 & Hgrow).
  { rewrite Hrun in Hrun0. by injection Hrun0 as <- <-. }
  clear Hrun. unfold configure_node, configure_node_obj, fmap, M_fmap. run.
  destruct (status_current w (proxmox_node vm) (vmid vm)) as [status_data|]; simpl.
  all: destruct (bool_decide (config vm = ∅) || bool_decide (config vm !! ipconfig_key E = None));
    simpl.
  all: repeat match goal with
         | |- context [config_get_fails ?w0 ?n ?v] => destruct (config_get_fails w0 n v); simpl
         | |- context [match vm_store ?w0 !! ?k with _ => _ end] =>
             destruct (vm_store w0 !! k); simpl
         | |- context [?a >? ?b] => destruct (a >? b); simpl
         | |- context [needs_update ?e ?f ?n ?c] =>
             destruct (needs_update e f n c); simpl
         | |- context [config_put_fails ?w0 ?n ?v] => destruct (config_put_fails w0 n v); simpl
         | |- context [bool_decide (Some ?s = Some "running")] =>
             destruct (bool_decide (Some s = Some "running")); simpl
         | |- context [negb ?ra] => is_var ra; destruct ra; simpl
         end.
  all: eexists _, _; split; [reflexivity|]; split; since;
    rewrite ?drop_all, ?app_nil_r; done.
Qed.

Lemma target_params_network_only ssh_key next_ip node_name vmid :
  Py.truthy_opt ssh_key = false →
  network_only E (node_name, vmid, target_params E ssh_key next_ip).
Proof.
  intros Hkey. unfold network_only, target_params. simpl. split.
  - rewrite params_lookup_ipconfig. eauto.
  - unfold params_to_set.
    destruct ssh_key as [k|]; simpl in Hkey; rewrite ?Hkey;
      repeat match goal with
             | |- context [match ?o with Some _ => _ | None => _ end] => destruct o
             | |- context [if Py.truthy ?s then _ else _] => destruct (Py.truthy s)
             end;
      rewrite ?lookup_insert_ne by (done || (apply ipconfig_key_ne; auto));
      apply lookup_empty.
Qed.

(** With no usable key, every write of the loop is network-only. *)
Lemma configure_loop_network_only restart_after force ssh_key ip_range_end_int :
  Py.truthy_opt ssh_key = false →
  ∀ nodes st w st' w',
    configure_loop E restart_after force ssh_key ip_range_end_int st nodes w = (Ok st', w') →
    calls w' = calls w ++ calls_since w w' ∧
    log w' = log w ++ log_since w w' ∧
    Forall (network_only E) (written (calls_since w w')).
Proof.
  intros Hkey. induction nodes as [|vm nodes IH]; intros st w st' w' Hloop.
  { injection Hloop as <- <-. unfold calls_since, log_since.
    rewrite !drop_all, !app_nil_r. split; [done|]. split; [done|].
    unfold written. simpl. apply Forall_nil_2. }
  destruct (configure_node_spec E restart_after force ssh_key ip_range_end_int st vm w)
    as (st1 & w1 & Hrun & _ & Hspec).
  unfold configure_loop in Hloop. simpl in Hloop. unfold mbind, M_bind in Hloop.
  rewrite Hrun in Hloop.
  destruct (configure_node_grows _ _ _ _ _ _ _ _ _ Hrun) as [Hc1 Hl1].
  destruct (IH _ _ _ _ Hloop) as (Hc2 & Hl2 & Hall).
  assert (calls_since w w' = calls_since w w1 ++ calls_since w1 w') as Hcs.
  { unfold calls_since at 1. rewrite Hc2, Hc1, <-app_assoc.  apply drop_app_length.  }
  assert (log_since w w' = log_since w w1 ++ log_since w1 w') as Hls.
  { unfold log_since at 1. rewrite Hl2, Hl1, <-app_assoc. apply drop_app_length. }
  rewrite Hcs, Hls, !app_assoc, <-Hc1, <-Hl1, <-Hc2, <-Hl2.
  split; [done|]. split; [done|].
  unfold written in *. rewrite omap_app. apply Forall_app. split; [|done].
  destruct (observed_config E vm w); [|by destruct Hspec as (_ & _ & ->)].
  destruct (_ >? _); [by destruct Hspec as (_ & _ & ->)|].
  destruct (negb _); [by destruct Hspec as (_ & _ & ->)|].
  destruct Hspec as (-> & _). repeat constructor; by apply target_params_network_only.
Qed.

Lemma get_ssh_public_key_log (w : World) :
  log (_get_ssh_public_key E w).2 = log w ++ log_since w (_get_ssh_public_key E w).2.
Proof.
  unfold _get_ssh_public_key. run.
  destruct (Py.truthy_opt (SSH_PUBLIC_KEY E)); [by since|].
  destruct (node_config_file w) as [| | |f|data]; simpl.
  1-3: destruct (ssh_public_key_file w) as [| |content]; simpl;
    try destruct (Py.truthy (Py.strip content)); by since.
  { since. by rewrite ?drop_all, ?app_nil_r. }
  destruct (Js.has_ssh_key data) as [[|]|e]; simpl.
  - destruct (Js.ssh_key_item data) as [[| | |s| |]|e]; simpl; by since.
  - destruct (ssh_public_key_file w) as [| |content]; simpl;
      try destruct (Py.truthy (Py.strip content)); by since.
  - since. by rewrite drop_all, app_nil_r.
Qed.

(** The pass warns and then writes network settings only. *)
Lemma configure_nodes_without_key restart_after force nodes w ssh_key wk :
  _get_ssh_public_key E w = (Ok ssh_key, wk) →
  Py.truthy_opt ssh_key = false →
  (INFO_YELLOW, MsgNoSshKey)
    ∈ log_since w (configure_nodes E restart_after force nodes w).2 ∧
  Forall (network_only E)
    (written (calls_since w (configure_nodes E restart_after force nodes w).2)).
Proof.
  intros Hres Hkey.
  destruct (get_ssh_public_key_world E w) as (_ & _ & Hcalls).
  pose proof (get_ssh_public_key_log w) as Hlog.
  unfold configure_nodes, mbind, M_bind. rewrite Hres in *. simpl in Hcalls, Hlog.
  rewrite Hkey. simpl. unfold logm.
  set (wa := add_log (INFO_YELLOW, MsgNoSshKey) wk).
  assert (calls wa = calls w) as Hca by done.
  assert (log wa = log w ++ log_since w wk ++ [(INFO_YELLOW, MsgNoSshKey)]) as Hla.
  { subst wa. simpl. by rewrite Hlog at 1; rewrite <-app_assoc. }
  assert (∀ w', (∃ logs, log w' = log wa ++ logs) →
                (INFO_YELLOW, MsgNoSshKey) ∈ log_since w w') as Hwarned.
  { intros w' [logs Hw']. unfold log_since. rewrite Hw', Hla, <-!app_assoc.
    rewrite drop_app_length. set_solver. }
  destruct (K3S_NODE_IP_RANGE_START E) as [s|];
    [destruct (K3S_NODE_IP_RANGE_END E) as [e|]|].
  2,3: simpl; split; [apply Hwarned; exists []; by rewrite app_nil_r|];
       unfold calls_since; by rewrite Hca, drop_all.
  destruct (configure_loop_total E restart_after ssh_key e force (sort_nodes nodes)
              (mkLoop s [] []) wa) as (st & wb & Hloop & _ & _).
  destruct (configure_loop_obj_run E restart_after force ssh_key e (sort_nodes nodes)
              (mkLoop s [] []) [] wa) as (st0 & seen0 & wb0 & Hobj & Hloop0 & _).
  rewrite Hloop in Hloop0. injection Hloop0 as <- <-.
  rewrite Hobj. simpl.
  destruct (configure_loop_network_only restart_after force ssh_key e Hkey _ _ _ _ _ Hloop)
    as (Hcb & Hlb & Hall).
  assert (calls_since w wb = calls_since wa wb) as Hsince.
  { unfold calls_since. by rewrite Hca. }
  unfold ret, mret, M_ret.
  destruct (bool_decide (running_modified_vms st ≠ []) && negb restart_after);
    destruct (bool_decide (modified_vms st ≠ []) && restart_after);
    try (destruct (modified_vms st) as [|vm vms];
         [simpl|rewrite restart_modified_raises]);
    simpl; (split; [apply Hwarned; simpl; rewrite ?Hlb, <-?app_assoc; by eexists|]);
    by rewrite <-Hsince in Hall.
Qed.
End SshKey.

(** C9, as the code has it.  With config-file data that is an object (or no
    readable config file): a non-empty directly configured key is the
    result; otherwise an [ssh_key] field that is present in the config-file
    data is the result whatever it holds, an empty string included, and the
    key file is not consulted; otherwise the result is the stripped content
    of the key file when that is non-empty, and no key when it is not.  This
    is the first source with non-empty content whenever the [ssh_key] field
    is absent or non-empty.  When all three sources are absent or empty the
    result is no key or an empty one, never an error, and a convergence pass
    that resolves such a key logs the no-key warning and sends writes that
    carry network settings and no SSH key. *)
Theorem ssh_key_resolution (E : AppConfig) (w : World) :
  config_data_is_object w →
  let result := (_get_ssh_public_key E w).1 in
  (Py.truthy_opt (SSH_PUBLIC_KEY E) = true → result = Ok (SSH_PUBLIC_KEY E)) ∧
  (Py.truthy_opt (SSH_PUBLIC_KEY E) = false →
     (∀ s, ssh_key_field w = Some (JStr s) → result = Ok (Some s)) ∧
     (ssh_key_field w = Some JNull → result = Ok None) ∧
     (ssh_key_field w = None → result = Ok (key_file_content w))) ∧
  (Py.truthy_opt (SSH_PUBLIC_KEY E) = true ∨ ssh_key_field w = None ∨
   (∃ s, ssh_key_field w = Some (JStr s) ∧ s ≠ "") →
     result = Ok (first_nonempty_source E w)) ∧
  (Py.truthy_opt (SSH_PUBLIC_KEY E) = false →
   ssh_key_field w = None ∨ ssh_key_field w = Some (JStr "") ∨
   ssh_key_field w = Some JNull →
   key_file_content w = None →
     ∃ k, result = Ok k ∧ Py.truthy_opt k = false) ∧
  (∀ restart_after force nodes k wk,
     _get_ssh_public_key E w = (Ok k, wk) → Py.truthy_opt k = false →
     (INFO_YELLOW, MsgNoSshKey)
       ∈ log_since w (configure_nodes E restart_after force nodes w).2 ∧
     Forall (network_only E)
       (written (calls_since w (configure_nodes E restart_after force nodes w).2))).
Proof.
  intros Hobj result.
  assert (Py.truthy_opt (SSH_PUBLIC_KEY E) = true → result = Ok (SSH_PUBLIC_KEY E)) as Ha.
  { intros Henv. subst result. unfold _get_ssh_public_key. by rewrite Henv. }
  assert (Py.truthy_opt (SSH_PUBLIC_KEY E) = false →
          (∀ s, ssh_key_field w = Some (JStr s) → result = Ok (Some s)) ∧
          (ssh_key_field w = Some JNull → result = Ok None) ∧
          (ssh_key_field w = None → result = Ok (key_file_content w))) as Hb.
  { intros Henv. subst result.
    unfold _get_ssh_public_key, ssh_key_field, key_file_content, config_data_is_object in *.
    rewrite Henv. run.
    destruct (node_config_file w) as [| | |f|[| | | | |fields]]; simpl; try done.
    1-3: (split; [done|]; split; [done|]; intros _;
          destruct (ssh_public_key_file w) as [| |content]; simpl; try done;
          by destruct (Py.truthy (Py.strip content))).
    destruct (Js.assoc "ssh_key" fields) as [v|]; simpl.
    - split; [by intros s [= ->]|]. split; [by intros [= ->]|done].
    - split; [done|]. split; [done|]. intros _.
      destruct (ssh_public_key_file w) as [| |content]; simpl; try done;
        by destruct (Py.truthy (Py.strip content)). }
  split; [done|]. split; [done|]. split; [|split].
  - unfold first_nonempty_source.
    destruct (Py.truthy_opt (SSH_PUBLIC_KEY E)) eqn:Henv; [by intros _; apply Ha|].
    destruct (Hb eq_refl) as (Hstr & Hnull & Hnone).
    intros [?|[Hf|(s & Hf & Hs)]]; [done|..].
    + rewrite Hf. by apply Hnone.
    + rewrite Hf. unfold Py.truthy. rewrite bool_decide_eq_true_2 by done. by apply Hstr.
  - intros Henv Hfield Hfile. destruct (Hb Henv) as (Hstr & Hnull & Hnone).
    destruct Hfield as [Hf|[Hf|Hf]].
    + exists None. split; [|done]. rewrite <-Hfile. by apply Hnone.
    + exists (Some ""). split; [by apply Hstr|done].
    + exists None. split; [by apply Hnull|done].
  - intros restart_after force nodes k wk. apply configure_nodes_without_key.
Qed.

Lemma ssh_key_resolution_witness :
  (_get_ssh_public_key default_config (demo_world demo_store)).1 = Ok None.
Proof.
  destruct (ssh_key_resolution default_config (demo_world demo_store) I)
    as (_ & Hfield & _).
  destruct (Hfield eq_refl) as (_ & _ & Hnone).
  apply Hnone. reflexivity.
Defined.

(** C9 as stated fails: an [ssh_key] field that is present and empty is
    returned as it is, although the key file, next in priority, has
    non-empty content. *)
Lemma empty_ssh_key_field_ends_search :
  (_get_ssh_public_key default_config empty_key_field_world).1 = Ok (Some "") ∧
  first_nonempty_source default_config empty_key_field_world
    = Some "ssh-rsa AAAA user@host".
Proof. split; vm_compute; reflexivity. Qed.

(** * Further properties *)

(** ** What a convergence pass writes *)

Section PassTrace.
Context (E : AppConfig) (restart_after force : bool) (ssh_key : option string)
        (ip_range_end_int : Z).

Lemma write_accepted_same (w w' : World) k :
  same_remote w w' → dom (vm_store w') = dom (vm_store w) →
  write_accepted w' k = write_accepted w k.
Proof.
  intros (_ & _ & _ & Hput & _) Hdom. unfold write_accepted. rewrite Hput.
  f_equal. apply bool_decide_ext. by rewrite <-!elem_of_dom, Hdom.
Qed.

(** One iteration, as a trace: either it writes nothing and leaves ledger
    and store alone, or it sends one write for the current cursor position,
    which is inside the range, and the ledger grows exactly when the write
    is accepted. *)
Lemma configure_node_summary (st : LoopState) (vm : VMIdentifier) (w : World) :
  ∃ st' w',
    configure_node E restart_after force ssh_key ip_range_end_int st vm w = (Ok st', w') ∧
    same_remote w w' ∧ dom (vm_store w') = dom (vm_store w) ∧
    calls w' = calls w ++ calls_since w w' ∧
    ((written (calls_since w w') = [] ∧ vm_store w' = vm_store w ∧
      modified_vms st' = modified_vms st ∧
      running_modified_vms st' = running_modified_vms st ∧
      next_ip_to_assign_int st ≤ next_ip_to_assign_int st' ≤ next_ip_to_assign_int st + 1) ∨
     (written (calls_since w w')
        = [(proxmox_node vm, vmid vm,
            target_params E ssh_key (next_ip_to_assign_int st))] ∧
      next_ip_to_assign_int st ≤ ip_range_end_int ∧
      next_ip_to_assign_int st' = next_ip_to_assign_int st + 1 ∧
      if write_accepted w (sort_key vm) then
        ∃ vm' stored,
          vm_store w !! sort_key vm = Some stored ∧
          vm_store w' =
            <[sort_key vm := target_params E ssh_key (next_ip_to_assign_int st) ∪ stored]>
              (vm_store w) ∧
          sort_key vm' = sort_key vm ∧
          modified_vms st' = modified_vms st ++ [vm'] ∧
          running_modified_vms st' =
            running_modified_vms st ++
              (if bool_decide (status vm' = Some "running") then [vm'] else [])
      else
        vm_store w' = vm_store w ∧ modified_vms st' = modified_vms st ∧
        running_modified_vms st' = running_modified_vms st)).
Proof.
  destruct (configure_node_spec E restart_after force ssh_key ip_range_end_int st vm w)
    as (st' & w' & Hrun & Hsame & Hspec).
  destruct (configure_node_cursor E restart_after force ssh_key ip_range_end_int st vm w)
    as (st0 & w0 & Hrun0 & _ & Hdom & _).
  rewrite Hrun in Hrun0. injection Hrun0 as <- <-.
  destruct (configure_node_grows E _ _ _ _ _ _ _ _ _ Hrun) as [Hcalls _].
  exists st', w'. do 4 (split; [done|]).
  destruct (observed_config E vm w) as [c|];
    [|left; destruct Hspec as (-> & -> & ->); repeat split; try done; lia].
  destruct (next_ip_to_assign_int st >? ip_range_end_int) eqn:Hexh;
    [left; destruct Hspec as (-> & -> & ->); repeat split; try done; lia|].
  destruct (negb _);
    [left; destruct Hspec as (-> & -> & ->); simpl; repeat split; try done; lia|].
  right. destruct Hspec as (Hw & Hnext & Hput).
  split; [done|]. split; [rewrite Z.gtb_ltb in Hexh; lia|]. split; [done|].
  unfold write_accepted. simpl.
  destruct (config_put_fails w (proxmox_node vm) (vmid vm)); simpl; [done|].
  destruct (vm_store w !! sort_key vm) as [stored|] eqn:Hstored.
  - rewrite bool_decide_eq_true_2 by eauto.
    destruct Hput as (Hst & vm' & Hk & _ & Hm & Hr). by exists vm', stored.
  - rewrite bool_decide_eq_false_2 by apply is_Some_None. done.
Qed.

Lemma calls_since_trans (w w1 w' : World) :
  calls w1 = calls w ++ calls_since w w1 →
  calls w' = calls w1 ++ calls_since w1 w' →
  calls w' = calls w ++ calls_since w w' ∧
  calls_since w w' = calls_since w w1 ++ calls_since w1 w'.
Proof.
  intros H1 H2.
  assert (calls_since w w' = calls_since w w1 ++ calls_since w1 w') as Hcs.
  { unfold calls_since at 1. rewrite H2. rewrite H1 at 1.
    by rewrite <-app_assoc, drop_app_length. }
  split; [|done]. rewrite Hcs, app_assoc, <-H1. done.
Qed.

(** The whole loop, as a trace.  [ns] lists the cursor positions at which
    the writes were sent. *)
Lemma configure_loop_trace (nodes : list VMIdentifier) :
  ∀ (st : LoopState) (w : World),
  ∃ st' w' ns,
    configure_loop E restart_after force ssh_key ip_range_end_int st nodes w = (Ok st', w') ∧
    same_remote w w' ∧ dom (vm_store w') = dom (vm_store w) ∧
    calls w' = calls w ++ calls_since w w' ∧
    Forall2 (λ p n, p.2 = target_params E ssh_key n) (written (calls_since w w')) ns ∧
    (written (calls_since w w')).*1 `sublist_of` (sort_key <$> nodes) ∧
    StronglySorted Z.lt ns ∧
    Forall (λ n, next_ip_to_assign_int st ≤ n ∧ n < next_ip_to_assign_int st' ∧
                 n ≤ ip_range_end_int) ns ∧
    next_ip_to_assign_int st ≤ next_ip_to_assign_int st' ∧
    sort_key <$> modified_vms st' =
      (sort_key <$> modified_vms st) ++
      filter (λ k, write_accepted w k) ((written (calls_since w w')).*1) ∧
    ∃ ms rs,
      modified_vms st' = modified_vms st ++ ms ∧
      running_modified_vms st' = running_modified_vms st ++ rs ∧
      rs = filter (λ vm, status vm = Some "running") ms.
Proof.
  induction nodes as [|vm nodes IH]; intros st w.
  { exists st, w, []. split; [done|]. split; [apply same_remote_refl|]. split; [done|].
    unfold calls_since. rewrite drop_all, !app_nil_r. simpl.
    do 7 (split; [first [done | by repeat constructor | lia | by rewrite app_nil_r]|]).
    exists [], []. by rewrite !app_nil_r. }
  destruct (configure_node_summary st vm w)
    as (st1 & w1 & Hrun & Hsame1 & Hdom1 & Hcalls1 & Hstep).
  destruct (IH st1 w1)
    as (st' & w' & ns2 & Hloop & Hsame2 & Hdom2 & Hcalls2 & Hparams2 & Hsub2 & Hsorted2 &
        Hbounds2 & Hmono2 & Hledger2 & ms2 & rs2 & Hms2 & Hrs2 & Hrsub2).
  destruct (calls_since_trans w w1 w' Hcalls1 Hcalls2) as [Hcalls Hcs].
  assert (configure_loop E restart_after force ssh_key ip_range_end_int st (vm :: nodes) w
          = (Ok st', w')) as Hwhole.
  { unfold configure_loop in *. simpl. unfold mbind, M_bind. by rewrite Hrun. }
  assert (∀ l : list (string * Z),
            filter (λ k, write_accepted w1 k) l = filter (λ k, write_accepted w k) l)
    as Hfilter.
  { intros l. apply list_filter_iff. intros k. by rewrite (write_accepted_same w w1). }
  rewrite Hfilter in Hledger2. clear Hfilter.
  destruct Hstep as [(Hnone & _ & Hm1 & Hr1 & Hnext1)|(Hone & Hroom & Hnext1 & Hacc)].
  - exists st', w', ns2. split; [done|]. split; [by eapply same_remote_trans|].
    split; [congruence|]. split; [done|].
    unfold written in *. rewrite Hcs, omap_app, Hnone. simpl.
    split; [done|]. split; [by apply sublist_cons|]. split; [done|].
    split; [eapply Forall_impl; [exact Hbounds2|]; simpl; intros n; lia|].
    split; [lia|]. split; [by rewrite Hledger2, Hm1|].
    exists ms2, rs2. rewrite Hms2, Hrs2, Hm1, Hr1. done.
  - exists st', w', (next_ip_to_assign_int st :: ns2).
    split; [done|]. split; [by eapply same_remote_trans|].
    split; [congruence|]. split; [done|].
    unfold written in *. rewrite Hcs, omap_app, Hone. simpl.
    split; [by constructor|]. split; [by apply sublist_skip|].
    split.
    { constructor; [done|]. eapply Forall_impl; [exact Hbounds2|]. simpl. intros n. lia. }
    split.
    { constructor; [lia|]. eapply Forall_impl; [exact Hbounds2|]. simpl. intros n. lia. }
    split; [lia|].
    rewrite filter_cons. change (proxmox_node vm, vmid vm) with (sort_key vm).
    destruct (write_accepted w (sort_key vm)) eqn:Hok.
    + destruct Hacc as (vm' & stored & _ & _ & Hk & Hm1 & Hr1).
      rewrite decide_True by (simpl; tauto).
      split.
      { rewrite Hledger2, Hm1, fmap_app, <-app_assoc. simpl. by rewrite Hk. }
      exists (vm' :: ms2),
        ((if bool_decide (status vm' = Some "running") then [vm'] else []) ++ rs2).
      rewrite Hms2, Hrs2, Hm1, Hr1, <-!app_assoc. split; [done|]. split; [done|].
      rewrite filter_cons, Hrsub2. case_bool_decide.
      * by rewrite decide_True.
      * by rewrite decide_False.
    + destruct Hacc as (_ & Hm1 & Hr1). rewrite decide_False by (simpl; tauto).
      split; [by rewrite Hledger2, Hm1|].
      exists ms2, rs2. rewrite Hms2, Hrs2, Hm1, Hr1. done.
Qed.

Lemma target_params_lookup_None (next_ip : Z) (a : string) :
  target_params E ssh_key next_ip !! a = None ↔ a ∉ sent_attrs E ssh_key.
Proof.
  unfold target_params, params_to_set, sent_attrs.
  destruct (Py.truthy (target_nameserver_value E));
    destruct (K3S_NODE_SEARCH_DOMAIN E) as [sd|]; simpl;
    try destruct (Py.truthy sd); destruct ssh_key as [k|]; simpl;
    try destruct (Py.truthy k); simpl;
    rewrite ?lookup_insert_None, ?not_elem_of_cons; rewrite lookup_empty;
    pose proof (not_elem_of_nil a); naive_solver.
Qed.

(** Past the end of the range nothing happens any more. *)
Lemma configure_loop_exhausted (nodes : list VMIdentifier) :
  ∀ st w,
    ip_range_end_int < next_ip_to_assign_int st →
    ∃ w', configure_loop E restart_after force ssh_key ip_range_end_int st nodes w
            = (Ok st, w') ∧
          vm_store w' = vm_store w ∧ written (calls_since w w') = [].
Proof.
  induction nodes as [|vm nodes IH]; intros st w Hexh.
  { exists w. split; [done|]. split; [done|]. unfold calls_since. by rewrite drop_all. }
  destruct (configure_node_summary st vm w) as (st1 & w1 & Hrun & _ & _ & Hcalls1 & Hstep).
  destruct (configure_node_spec E restart_after force ssh_key ip_range_end_int st vm w)
    as (st0 & w0 & Hrun0 & _ & Hspec).
  rewrite Hrun in Hrun0. injection Hrun0 as <- <-.
  assert (st1 = st) as ->.
  { destruct (observed_config E vm w); [|by destruct Hspec as (-> & _)].
    rewrite (proj2 (Z.gtb_lt _ _)) in Hspec by lia. by destruct Hspec as (-> & _). }
  destruct Hstep as [(Hnone & Hst1 & _)|(_ & Hroom & _)]; [|lia].
  destruct (IH st w1 Hexh) as (w' & Hloop & Hst' & Hnone').
  exists w'. split; [|split; [congruence|]].
  - unfold configure_loop in *. simpl. unfold mbind, M_bind. by rewrite Hrun.
  - destruct (configure_loop_trace nodes st w1)
      as (st2 & w2 & _ & Hloop2 & _ & _ & Hcalls2 & _).
    rewrite Hloop in Hloop2. injection Hloop2 as <- <-.
    destruct (calls_since_trans w w1 w' Hcalls1 Hcalls2) as [_ ->].
    unfold written in *. by rewrite omap_app, Hnone, Hnone'.
Qed.
End PassTrace.

(** ** The addresses a pass hands out *)

Section Addresses.
Context (E : AppConfig).

Lemma cut_at_char_inj (c : ascii) (a a' r r' : string) :
  lacks_char c a = true → lacks_char c a' = true →
  a +:+ String c r = a' +:+ String c r' → a = a' ∧ r = r'.
Proof.
  revert a'. induction a as [|x a IH]; intros [|x' a']; simpl.
  - intros _ _ [= ->]. done.
  - intros _ Hx' [= <- _]. by rewrite Ascii.eqb_refl in Hx'.
  - intros Hx _ [= -> _]. by rewrite Ascii.eqb_refl in Hx.
  - intros [_ Ha]%andb_true_iff [_ Ha']%andb_true_iff [= -> Heq].
    destruct (IH a' Ha Ha' Heq) as [-> ->]. done.
Qed.

Lemma octet_lacks_separators (x : Z) :
  0 ≤ x < 256 →
  lacks_char "." (pretty x) = true ∧ lacks_char "/" (pretty x) = true.
Proof.
  intros Hx.
  assert (forallb (λ x : Z, lacks_char "." (pretty x) && lacks_char "/" (pretty x))
            (seqZ 0 256) = true) as Hall by (vm_compute; reflexivity).
  rewrite forallb_forall in Hall.
  apply andb_true_iff, Hall, list_elem_of_In, elem_of_seqZ. lia.
Qed.

Lemma string_app_assoc (a b c : string) : (a +:+ b) +:+ c = a +:+ (b +:+ c).
Proof.
  induction a as [|x a IH]; [done|].
  change (String x ((a +:+ b) +:+ c) = String x (a +:+ b +:+ c)). by f_equal.
Qed.

(** The address text followed by a slash determines the address. *)
Lemma ipv4_str_slash_inj (n n' : Z) (r r' : string) :
  0 ≤ n < ipv4_limit → 0 ≤ n' < ipv4_limit →
  ipv4_str n +:+ String "/" r = ipv4_str n' +:+ String "/" r' → n = n'.
Proof.
  unfold ipv4_limit, ipv4_str. intros Hn Hn' Heq.
  rewrite !string_app_assoc in Heq.
  change ("." +:+ ?s) with (String "." s) in Heq.
  pose proof (octet_lacks_separators (n / 16777216 mod 256)) as [H1 _];
    [apply Z.mod_pos_bound; lia|].
  pose proof (octet_lacks_separators (n / 65536 mod 256)) as [H2 _];
    [apply Z.mod_pos_bound; lia|].
  pose proof (octet_lacks_separators (n / 256 mod 256)) as [H3 _];
    [apply Z.mod_pos_bound; lia|].
  pose proof (octet_lacks_separators (n mod 256)) as [_ H4];
    [apply Z.mod_pos_bound; lia|].
  pose proof (octet_lacks_separators (n' / 16777216 mod 256)) as [H1' _];
    [apply Z.mod_pos_bound; lia|].
  pose proof (octet_lacks_separators (n' / 65536 mod 256)) as [H2' _];
    [apply Z.mod_pos_bound; lia|].
  pose proof (octet_lacks_separators (n' / 256 mod 256)) as [H3' _];
    [apply Z.mod_pos_bound; lia|].
  pose proof (octet_lacks_separators (n' mod 256)) as [_ H4'];
    [apply Z.mod_pos_bound; lia|].
  apply cut_at_char_inj in Heq as [E1 Heq]; [|done..].
  apply cut_at_char_inj in Heq as [E2 Heq]; [|done..].
  apply cut_at_char_inj in Heq as [E3 Heq]; [|done..].
  apply cut_at_char_inj in Heq as [E4 _]; [|done..].
  apply (inj pretty) in E1, E2, E3, E4.
  clear -E1 E2 E3 E4 Hn Hn'. Z.div_mod_to_equations. lia.
Qed.

Lemma target_ipconfig_value_inj (n n' : Z) :
  0 ≤ n < ipv4_limit → 0 ≤ n' < ipv4_limit →
  target_ipconfig_value E n = target_ipconfig_value E n' → n = n'.
Proof.
  unfold target_ipconfig_value. intros Hn Hn' Heq.
  apply (inj (String.append "ip=")) in Heq.
  change ("/" +:+ ?s) with (String "/" s) in Heq.
  by eapply ipv4_str_slash_inj.
Qed.
End Addresses.
Lemma strongly_sorted_lt_NoDup (ns : list Z) : StronglySorted Z.lt ns → NoDup ns.
Proof.
  induction 1 as [|n ns _ IH Hall]; constructor; [|done].
  intros Hin. rewrite Forall_forall in Hall. specialize (Hall n Hin). lia.
Qed.

Section Sent.
Context (E : AppConfig) (ssh_key : option string).

Lemma params_lookup_sshkeys ip ns sd k :
  Py.truthy k = true →
  params_to_set E ip ns sd (Some k) !! "sshkeys" = Some (Py.quote k).
Proof. intros Hk. unfold params_to_set. rewrite Hk. by rewrite lookup_insert_eq. Qed.

Lemma sent_attrs_spec (next_ip : Z) (a : string) :
  is_Some (target_params E ssh_key next_ip !! a) ↔ a ∈ sent_attrs E ssh_key.
Proof.
  rewrite <-not_eq_None_Some, target_params_lookup_None.
  split; [apply dec_stable|]. by intros ? ?.
Qed.

Lemma tags_and_name_not_sent :
  ("tags" ∉ sent_attrs E ssh_key) ∧ ("name" ∉ sent_attrs E ssh_key).
Proof.
  unfold sent_attrs. destruct (ipconfig_key_head E) as [rest ->].
  split; intros Hin;
    repeat (apply elem_of_app in Hin as [Hin|Hin]);
    repeat match goal with
           | H : _ ∈ (if ?b then _ else _) |- _ => destruct b
           end;
    repeat (apply elem_of_cons in Hin as [Hin|Hin]; [discriminate|]);
    by apply elem_of_nil in Hin.
Qed.
End Sent.

(** X1.  In one pass of the convergence loop that starts with its cursor
    at an IPv4 address and has an IPv4 address as the end of its range,
    every write carries the target of one cursor position; the positions
    used strictly increase from write to write and all lie between the
    cursor at entry and the end of the range; the written VMs are nodes of
    the pass, in loop order; and the network configs sent for the interface
    are the address texts of those positions and are pairwise different.  So
    no address is handed out twice and none outside the range. *)
Theorem pass_writes_ascend_within_range
    (E : AppConfig) (restart_after force : bool) (ssh_key : option string)
    (ip_range_end_int : Z) (nodes : list VMIdentifier) (st : LoopState) (w : World) :
  0 ≤ next_ip_to_assign_int st →
  ip_range_end_int < ipv4_limit →
  ∃ st' w' ns,
    configure_loop E restart_after force ssh_key ip_range_end_int st nodes w = (Ok st', w') ∧
    Forall2 (λ p n, p.2 = target_params E ssh_key n) (written (calls_since w w')) ns ∧
    StronglySorted Z.lt ns ∧
    Forall (λ n, next_ip_to_assign_int st ≤ n ∧ n ≤ ip_range_end_int) ns ∧
    (written (calls_since w w')).*1 `sublist_of` (sort_key <$> nodes) ∧
    (λ p, p.2 !! ipconfig_key E) <$> written (calls_since w w')
      = (λ n, Some (target_ipconfig_value E n)) <$> ns ∧
    NoDup ((λ p, p.2 !! ipconfig_key E) <$> written (calls_since w w')).
Proof.
  intros Hstart Hend.
  destruct (configure_loop_trace E restart_after force ssh_key ip_range_end_int nodes st w)
    as (st' & w' & ns & Hloop & _ & _ & _ & Hparams & Hsub & Hsorted & Hbounds & _).
  assert (Forall (λ n, next_ip_to_assign_int st ≤ n ∧ n ≤ ip_range_end_int) ns) as Hin.
  { eapply Forall_impl; [exact Hbounds|]. simpl. intros n. lia. }
  assert ((λ p : string * Z * gmap string string, p.2 !! ipconfig_key E)
            <$> written (calls_since w w')
          = (λ n, Some (target_ipconfig_value E n)) <$> ns) as Hsent.
  { clear -Hparams. induction Hparams as [|p n ps ns' Hp _ IH]; [done|].
    rewrite !fmap_cons, IH, Hp. unfold target_params.
    by rewrite params_lookup_ipconfig. }
  exists st', w', ns.
  split; [exact Hloop|]. split; [exact Hparams|]. split; [exact Hsorted|].
  split; [exact Hin|]. split; [exact Hsub|]. split; [exact Hsent|].
  rewrite Hsent. apply NoDup_fmap_2_strong; [|by apply strongly_sorted_lt_NoDup].
  intros n n' Hn Hn' Heq. apply (inj Some) in Heq. rewrite Forall_forall in Hin.
  apply (target_ipconfig_value_inj E); [| |done].
  - specialize (Hin n Hn). lia.
  - specialize (Hin n' Hn'). lia.
Qed.

Lemma pass_writes_ascend_within_range_witness :
  ∃ st' w' ns,
    configure_loop default_config false false None range_end (mkLoop range_start [] [])
      [vm_a; vm_b] (demo_world demo_store) = (Ok st', w') ∧
    Forall2 (λ p n, p.2 = target_params default_config None n)
      (written (calls_since (demo_world demo_store) w')) ns ∧
    StronglySorted Z.lt ns ∧
    Forall (λ n, range_start ≤ n ∧ n ≤ range_end) ns ∧
    (written (calls_since (demo_world demo_store) w')).*1
      `sublist_of` (sort_key <$> [vm_a; vm_b]) ∧
    (λ p, p.2 !! ipconfig_key default_config)
      <$> written (calls_since (demo_world demo_store) w')
      = (λ n, Some (target_ipconfig_value default_config n)) <$> ns ∧
    NoDup ((λ p, p.2 !! ipconfig_key default_config)
             <$> written (calls_since (demo_world demo_store) w')).
Proof.
  apply (pass_writes_ascend_within_range default_config false false None range_end
           [vm_a; vm_b] (mkLoop range_start [] []) (demo_world demo_store));
    by vm_compute.
Defined.

(** The addresses of that pass. *)
Example pass_sends_consecutive_addresses :
  (λ p, p.2 !! "ipconfig0") <$>
    written (calls (configure_loop default_config false false None range_end
                      (mkLoop range_start [] []) [vm_a; vm_b] (demo_world demo_store)).2)
  = [Some "ip=10.10.0.201/24,gw=10.10.0.1"; Some "ip=10.10.0.202/24,gw=10.10.0.1"].
Proof. vm_compute. reflexivity. Qed.

(** X2.  The modification ledger grows by exactly the VMs whose write the
    cluster accepted, in the order the writes were sent, and the
    running-modified list grows by exactly those of them that were observed
    running. *)
Theorem pass_ledger_is_accepted_writes
    (E : AppConfig) (restart_after force : bool) (ssh_key : option string)
    (ip_range_end_int : Z) (nodes : list VMIdentifier) (st : LoopState) (w : World) :
  ∃ st' w' ms,
    configure_loop E restart_after force ssh_key ip_range_end_int st nodes w = (Ok st', w') ∧
    modified_vms st' = modified_vms st ++ ms ∧
    sort_key <$> ms = filter (λ k, write_accepted w k) ((written (calls_since w w')).*1) ∧
    running_modified_vms st' =
      running_modified_vms st ++ filter (λ vm, status vm = Some "running") ms.
Proof.
  destruct (configure_loop_trace E restart_after force ssh_key ip_range_end_int nodes st w)
    as (st' & w' & ns & Hloop & _ & _ & _ & _ & _ & _ & _ & _ & Hledger & ms & rs &
        Hms & Hrs & ->).
  exists st', w', ms. repeat split; try done.
  rewrite Hms, fmap_app in Hledger. by apply app_inv_head in Hledger.
Qed.

(** X3.  Once the cursor has passed the end of the range, the loop skips
    every remaining node: no write is sent, and cursor, ledger and stored
    configurations stay as they are. *)
Theorem pass_after_exhaustion_is_idle
    (E : AppConfig) (restart_after force : bool) (ssh_key : option string)
    (ip_range_end_int : Z) (nodes : list VMIdentifier) (st : LoopState) (w : World) :
  ip_range_end_int < next_ip_to_assign_int st →
  ∃ w', configure_loop E restart_after force ssh_key ip_range_end_int st nodes w
          = (Ok st, w') ∧
        vm_store w' = vm_store w ∧ written (calls_since w w') = [].
Proof. apply configure_loop_exhausted. Qed.

Lemma pass_after_exhaustion_is_idle_witness :
  ∃ w', configure_loop default_config false true None range_end
          (mkLoop (range_end + 1) [] []) [vm_a; vm_b] (demo_world demo_store)
        = (Ok (mkLoop (range_end + 1) [] []), w') ∧
        vm_store w' = demo_store ∧
        written (calls_since (demo_world demo_store) w') = [].
Proof.
  apply (pass_after_exhaustion_is_idle default_config false true None range_end
           [vm_a; vm_b] (mkLoop (range_end + 1) [] []) (demo_world demo_store)).
  vm_compute. reflexivity.
Defined.

(** X4.  Every configuration write of a pass carries the attributes of the
    pass and no other: the interface's network config always, and
    nameserver, search domain and SSH keys exactly when their targets are
    non-empty, with the configured name servers joined by spaces, the
    configured search domain and the URL-quoted key as values.  Tags and
    names in particular are never sent. *)
Theorem pass_sends_only_its_attributes
    (E : AppConfig) (restart_after force : bool) (ssh_key : option string)
    (ip_range_end_int : Z) (nodes : list VMIdentifier) (st : LoopState) (w : World) :
  ∃ st' w',
    configure_loop E restart_after force ssh_key ip_range_end_int st nodes w = (Ok st', w') ∧
    Forall (λ p,
              (∀ a, is_Some (p.2 !! a) ↔ a ∈ sent_attrs E ssh_key) ∧
              (Py.truthy (target_nameserver_value E) = true →
                 p.2 !! "nameserver" = Some (target_nameserver_value E)) ∧
              (∀ sd, K3S_NODE_SEARCH_DOMAIN E = Some sd → Py.truthy sd = true →
                 p.2 !! "searchdomain" = Some sd) ∧
              (∀ k, ssh_key = Some k → Py.truthy k = true →
                 p.2 !! "sshkeys" = Some (Py.quote k)))
      (written (calls_since w w')) ∧
    ("tags" ∉ sent_attrs E ssh_key) ∧ ("name" ∉ sent_attrs E ssh_key).
Proof.
  destruct (configure_loop_trace E restart_after force ssh_key ip_range_end_int nodes st w)
    as (st' & w' & ns & Hloop & _ & _ & _ & Hparams & _).
  exists st', w'. split; [done|]. split; [|apply tags_and_name_not_sent].
  clear -Hparams. induction Hparams as [|p n ps ns' Hp _ IH]; constructor; [|done].
  rewrite Hp. split; [intros a; apply sent_attrs_spec|].
  unfold target_params. split; [apply params_lookup_nameserver|].
  split.
  - intros sd -> Hsd. by apply params_lookup_searchdomain.
  - intros k -> Hk. by apply params_lookup_sshkeys.
Qed.

(** X5.  When key resolution succeeds, the operation ends in
    [ConfigurationError] exactly when the start or the end of the range is
    not a valid address, and then no request has been sent to the cluster
    and nothing is stored differently. *)
Theorem invalid_range_aborts_before_any_call
    (E : AppConfig) (restart_after force : bool) (nodes : list VMIdentifier)
    (w : World) (ssh_key : option string) :
  (_get_ssh_public_key E w).1 = Ok ssh_key →
  ((configure_nodes E restart_after force nodes w).1 = Raise ConfigurationError ↔
     K3S_NODE_IP_RANGE_START E = None ∨ K3S_NODE_IP_RANGE_END E = None) ∧
  (K3S_NODE_IP_RANGE_START E = None ∨ K3S_NODE_IP_RANGE_END E = None →
     calls (configure_nodes E restart_after force nodes w).2 = calls w ∧
     vm_store (configure_nodes E restart_after force nodes w).2 = vm_store w).
Proof.
  intros Hkey.
  destruct (get_ssh_public_key_world E w) as (_ & Hstore & Hcalls).
  unfold configure_nodes, mbind, M_bind.
  destruct (_get_ssh_public_key E w) as [r wk]. simpl in *. subst r.
  set (wa := ((if negb (Py.truthy_opt ssh_key) then logm INFO_YELLOW MsgNoSshKey
               else ret ()) wk).2).
  assert ((if negb (Py.truthy_opt ssh_key) then logm INFO_YELLOW MsgNoSshKey
           else ret ()) wk = (Ok (), wa) ∧ calls wa = calls wk ∧ vm_store wa = vm_store wk)
    as (-> & Hca & Hsa).
  { subst wa. by destruct (negb _). }
  destruct (K3S_NODE_IP_RANGE_START E) as [s|];
    [destruct (K3S_NODE_IP_RANGE_END E) as [e|]|]; simpl.
  2,3: split; [naive_solver|]; intros _; split; congruence.
  split; [|naive_solver].
  destruct (configure_loop_obj_run E restart_after force ssh_key e (sort_nodes nodes)
              (mkLoop s [] []) [] wa) as (st & seen & wb & -> & _ & _).
  simpl. unfold logm, ret, mret, M_ret.
  destruct (bool_decide (running_modified_vms st ≠ []) && negb restart_after);
    destruct (bool_decide (modified_vms st ≠ []) && restart_after);
    try (destruct (modified_vms st) as [|vm vms];
         [simpl|rewrite restart_modified_raises]);
    simpl; naive_solver.
Qed.

Lemma invalid_range_aborts_before_any_call_witness :
  (configure_nodes
     (mkAppConfig "k3s-server" "k3s-agent" "k3s-storage" None (Some range_end)
        "24" "10.10.0.1" ["10.10.0.1"] None 0 None)
     false false [vm_a] (demo_world demo_store)).1 = Raise ConfigurationError.
Proof.
  destruct (invalid_range_aborts_before_any_call
              (mkAppConfig "k3s-server" "k3s-agent" "k3s-storage" None (Some range_end)
                 "24" "10.10.0.1" ["10.10.0.1"] None 0 None)
              false false [vm_a] (demo_world demo_store) None eq_refl) as [Hiff _].
  apply Hiff. by left.
Defined.

(** ** What discovery finds *)

Section DiscoveryTrace.
Context (E : AppConfig).

Lemma remote_config_same_store (w w' : World) k :
  same_remote w w' → vm_store w' = vm_store w → remote_config w' k = remote_config w k.
Proof. intros Hsame Hstore. apply remote_config_same; [done|by rewrite Hstore]. Qed.

Lemma found_same (w w' : World) sel node_name vmids :
  same_remote w w' → vm_store w' = vm_store w →
  found w' sel node_name vmids = found w sel node_name vmids.
Proof.
  intros Hsame Hstore. unfold found. apply list_omap_ext, Forall2_same_length_lookup.
  split; [done|]. intros i x y Hx Hy. simplify_eq.
  by rewrite (remote_config_same_store w w').
Qed.

Lemma vms_on_node_same (w w' : World) node_name :
  same_remote w w' → vms_on_node w' node_name = vms_on_node w node_name.
Proof. intros (_ & Hq & _). unfold vms_on_node. by rewrite Hq. Qed.

(** One VM: a read of its attribute map, and the lists grow by what
    [found] says. *)
Lemma discover_vm_fields p_node_name m vmid w :
  ∃ m' w',
    discover_vm E p_node_name m vmid w = (Ok m', w') ∧
    same_remote w w' ∧ vm_store w' = vm_store w ∧
    calls w' = calls w ++ [CallConfigGet p_node_name vmid] ∧
    servers m' = servers m ++ found w (is_server_tags E) p_node_name [vmid] ∧
    agents m' = agents m ++ found w (is_agent_tags E) p_node_name [vmid] ∧
    storage m' = storage m ++ found w (is_storage_tags E) p_node_name [vmid] ∧
    all_nodes m' = all_nodes m ++ found w (is_role_tags E) p_node_name [vmid].
Proof.
  unfold discover_vm, found, remote_config, is_role_tags, is_server_tags, is_agent_tags,
    is_storage_tags, vm_tags_of, discovered_vm. run.
  destruct (config_get_fails w p_node_name vmid); simpl.
  { eexists _, _. split; [done|]. rewrite !app_nil_r. by repeat split. }
  destruct (vm_store w !! (p_node_name, vmid)) as [c|]; simpl.
  2: { eexists _, _. split; [done|]. rewrite !app_nil_r. by repeat split. }
  case_bool_decide as Htags.
  { rewrite Htags. rewrite !bool_decide_eq_false_2 by apply not_elem_of_nil. simpl.
    eexists _, _. split; [done|]. rewrite !app_nil_r. by repeat split. }
  destruct (bool_decide (SERVER_TAG E ∈ _)), (bool_decide (AGENT_TAG E ∈ _)),
    (bool_decide (STORAGE_TAG E ∈ _)); simpl;
    eexists _, _; (split; [done|]); rewrite ?app_nil_r; by repeat split.
Qed.

Lemma discover_vms_fields p_node_name vmids :
  ∀ m w, ∃ m' w',
    for_each (discover_vm E p_node_name) m vmids w = (Ok m', w') ∧
    same_remote w w' ∧ vm_store w' = vm_store w ∧
    calls w' = calls w ++ (CallConfigGet p_node_name <$> vmids) ∧
    servers m' = servers m ++ found w (is_server_tags E) p_node_name vmids ∧
    agents m' = agents m ++ found w (is_agent_tags E) p_node_name vmids ∧
    storage m' = storage m ++ found w (is_storage_tags E) p_node_name vmids ∧
    all_nodes m' = all_nodes m ++ found w (is_role_tags E) p_node_name vmids.
Proof.
  induction vmids as [|vmid vmids IH]; intros m w.
  { exists m, w. split; [done|]. split; [apply same_remote_refl|].
    unfold found. simpl. rewrite !app_nil_r. by repeat split. }
  destruct (discover_vm_fields p_node_name m vmid w)
    as (m1 & w1 & Hvm & Hsame1 & Hst1 & Hc1 & Hs1 & Ha1 & Hg1 & Hn1).
  destruct (IH m1 w1) as (m' & w' & Hloop & Hsame2 & Hst2 & Hc2 & Hs2 & Ha2 & Hg2 & Hn2).
  exists m', w'. split.
  { simpl. unfold mbind, M_bind. by rewrite Hvm. }
  split; [by eapply same_remote_trans|]. split; [congruence|].
  rewrite !(found_same w w1) in * by done.
  rewrite Hc2, Hc1, Hs2, Hs1, Ha2, Ha1, Hg2, Hg1, Hn2, Hn1, <-!app_assoc.
  change (vmid :: vmids) with ([vmid] ++ vmids). unfold found.
  rewrite !omap_app, fmap_app. by repeat split.
Qed.

Lemma discover_host_fields m p_node_name w :
  ∃ m' w',
    discover_host E m p_node_name w = (Ok m', w') ∧
    same_remote w w' ∧ vm_store w' = vm_store w ∧
    (∃ cs, calls w' = calls w ++ cs ∧ Forall is_read cs) ∧
    servers m' = servers m ++ found_all w (is_server_tags E) [p_node_name] ∧
    agents m' = agents m ++ found_all w (is_agent_tags E) [p_node_name] ∧
    storage m' = storage m ++ found_all w (is_storage_tags E) [p_node_name] ∧
    all_nodes m' = all_nodes m ++ found_all w (is_role_tags E) [p_node_name].
Proof.
  unfold found_all. simpl. rewrite !app_nil_r.
  unfold discover_host, get_vms_on_node, vms_on_node. run.
  destruct (qemu_get w p_node_name) as [vms_data|] eqn:Hq; simpl.
  - match goal with |- context [for_each _ m ?vmids ?w1] =>
      destruct (discover_vms_fields p_node_name vmids m w1)
        as (m' & w' & -> & Hsame & Hst & Hc & Hs & Ha & Hg & Hn) end.
    exists m', w'. split; [done|].
    split; [destruct Hsame as (?&?&?&?&?&?&?&?); by repeat split|].
    split; [done|]. split.
    { eexists. rewrite Hc. simpl. rewrite <-app_assoc. split; [done|].
      constructor; [done|]. apply Forall_fmap, Forall_forall. by intros. }
    rewrite Hs, Ha, Hg, Hn.
    by repeat split.
  - exists m. eexists. split; [done|]. split; [by repeat split|]. split; [done|].
    split; [eexists; split; [done|]; by repeat constructor|].
    unfold found. simpl. rewrite !app_nil_r. by repeat split.
Qed.

Lemma found_all_same (w w' : World) sel hosts :
  same_remote w w' → vm_store w' = vm_store w →
  found_all w' sel hosts = found_all w sel hosts.
Proof.
  intros Hsame Hstore. unfold found_all.
  induction hosts as [|h hosts IH]; [done|]. csimpl.
  by rewrite IH, (vms_on_node_same w w'), (found_same w w').
Qed.

Lemma found_all_app (w : World) sel hosts1 hosts2 :
  found_all w sel (hosts1 ++ hosts2) = found_all w sel hosts1 ++ found_all w sel hosts2.
Proof. unfold found_all. by rewrite bind_app. Qed.

Lemma discover_hosts_fields hosts :
  ∀ m w, ∃ m' w',
    for_each (discover_host E) m hosts w = (Ok m', w') ∧
    same_remote w w' ∧ vm_store w' = vm_store w ∧
    (∃ cs, calls w' = calls w ++ cs ∧ Forall is_read cs) ∧
    servers m' = servers m ++ found_all w (is_server_tags E) hosts ∧
    agents m' = agents m ++ found_all w (is_agent_tags E) hosts ∧
    storage m' = storage m ++ found_all w (is_storage_tags E) hosts ∧
    all_nodes m' = all_nodes m ++ found_all w (is_role_tags E) hosts.
Proof.
  induction hosts as [|h hosts IH]; intros m w.
  { exists m, w. split; [done|]. split; [apply same_remote_refl|]. split; [done|].
    split; [exists []; by rewrite app_nil_r|].
    unfold found_all. simpl. rewrite !app_nil_r. by repeat split. }
  destruct (discover_host_fields m h w)
    as (m1 & w1 & Hh & Hsame1 & Hst1 & (cs1 & Hc1 & Hr1) & Hs1 & Ha1 & Hg1 & Hn1).
  destruct (IH m1 w1)
    as (m' & w' & Hloop & Hsame2 & Hst2 & (cs2 & Hc2 & Hr2) & Hs2 & Ha2 & Hg2 & Hn2).
  exists m', w'. split.
  { simpl. unfold mbind, M_bind. by rewrite Hh. }
  split; [by eapply same_remote_trans|]. split; [congruence|].
  split.
  { exists (cs1 ++ cs2). rewrite Hc2, Hc1, <-app_assoc. split; [done|].
    by apply Forall_app. }
  rewrite !(found_all_same w w1) in * by done.
  rewrite Hs2, Hs1, Ha2, Ha1, Hg2, Hg1, Hn2, Hn1, <-!app_assoc.
  change (h :: hosts) with ([h] ++ hosts). rewrite !found_all_app. by repeat split.
Qed.
End DiscoveryTrace.

Section DiscoveryResult.
Context (E : AppConfig).

Lemma list_set_subset {A} `{EqDecision K} (key : A → K) (l : list A) x :
  x ∈ Py.list_set key l → x ∈ l.
Proof.
  revert x. induction l as [|y l IH]; intros x; simpl; [done|].
  rewrite !elem_of_cons, list_elem_of_filter. naive_solver.
Qed.

Lemma list_set_keys {A} `{EqDecision K} (key : A → K) (l : list A) k :
  k ∈ key <$> Py.list_set key l ↔ k ∈ key <$> l.
Proof.
  induction l as [|y l IH]; csimpl; [done|].
  rewrite !elem_of_cons, <-IH, !list_elem_of_fmap.
  split.
  - intros [->|(x & -> & [_ Hx]%list_elem_of_filter)]; [by left|right; eauto].
  - intros [->|(x & -> & Hx)]; [by left|].
    destruct (decide (key x = key y)) as [?|Hne]; [by left|].
    right. exists x. split; [done|]. by apply list_elem_of_filter.
Qed.

Lemma list_set_NoDup {A} `{EqDecision K} (key : A → K) (l : list A) :
  NoDup (key <$> Py.list_set key l).
Proof.
  induction l as [|y l IH]; csimpl; [constructor|].
  constructor.
  - rewrite list_elem_of_fmap. intros (x & Hk & [Hne _]%list_elem_of_filter). done.
  - revert IH. generalize (Py.list_set key l). intros l' Hnd.
    induction l' as [|z l' IH']; [constructor|].
    rewrite fmap_cons in Hnd. apply NoDup_cons in Hnd as [Hz Hnd].
    rewrite filter_cons. destruct (decide (key z ≠ key y)); [|by apply IH'].
    rewrite fmap_cons. constructor; [|by apply IH'].
    rewrite list_elem_of_fmap. intros (x & Hk & [_ Hx]%list_elem_of_filter).
    apply Hz. rewrite Hk. by apply list_elem_of_fmap_2.
Qed.

Lemma elem_of_found_all (w : World) sel hosts vm :
  vm ∈ found_all w sel hosts ↔
    ∃ h v c, h ∈ hosts ∧ v ∈ vms_on_node w h ∧ remote_config w (h, v) = Some c ∧
             sel (vm_tags_of c) = true ∧ vm = discovered_vm h v c.
Proof.
  unfold found_all, found. rewrite list_elem_of_bind. split.
  - intros (h & Hvm & Hh). apply list_elem_of_omap in Hvm as (v & Hv & Hsome).
    destruct (remote_config w (h, v)) as [c|] eqn:Hc; [|done].
    destruct (sel (vm_tags_of c)) eqn:Hsel; [|done].
    injection Hsome as <-. by exists h, v, c.
  - intros (h & v & c & Hh & Hv & Hc & Hsel & ->). exists h. split; [|done].
    apply list_elem_of_omap. exists v. split; [done|]. by rewrite Hc, Hsel.
Qed.

Lemma found_all_keys (w : World) sel hosts k :
  k ∈ sort_key <$> found_all w sel hosts ↔
    k.1 ∈ hosts ∧ k.2 ∈ vms_on_node w k.1 ∧ tagged w sel k.
Proof.
  rewrite list_elem_of_fmap. unfold tagged. split.
  - intros (vm & -> & (h & v & c & Hh & Hv & Hc & Hsel & ->)%elem_of_found_all).
    simpl. eauto.
  - intros (Hh & Hv & c & Hc & Hsel). destruct k as [h v]. simpl in *.
    exists (discovered_vm h v c). split; [done|].
    apply elem_of_found_all. by exists h, v, c.
Qed.

Lemma tagged_role (w : World) k :
  tagged w (is_role_tags E) k ↔
    tagged w (is_server_tags E) k ∨ tagged w (is_agent_tags E) k ∨
    tagged w (is_storage_tags E) k.
Proof.
  unfold tagged, is_role_tags. split.
  - intros (c & Hc & Hsel).
    apply orb_true_iff in Hsel as [[?|?]%orb_true_iff|?]; eauto.
  - intros [(c & Hc & Hsel)|[(c & Hc & Hsel)|(c & Hc & Hsel)]];
      exists c; (split; [done|]); rewrite Hsel; by rewrite ?orb_true_r.
Qed.

(** Whatever its outcome, discovery only reads. *)
Lemma discover_reads_only m w :
  same_remote w (discover_nodes_by_tags E m w).2 ∧
  vm_store (discover_nodes_by_tags E m w).2 = vm_store w ∧
  ∃ cs, calls (discover_nodes_by_tags E m w).2 = calls w ++ cs ∧ Forall is_read cs.
Proof.
  unfold discover_nodes_by_tags, get_proxmox_cluster_nodes. run.
  destruct (nodes_get w) as [nodes_data|]; simpl.
  2: { split; [by repeat split|]. split; [done|]. eexists. split; [done|].
       by repeat constructor. }
  case_bool_decide; simpl.
  { split; [by repeat split|]. split; [done|]. eexists. split; [done|].
    by repeat constructor. }
  match goal with |- context [for_each (discover_host E) m ?hosts ?w1] =>
    destruct (discover_hosts_fields E hosts m w1)
      as (m1 & w1' & -> & Hsame & Hst & (cs & Hc & Hr) & _) end.
  simpl in *.
  assert (same_remote w w1') as Hsame'.
  { destruct Hsame as (?&?&?&?&?&?&?&?). by repeat split. }
  destruct (bool_decide (_ = [])); simpl.
  all: split; [destruct Hsame' as (?&?&?&?&?&?&?&?); by repeat split|].
  all: split; [done|]; exists (CallNodesGet :: cs); rewrite Hc, <-app_assoc.
  all: split; [done|]; by constructor.
Qed.

(** A discovery that returns: the lists it leaves. *)
Lemma discover_lists m w m' w' :
  discover_nodes_by_tags E m w = (Ok m', w') →
  host_names w ≠ [] ∧
  servers m' = sort_nodes (Py.list_set sort_key
                 (servers m ++ found_all w (is_server_tags E) (host_names w))) ∧
  agents m' = sort_nodes (Py.list_set sort_key
                 (agents m ++ found_all w (is_agent_tags E) (host_names w))) ∧
  storage m' = sort_nodes (Py.list_set sort_key
                 (storage m ++ found_all w (is_storage_tags E) (host_names w))) ∧
  all_nodes m' = sort_nodes (Py.list_set sort_key
                 (all_nodes m ++ found_all w (is_role_tags E) (host_names w))) ∧
  server_master m' = head (servers m') ∧
  servers_no_first m' = tail (servers m').
Proof.
  unfold discover_nodes_by_tags, get_proxmox_cluster_nodes, host_names. run.
  destruct (nodes_get w) as [nodes_data|]; simpl; [|done].
  case_bool_decide as Hhosts; simpl; [done|].
  match goal with |- context [for_each (discover_host E) m ?hosts ?w1] =>
    destruct (discover_hosts_fields E hosts m w1)
      as (m1 & w1' & -> & _ & _ & _ & Hs & Ha & Hg & Hn);
    rewrite !(found_all_same w w1) in * by (by repeat split)
  end.
  intros Hret. split; [done|].
  assert (m' = _populate_node_lists
                 (with_lists m1 (Py.list_set sort_key (servers m1))
                    (Py.list_set sort_key (agents m1)) (Py.list_set sort_key (storage m1))
                    (Py.list_set sort_key (all_nodes m1)))) as ->.
  { destruct (bool_decide (_ = [])); simpl in Hret; by injection Hret as <- _. }
  match goal with |- context [_populate_node_lists ?m2] =>
    destruct (populate_fields m2) as (-> & -> & -> & -> & -> & ->) end.
  simpl. by rewrite Hs, Ha, Hg, Hn.
Qed.
End DiscoveryResult.

(** X6.  Starting without nodes, a discovery that returns has classified
    exactly the VMs it could see: a (host, id) pair is in the server list
    exactly when its host was enumerated, the host listed the id, the VM's
    attribute map could be read and its parsed tags hold the server tag;
    likewise for agents and storage; and the all-nodes list holds exactly
    the pairs that are in at least one role list.  Every node of every
    list is the object discovery builds from the attribute map the cluster
    stores for that VM: it carries that map, the tags parsed from it and its
    name. *)
Theorem discovery_classifies_by_tag (E : AppConfig) (m m' : Manager) (w w' : World) :
  no_nodes m →
  discover_nodes_by_tags E m w = (Ok m', w') →
  (∀ k, (k ∈ sort_key <$> servers m' ↔ visited w k ∧ tagged w (is_server_tags E) k) ∧
        (k ∈ sort_key <$> agents m' ↔ visited w k ∧ tagged w (is_agent_tags E) k) ∧
        (k ∈ sort_key <$> storage m' ↔ visited w k ∧ tagged w (is_storage_tags E) k) ∧
        (k ∈ sort_key <$> all_nodes m' ↔
           k ∈ sort_key <$> servers m' ∨ k ∈ sort_key <$> agents m' ∨
           k ∈ sort_key <$> storage m')) ∧
  Forall (λ vm, ∃ vm_config,
            remote_config w' (sort_key vm) = Some vm_config ∧
            vm = discovered_vm (proxmox_node vm) (vmid vm) vm_config ∧
            config vm = vm_config)
    (servers m' ++ agents m' ++ storage m' ++ all_nodes m').
Proof.
  intros (Hs0 & Ha0 & Hg0 & Hn0) Hrun.
  destruct (discover_lists E m w m' w' Hrun) as (_ & Hs & Ha & Hg & Hn & _).
  rewrite Hs0 in Hs. rewrite Ha0 in Ha. rewrite Hg0 in Hg. rewrite Hn0 in Hn.
  simpl in Hs, Ha, Hg, Hn.
  assert (∀ sel k,
            k ∈ sort_key <$> sort_nodes (Py.list_set sort_key (found_all w sel (host_names w)))
            ↔ visited w k ∧ tagged w sel k) as Hkeys.
  { intros sel k. rewrite sort_nodes_perm, list_set_keys, found_all_keys.
    unfold visited. naive_solver. }
  split.
  - intros k. rewrite Hs, Ha, Hg, Hn, !Hkeys. do 3 (split; [done|]).
    rewrite (tagged_role E). tauto.
  - assert (∀ sel vm,
              vm ∈ sort_nodes (Py.list_set sort_key (found_all w sel (host_names w))) →
              ∃ vm_config,
                remote_config w' (sort_key vm) = Some vm_config ∧
                vm = discovered_vm (proxmox_node vm) (vmid vm) vm_config ∧
                config vm = vm_config) as Hbuilt.
    { intros sel vm Hvm.
      rewrite sort_nodes_perm in Hvm. apply list_set_subset in Hvm.
      apply elem_of_found_all in Hvm as (h & v & c & _ & _ & Hc & _ & ->).
      exists c. simpl. split; [|done].
      destruct (discover_reads_only E m w) as (Hsame & Hst & _). rewrite Hrun in *.
      simpl in *. by rewrite (remote_config_same_store w w'). }
    rewrite Hs, Ha, Hg, Hn, !Forall_app, !Forall_forall.
    split_and!; intros vm Hvm; by eapply Hbuilt.
Qed.

Lemma discovery_classifies_by_tag_witness :
  ("pve1", 100) ∈ sort_key <$>
    servers (match (discover_nodes_by_tags default_config empty_manager
                      (demo_world demo_store)).1 with
             | Ok m' => m'
             | Raise _ => empty_manager
             end).
Proof.
  destruct (discover_nodes_by_tags default_config empty_manager (demo_world demo_store))
    as [[m'|e] w'] eqn:Hrun; [|vm_compute in Hrun; discriminate].
  destruct (discovery_classifies_by_tag default_config empty_manager m'
              (demo_world demo_store) w') as [Hclass _]; [by repeat split|exact Hrun|].
  simpl. apply Hclass. split.
  - split; apply (bool_decide_eq_true_1 _); vm_compute; reflexivity.
  - exists {["tags" := "k3s-server"]}. split; vm_compute; reflexivity.
Defined.

(** What discovery leaves on the sample cluster: the server with the
    attribute map the cluster stores for it. *)
Example discovery_carries_stored_config :
  (λ vm, (sort_key vm, tags vm, map_to_list (config vm))) <$>
    match (discover_nodes_by_tags default_config empty_manager
             (demo_world demo_store)).1 with
    | Ok m' => servers m'
    | Raise _ => []
    end
  = [(("pve1", 100), ["k3s-server"], [("tags", "k3s-server")])].
Proof. vm_compute. reflexivity. Qed.

(** X7.  Whatever lists the manager held before, a discovery that returns
    leaves every role list and the all-nodes list free of duplicates and
    strictly ascending in (host, id), with the master the first server and
    the other servers the rest. *)
Theorem discovery_leaves_sorted_distinct_lists
    (E : AppConfig) (m m' : Manager) (w w' : World) :
  discover_nodes_by_tags E m w = (Ok m', w') →
  StronglySorted vm_lt (servers m') ∧ StronglySorted vm_lt (agents m') ∧
  StronglySorted vm_lt (storage m') ∧ StronglySorted vm_lt (all_nodes m') ∧
  server_master m' = head (servers m') ∧ servers_no_first m' = tail (servers m').
Proof.
  intros Hrun.
  destruct (discover_lists E m w m' w' Hrun) as (_ & -> & -> & -> & -> & Hm & Hr).
  repeat split; try done; apply sort_nodes_strict, list_set_NoDup.
Qed.

Lemma discovery_leaves_sorted_distinct_lists_witness :
  StronglySorted vm_lt
    (all_nodes (match (discover_nodes_by_tags default_config demo_manager
                         (demo_world demo_store)).1 with
                | Ok m' => m'
                | Raise _ => empty_manager
                end)).
Proof.
  destruct (discover_nodes_by_tags default_config demo_manager (demo_world demo_store))
    as [[m'|e] w'] eqn:Hrun; [|vm_compute in Hrun; discriminate].
  simpl.
  by destruct (discovery_leaves_sorted_distinct_lists default_config demo_manager m'
                 (demo_world demo_store) w' Hrun) as (_ & _ & _ & Hall & _).
Defined.

(** X8.  Discovery never changes the cluster: whether it returns or
    raises, every request it sent is a read (host list, VM list, attribute
    map) and every stored configuration is as before. *)
Theorem discovery_only_reads (E : AppConfig) (m : Manager) (w : World) :
  vm_store (discover_nodes_by_tags E m w).2 = vm_store w ∧
  Forall is_read (calls_since w (discover_nodes_by_tags E m w).2) ∧
  written (calls_since w (discover_nodes_by_tags E m w).2) = [] ∧
  posted (calls_since w (discover_nodes_by_tags E m w).2) = [].
Proof.
  destruct (discover_reads_only E m w) as (_ & Hst & cs & Hc & Hr).
  split; [done|]. unfold calls_since. rewrite Hc, drop_app_length.
  split; [done|]. clear Hc.
  induction Hr as [|c cs Hread _ IH]; [done|].
  destruct IH as [IHw IHp]. unfold written, posted in *. simpl.
  destruct c; try done; simpl; by rewrite ?IHw, ?IHp.
Qed.

(** ** The listing calls *)

Section ListingSorted.
Context {A : Type} (lt : A → A → bool) (le : relation A).
Context (lt_le : ∀ x y, lt x y = false ↔ le y x).
Context (lt_asym : ∀ x y, lt x y = true → lt y x = false).

Lemma insert_sorted_id_perm (x : A) l : Py.insert_sorted id lt x l ≡ₚ x :: l.
Proof.
  induction l as [|y l IH]; simpl; [done|].
  destruct (lt _ _); [|done]. rewrite IH. apply Permutation_swap.
Qed.

Lemma sorted_id_perm l : Py.sorted id lt l ≡ₚ l.
Proof.
  induction l as [|x l IH]; [done|]. simpl.
  by rewrite insert_sorted_id_perm, IH.
Qed.

Lemma insert_sorted_id_Sorted (x : A) l :
  Sorted le l → Sorted le (Py.insert_sorted id lt x l).
Proof.
  induction 1 as [|y l Hl IH Hhd]; simpl; [repeat constructor|].
  unfold id. destruct (lt y x) eqn:Hyx.
  - constructor; [done|].
    destruct Hhd as [|z l Hz]; simpl.
    + constructor. by apply lt_le, lt_asym.
    + unfold id. destruct (lt z x); constructor; [done|]. by apply lt_le, lt_asym.
  - constructor; [by constructor|]. constructor. by apply lt_le.
Qed.

Lemma sorted_id_Sorted l : Sorted le (Py.sorted id lt l).
Proof.
  induction l as [|x l IH]; [constructor|]. simpl. by apply insert_sorted_id_Sorted.
Qed.
End ListingSorted.

Lemma string_ltb_le (x y : string) : String.ltb x y = false ↔ String.le y x.
Proof.
  rewrite string_ltb_leb, negb_false_iff. unfold String.le. split.
  - apply Is_true_true_2.
  - apply Is_true_true_1.
Qed.

Lemma string_ltb_asym (x y : string) : String.ltb x y = true → String.ltb y x = false.
Proof.
  intros Hlt. apply string_ltb_le.
  destruct (total String.le x y) as [|Hyx]; [done|].
  apply string_ltb_le in Hyx. congruence.
Qed.

(** X9.  [get_proxmox_cluster_nodes] raises [ProxmoxError] when the
    cluster's host listing fails; otherwise it returns the host names the
    listing carries (entries without a name dropped) in ascending order, and
    the result does not depend on the order in which the cluster lists its
    hosts. *)
Theorem cluster_nodes_sorted_whatever_the_listing_order (w : World) :
  (nodes_get w = None → (get_proxmox_cluster_nodes w).1 = Raise ProxmoxError) ∧
  (∀ nodes_data, nodes_get w = Some nodes_data →
     ∃ node_names,
       (get_proxmox_cluster_nodes w).1 = Ok node_names ∧
       Sorted String.le node_names ∧
       node_names ≡ₚ omap (λ node_info, node_info !! "node") nodes_data ∧
       ∀ w2 nodes_data2,
         nodes_get w2 = Some nodes_data2 → nodes_data2 ≡ₚ nodes_data →
         (get_proxmox_cluster_nodes w2).1 = Ok node_names).
Proof.
  unfold get_proxmox_cluster_nodes. run. split.
  - by intros ->.
  - intros nodes_data ->. simpl. eexists. split; [done|].
    split; [apply (sorted_id_Sorted _ _ string_ltb_le string_ltb_asym)|].
    split; [apply sorted_id_perm|].
    intros w2 nodes_data2 -> Hperm. simpl. f_equal.
    apply (Sorted_unique String.le);
      try apply (sorted_id_Sorted _ _ string_ltb_le string_ltb_asym).
    by rewrite !sorted_id_perm, Hperm.
Qed.

Lemma cluster_nodes_sorted_whatever_the_listing_order_witness :
  (get_proxmox_cluster_nodes
     (mkWorld (Some [{["node" := "pve2"]}; ∅; {["node" := "pve1"]}]) (λ _, None) ∅
        (λ _ _, false) (λ _ _, false) (λ _ _, None) (λ _ _ _, None)
        CfAbsent KfAbsent [] [])).1
  = Ok ["pve1"; "pve2"].
Proof.
  destruct (cluster_nodes_sorted_whatever_the_listing_order
              (mkWorld (Some [{["node" := "pve1"]}; {["node" := "pve2"]}; ∅]) (λ _, None) ∅
                 (λ _ _, false) (λ _ _, false) (λ _ _, None) (λ _ _ _, None)
                 CfAbsent KfAbsent [] [])) as [_ Hsome].
  destruct (Hsome _ eq_refl) as (node_names & Hrun & _ & _ & Hany).
  vm_compute in Hrun. injection Hrun as <-.
  refine (Hany (mkWorld (Some [{["node" := "pve2"]}; ∅; {["node" := "pve1"]}]) (λ _, None) ∅
                 (λ _ _, false) (λ _ _, false) (λ _ _, None) (λ _ _ _, None)
                 CfAbsent KfAbsent [] []) _ eq_refl _).
  etrans; [apply perm_skip, perm_swap | apply perm_swap].
Defined.

(** X10.  [get_vms_on_node] never raises: a failed listing is answered
    with the empty list and a warning in the log.  A listing that succeeds
    is answered with the ids it carries (entries without an id dropped) in
    ascending order. *)
Theorem vms_on_node_never_raises (node_name : string) (w : World) :
  ∃ vmids,
    (get_vms_on_node node_name w).1 = Ok vmids ∧
    Sorted Z.le vmids ∧
    match qemu_get w node_name with
    | Some vms_data => vmids ≡ₚ omap id vms_data
    | None =>
        vmids = [] ∧
        log_since w (get_vms_on_node node_name w).2
          = [(INFO_YELLOW, MsgVmsOnNodeFailed node_name)]
    end.
Proof.
  unfold get_vms_on_node. run.
  destruct (qemu_get w node_name) as [vms_data|]; simpl.
  - eexists. split; [done|]. split; [|apply sorted_id_perm].
    apply (sorted_id_Sorted Z.ltb Z.le); intros x y; lia.
  - exists []. split; [done|]. split; [constructor|]. split; [done|]. by since.
Qed.

(** ** Making sure there are nodes *)

Section EnsureNodes.
Context (E : AppConfig).

Lemma load_nodes_world m w : (load_nodes_from_config_file E m w).2 = w.
Proof.
  unfold load_nodes_from_config_file. run.
  destruct (node_config_file w) as [| | |f|data]; simpl; try done.
  destruct (load_data E data) as [[[s a] g]|e]; done.
Qed.

(** The loader's result, by what the file holds. *)
Lemma load_nodes_result m w :
  load_nodes_from_config_file E m w =
    (match node_config_file w with
     | CfAbsent => Ok (false, m)
     | CfIOError | CfInvalidJson => Raise ConfigurationError
     | CfLoadRaises f => Raise (load_failure_exn f)
     | CfJson data =>
         match load_data E data with
         | Ok (s, a, g) =>
             Ok (true, _populate_node_lists
                         (with_lists m s a g (Py.list_set sort_key (s ++ a ++ g))))
         | Raise e => Raise e
         end
     end, w).
Proof.
  unfold load_nodes_from_config_file. run.
  destruct (node_config_file w) as [| | |f|data]; simpl; try done.
  destruct (load_data E data) as [[[s a] g]|e]; done.
Qed.

(** [ensure_nodes_are_discovered], step by step. *)
Lemma ensure_cases d m w :
  ensure_nodes_are_discovered E d m w =
    if bool_decide (all_nodes m ≠ []) then (Ok m, w)
    else
      match load_nodes_from_config_file E m w with
      | (Ok (loaded, m1), w1) =>
          if loaded && bool_decide (all_nodes m1 ≠ []) then (Ok m1, w1)
          else
            let w2 := if loaded then add_log (INFO_YELLOW, MsgConfigFileNoNodes) w1
                      else w1 in
            if d then
              match discover_nodes_by_tags E m1 w2 with
              | (Ok m2, w3) =>
                  if bool_decide (all_nodes m2 ≠ []) then (Ok m2, w3)
                  else (Raise NodeDiscoveryError, w3)
              | (Raise e, w3) => (Raise e, w3)
              end
            else (Raise NodeDiscoveryError, w2)
      | (Raise e, w1) => (Raise e, w1)
      end.
Proof.
  unfold ensure_nodes_are_discovered. case_bool_decide; [done|].
  unfold mbind, M_bind at 1.
  destruct (load_nodes_from_config_file E m w) as [[[loaded m1]|e] w1]; [|done].
  destruct (loaded && _); [done|]. run.
  destruct loaded, d; simpl; try done.
  all: match goal with |- context [discover_nodes_by_tags ?E0 ?m0 ?w0] =>
         destruct (discover_nodes_by_tags E0 m0 w0) as [[m2|e] w3] end; simpl; try done.
  all: by destruct (bool_decide (_ ≠ [])).
Qed.

(** Whatever its outcome, [ensure_nodes_are_discovered] only reads, and it
    sends nothing when discovery is switched off. *)
Lemma ensure_reads_only d m w :
  same_remote w (ensure_nodes_are_discovered E d m w).2 ∧
  vm_store (ensure_nodes_are_discovered E d m w).2 = vm_store w ∧
  ∃ cs, calls (ensure_nodes_are_discovered E d m w).2 = calls w ++ cs ∧
        Forall is_read cs ∧ (d = false → cs = []).
Proof.
  assert (∀ w0, same_remote w0 w0 ∧ vm_store w0 = vm_store w0 ∧
                ∃ cs, calls w0 = calls w0 ++ cs ∧ Forall is_read cs ∧ (d = false → cs = []))
    as Hidle.
  { intros w0. split; [apply same_remote_refl|]. split; [done|]. exists [].
    by rewrite app_nil_r. }
  assert (∀ w0 l, same_remote w0 (add_log l w0) ∧ vm_store (add_log l w0) = vm_store w0 ∧
                ∃ cs, calls (add_log l w0) = calls w0 ++ cs ∧ Forall is_read cs ∧
                      (d = false → cs = [])) as Hlog.
  { intros w0 l. split; [by repeat split|]. split; [done|]. exists [].
    by rewrite app_nil_r. }
  rewrite ensure_cases. case_bool_decide; [apply Hidle|].
  pose proof (load_nodes_world m w) as Hw.
  destruct (load_nodes_from_config_file E m w) as [[[loaded m1]|e] w1]; simpl in Hw;
    subst w1; [|apply Hidle].
  destruct (loaded && _); [apply Hidle|]. simpl.
  destruct d; [|destruct loaded; [apply Hlog|apply Hidle]].
  match goal with |- context [discover_nodes_by_tags E m1 ?w0] =>
    destruct (discover_reads_only E m1 w0) as (Hsame & Hst & cs & Hc & Hr);
    destruct (discover_nodes_by_tags E m1 w0) as [[m2|e] w3] end; simpl in *.
  - destruct (bool_decide (all_nodes m2 ≠ [])); simpl.
    all: split; [destruct loaded, Hsame as (?&?&?&?&?&?&?&?); by repeat split|].
    all: split; [by destruct loaded|]; exists cs; by destruct loaded.
  - split; [destruct loaded, Hsame as (?&?&?&?&?&?&?&?); by repeat split|].
    split; [by destruct loaded|]. exists cs. by destruct loaded.
Qed.

Lemma ensure_postcondition d m w m' :
  (ensure_nodes_are_discovered E d m w).1 = Ok m' → all_nodes m' ≠ [].
Proof.
  rewrite ensure_cases. case_bool_decide as Hm; [by intros [= <-]|].
  destruct (load_nodes_from_config_file E m w) as [[[loaded m1]|e] w1]; [|done].
  destruct loaded; simpl.
  - case_bool_decide; simpl; [by intros [= <-]|].
    destruct d; [|done].
    match goal with |- context [discover_nodes_by_tags E m1 ?w0] =>
      destruct (discover_nodes_by_tags E m1 w0) as [[m2|e] w3] end; simpl; [|done].
    case_bool_decide; simpl; [by intros [= <-]|done].
  - destruct d; [|done].
    destruct (discover_nodes_by_tags E m1 w1) as [[m2|e] w3]; simpl; [|done].
    case_bool_decide; simpl; [by intros [= <-]|done].
Qed.
End EnsureNodes.

(** X11.  [ensure_nodes_are_discovered] returns only with a non-empty
    all-nodes list; a manager that already holds nodes is handed back as it
    is, with nothing sent and nothing logged.  Whether it returns or raises,
    every request it sends is a read and every stored configuration is as
    before; with discovery switched off it sends no request at all. *)
Theorem ensure_returns_only_with_nodes
    (E : AppConfig) (discover_if_empty : bool) (m : Manager) (w : World) :
  (∀ m', (ensure_nodes_are_discovered E discover_if_empty m w).1 = Ok m' →
         all_nodes m' ≠ []) ∧
  (all_nodes m ≠ [] → ensure_nodes_are_discovered E discover_if_empty m w = (Ok m, w)) ∧
  vm_store (ensure_nodes_are_discovered E discover_if_empty m w).2 = vm_store w ∧
  Forall is_read (calls_since w (ensure_nodes_are_discovered E discover_if_empty m w).2) ∧
  (discover_if_empty = false →
     calls_since w (ensure_nodes_are_discovered E discover_if_empty m w).2 = []).
Proof.
  split; [intros m'; apply ensure_postcondition|].
  split.
  { intros Hm. rewrite ensure_cases. by rewrite bool_decide_eq_true_2. }
  destruct (ensure_reads_only E discover_if_empty m w) as (_ & Hst & cs & Hc & Hr & Hoff).
  split; [done|]. unfold calls_since. rewrite Hc, drop_app_length. split; [done|].
  exact Hoff.
Qed.

Lemma ensure_returns_only_with_nodes_witness :
  ensure_nodes_are_discovered default_config true demo_manager (demo_world demo_store)
  = (Ok demo_manager, demo_world demo_store).
Proof.
  destruct (ensure_returns_only_with_nodes default_config true demo_manager
              (demo_world demo_store)) as (_ & Hidle & _).
  apply Hidle. discriminate.
Defined.

(** X12.  A node list file that defines at least one node decides alone:
    the manager's lists are the file's, sorted, the all-nodes list is their
    union without duplicates, the master is the first server, and the
    cluster is not contacted (the world is left exactly as it was). *)
Theorem node_file_with_nodes_skips_discovery
    (E : AppConfig) (discover_if_empty : bool) (m : Manager) (w : World)
    (data : Json) (loaded_servers loaded_agents loaded_storage : list VMIdentifier) :
  all_nodes m = [] →
  node_config_file w = CfJson data →
  load_data E data = Ok (loaded_servers, loaded_agents, loaded_storage) →
  loaded_servers ++ loaded_agents ++ loaded_storage ≠ [] →
  ∃ m',
    ensure_nodes_are_discovered E discover_if_empty m w = (Ok m', w) ∧
    servers m' = sort_nodes loaded_servers ∧
    agents m' = sort_nodes loaded_agents ∧
    storage m' = sort_nodes loaded_storage ∧
    all_nodes m' =
      sort_nodes (Py.list_set sort_key (loaded_servers ++ loaded_agents ++ loaded_storage)) ∧
    StronglySorted vm_lt (all_nodes m') ∧
    server_master m' = head (sort_nodes loaded_servers).
Proof.
  intros Hm Hfile Hload Hsome.
  rewrite ensure_cases, Hm, load_nodes_result, Hfile, Hload. simpl.
  match goal with |- context [_populate_node_lists ?m0] =>
    destruct (populate_fields m0) as (Hs & Ha & Hg & Hn & Hmaster & Hrest);
    generalize dependent (_populate_node_lists m0) end.
  intros m1 Hs Ha Hg Hn Hmaster Hrest. simpl in *.
  assert (all_nodes m1 ≠ []) as Hne.
  { rewrite Hn. intros Hnil. apply (proj1 (sort_nodes_nil_iff _)) in Hnil.
    destruct (loaded_servers ++ loaded_agents ++ loaded_storage) as [|x l]; [done|].
    assert (sort_key x ∈ sort_key <$> Py.list_set sort_key (x :: l)) as Hx.
    { apply list_set_keys. csimpl. left. }
    rewrite Hnil in Hx. by apply elem_of_nil in Hx. }
  rewrite bool_decide_eq_true_2 by done. simpl.
  exists m1. split; [done|]. do 4 (split; [done|]).
  split; [rewrite Hn; apply sort_nodes_strict, list_set_NoDup|].
  exact Hmaster.
Qed.

Lemma node_file_with_nodes_skips_discovery_witness :
  ∃ m',
    ensure_nodes_are_discovered default_config true empty_manager
      (with_files (CfJson sample_node_file) KfAbsent (demo_world demo_store))
    = (Ok m', with_files (CfJson sample_node_file) KfAbsent (demo_world demo_store)) ∧
    sort_key <$> all_nodes m' = [("pve1", 100); ("pve1", 101)].
Proof.
  destruct (node_file_with_nodes_skips_discovery default_config true empty_manager
              (with_files (CfJson sample_node_file) KfAbsent (demo_world demo_store))
              sample_node_file
              [mkVM "pve1" 100 None None [] ∅ None]
              [mkVM "pve1" 101 None None [] ∅ None] [])
    as (m' & Hrun & _ & _ & _ & Hall & _);
    [reflexivity|reflexivity|vm_compute; reflexivity|discriminate|].
  exists m'. split; [exact Hrun|]. rewrite Hall. vm_compute. reflexivity.
Defined.

(** X13.  A node list file that exists and does not load stops the run,
    without a fall back to discovery and without a single request to the
    cluster.  When opening or reading it raises [IOError], or its text is
    not well-formed JSON, [ensure_nodes_are_discovered] raises
    [ConfigurationError], and the start, stop, restart and provision
    commands log the application error and exit with code 1.  When
    [json.load] raises anything else (bytes that are not valid UTF-8,
    nesting beyond the parser's limit) that exception passes through, and
    the same commands log an unexpected error and exit with code 2. *)
Theorem unreadable_node_file_stops_the_run
    (E : AppConfig) (m : Manager) (w : World) :
  (node_config_file w = CfIOError ∨ node_config_file w = CfInvalidJson →
     (all_nodes m = [] →
        ∀ discover_if_empty,
          ensure_nodes_are_discovered E discover_if_empty m w
            = (Raise ConfigurationError, w)) ∧
     (∀ response answer cmd,
        cmd = CmdStart ∨ cmd = CmdStop ∨ cmd = CmdRestart ∨ cmd = CmdProvision →
        (main_cli E response answer cmd w).1 = Some 1 ∧
        calls (main_cli E response answer cmd w).2 = calls w ∧
        vm_store (main_cli E response answer cmd w).2 = vm_store w ∧
        last (log (main_cli E response answer cmd w).2)
          = Some (ERROR, MsgApplicationError ConfigurationError))) ∧
  (∀ f, node_config_file w = CfLoadRaises f →
     (all_nodes m = [] →
        ∀ discover_if_empty,
          ensure_nodes_are_discovered E discover_if_empty m w
            = (Raise (load_failure_exn f), w)) ∧
     (∀ response answer cmd,
        cmd = CmdStart ∨ cmd = CmdStop ∨ cmd = CmdRestart ∨ cmd = CmdProvision →
        (main_cli E response answer cmd w).1 = Some 2 ∧
        calls (main_cli E response answer cmd w).2 = calls w ∧
        vm_store (main_cli E response answer cmd w).2 = vm_store w ∧
        last (log (main_cli E response answer cmd w).2)
          = Some (CRITICAL, MsgUnexpectedError (load_failure_exn f)))).
Proof.
  assert (∀ e,
            node_config_file w = CfIOError ∧ e = ConfigurationError ∨
            node_config_file w = CfInvalidJson ∧ e = ConfigurationError ∨
            (∃ f, node_config_file w = CfLoadRaises f ∧ e = load_failure_exn f) →
            ∀ w0 m0 d, node_config_file w0 = node_config_file w → all_nodes m0 = [] →
              ensure_nodes_are_discovered E d m0 w0 = (Raise e, w0)) as Hens.
  { intros e Hfile w0 m0 d Hw0 Hm. rewrite ensure_cases, Hm, load_nodes_result, Hw0. simpl.
    by destruct Hfile as [[-> ->] | [[-> ->] | (f & -> & ->)]]. }
  split.
  - intros Hfile.
    assert (node_config_file w = CfIOError ∧ ConfigurationError = ConfigurationError ∨
            node_config_file w = CfInvalidJson ∧ ConfigurationError = ConfigurationError ∨
            (∃ f, node_config_file w = CfLoadRaises f ∧
                  ConfigurationError = load_failure_exn f)) as Hcase by tauto.
    split; [intros Hm d; by apply (Hens _ Hcase)|].
    intros response answer cmd Hcmd.
    unfold main_cli, run_handler, perform_vm_action, provision_k3s_cluster.
    destruct Hcmd as [-> | [-> | [-> | ->]]];
      unfold mbind, M_bind; match goal with
      | |- context [ensure_nodes_are_discovered E true empty_manager ?w0] =>
          rewrite (Hens _ Hcase w0 empty_manager true eq_refl eq_refl)
      end;
      simpl; by rewrite last_snoc.
  - intros f Hfile.
    assert (node_config_file w = CfIOError ∧ load_failure_exn f = ConfigurationError ∨
            node_config_file w = CfInvalidJson ∧ load_failure_exn f = ConfigurationError ∨
            (∃ f', node_config_file w = CfLoadRaises f' ∧
                   load_failure_exn f = load_failure_exn f')) as Hcase
      by (right; right; by exists f).
    split; [intros Hm d; by apply (Hens _ Hcase)|].
    intros response answer cmd Hcmd.
    unfold main_cli, run_handler, perform_vm_action, provision_k3s_cluster.
    destruct Hcmd as [-> | [-> | [-> | ->]]];
      unfold mbind, M_bind; match goal with
      | |- context [ensure_nodes_are_discovered E true empty_manager ?w0] =>
          rewrite (Hens _ Hcase w0 empty_manager true eq_refl eq_refl)
      end;
      destruct f; simpl; by rewrite last_snoc.
Qed.

Lemma unreadable_node_file_stops_the_run_witness :
  (main_cli default_config RespRequestException (InputLine "") CmdRestart
     (with_files CfInvalidJson KfAbsent (demo_world demo_store))).1 = Some 1 ∧
  (main_cli default_config RespRequestException (InputLine "") CmdRestart
     (with_files (CfLoadRaises NotUtf8) KfAbsent (demo_world demo_store))).1 = Some 2.
Proof.
  split.
  - destruct (unreadable_node_file_stops_the_run default_config empty_manager
                (with_files CfInvalidJson KfAbsent (demo_world demo_store)))
      as [[_ Hcli] _]; [by right|].
    apply Hcli. tauto.
  - destruct (unreadable_node_file_stops_the_run default_config empty_manager
                (with_files (CfLoadRaises NotUtf8) KfAbsent (demo_world demo_store)))
      as [_ Hload].
    destruct (Hload NotUtf8 eq_refl) as [_ Hcli].
    apply Hcli. tauto.
Defined.

(** ** The lifecycle loop *)

Section Lifecycle.
Context (action : string).

Lemma due_post_same (w w' : World) vm :
  same_remote w w' → due_post w' action vm = due_post w action vm.
Proof. intros (_&_&_&_&Hs&_). unfold due_post. by rewrite Hs. Qed.

Lemma node_requests_same (w w' : World) vm :
  same_remote w w' → node_requests w' action vm = node_requests w action vm.
Proof. intros Hsame. unfold node_requests. by rewrite (due_post_same w w'). Qed.

Lemma post_rejected_same (w w' : World) vm :
  same_remote w w' → post_rejected w' action vm = post_rejected w action vm.
Proof.
  intros Hsame. unfold post_rejected. rewrite (due_post_same w w') by done.
  destruct Hsame as (_&_&_&_&_&Hp&_). by rewrite Hp.
Qed.

Lemma refreshed_same (w w' : World) vm :
  same_remote w w' → refreshed w' vm = refreshed w vm.
Proof. intros (_&_&_&_&Hs&_). unfold refreshed. by rewrite Hs. Qed.

(** One iteration: what it sends, and how it ends. *)
Lemma perform_vm_action_node_spec (vm : VMIdentifier) (w : World) :
  ∃ w',
    perform_vm_action_node action vm w =
      (if post_rejected w action vm then Raise ProxmoxError else Ok (refreshed w vm), w') ∧
    same_remote w w' ∧ vm_store w' = vm_store w ∧
    calls w' = calls w ++ node_requests w action vm.
Proof.
  unfold perform_vm_action_node, post_rejected, node_requests, due_post, refreshed,
    planned_post. run.
  destruct (status_current w (proxmox_node vm) (vmid vm)) as [status_data|]; simpl.
  2: { eexists. by repeat split. }
  destruct (bool_decide (action = "start")).
  { destruct (bool_decide (status_of status_data = "running")); simpl.
    { eexists. by repeat split. }
    destruct (status_post w (proxmox_node vm) (vmid vm) "start"); simpl;
      rewrite ?bool_decide_eq_true_2, ?bool_decide_eq_false_2 by done;
      eexists; (split; [reflexivity|]); (split; [by repeat split|]);
        (split; [done|]); simpl; by rewrite <-?app_assoc. }
  destruct (bool_decide (action = "stop")).
  { destruct (bool_decide (status_of status_data = "stopped")); simpl.
    { eexists. by repeat split. }
    destruct (status_post w (proxmox_node vm) (vmid vm) "shutdown"); simpl;
      rewrite ?bool_decide_eq_true_2, ?bool_decide_eq_false_2 by done;
      eexists; (split; [reflexivity|]); (split; [by repeat split|]);
        (split; [done|]); simpl; by rewrite <-?app_assoc. }
  destruct (bool_decide (action = "restart")).
  { destruct (decide (status_of status_data = "running")) as [Hrun|Hrun].
    - rewrite (bool_decide_eq_true_2 _ Hrun).
      rewrite (bool_decide_eq_false_2 (_ ≠ _)) by (intros Hne; by apply Hne). simpl.
      destruct (status_post w (proxmox_node vm) (vmid vm) "reboot"); simpl;
        rewrite ?bool_decide_eq_true_2, ?bool_decide_eq_false_2 by done;
        eexists; (split; [reflexivity|]); (split; [by repeat split|]);
        (split; [done|]); simpl; by rewrite <-?app_assoc.
    - rewrite (bool_decide_eq_false_2 _ Hrun), (bool_decide_eq_true_2 (_ ≠ _) Hrun). simpl.
      destruct (status_post w (proxmox_node vm) (vmid vm) "start"); simpl;
        rewrite ?bool_decide_eq_true_2, ?bool_decide_eq_false_2 by done;
        eexists; (split; [reflexivity|]); (split; [by repeat split|]);
        (split; [done|]); simpl; by rewrite <-?app_assoc. }
  simpl. eexists. by repeat split.
Qed.

(** The loop, when no action due is rejected. *)
Lemma perform_loop_accepted (nodes : list VMIdentifier) :
  ∀ (done0 : list VMIdentifier) (w : World),
  Forall (λ vm, post_rejected w action vm = false) nodes →
  ∃ w',
    for_each (λ done vm, vm' ← perform_vm_action_node action vm; ret (done ++ [vm']))
      done0 nodes w = (Ok (done0 ++ (refreshed w <$> nodes)), w') ∧
    same_remote w w' ∧ vm_store w' = vm_store w ∧
    calls w' = calls w ++ (nodes ≫= node_requests w action).
Proof.
  induction nodes as [|vm nodes IH]; intros done0 w Hok.
  { exists w. simpl. rewrite !app_nil_r. split; [done|].
    split; [apply same_remote_refl|done]. }
  apply Forall_cons in Hok as [Hvm Hok].
  destruct (perform_vm_action_node_spec vm w) as (w1 & Hnode & Hsame1 & Hst1 & Hc1).
  rewrite Hvm in Hnode.
  destruct (IH (done0 ++ [refreshed w vm]) w1) as (w' & Hloop & Hsame2 & Hst2 & Hc2).
  { eapply Forall_impl; [exact Hok|]. intros x Hx. simpl in Hx.
    by rewrite (post_rejected_same w w1). }
  exists w'. split.
  { simpl. unfold mbind, M_bind at 1. unfold mbind, M_bind at 1. rewrite Hnode. simpl.
    unfold ret, mret, M_ret at 1. simpl.
    etrans; [exact Hloop|].
    assert (refreshed w1 <$> nodes = refreshed w <$> nodes) as ->.
    { apply list_fmap_ext. intros i x _. by apply refreshed_same. }
    by rewrite <-app_assoc. }
  split; [by eapply same_remote_trans|]. split; [congruence|].
  assert (nodes ≫= node_requests w1 action = nodes ≫= node_requests w action) as Hreq.
  { apply list_bind_ext; [|done]. intros x0. by apply node_requests_same. }
  rewrite Hc2, Hc1, Hreq, <-app_assoc. by csimpl.
Qed.

(** The loop, up to the first rejected action. *)
Lemma perform_loop_rejected (pre : list VMIdentifier) vm post :
  ∀ (done0 : list VMIdentifier) (w : World),
  Forall (λ vm, post_rejected w action vm = false) pre →
  post_rejected w action vm = true →
  ∃ w',
    for_each (λ done vm, vm' ← perform_vm_action_node action vm; ret (done ++ [vm']))
      done0 (pre ++ vm :: post) w = (Raise ProxmoxError, w') ∧
    same_remote w w' ∧ vm_store w' = vm_store w ∧
    calls w' = calls w ++ ((pre ++ [vm]) ≫= node_requests w action).
Proof.
  induction pre as [|x pre IH]; intros done0 w Hok Hrej.
  { destruct (perform_vm_action_node_spec vm w) as (w1 & Hnode & Hsame1 & Hst1 & Hc1).
    rewrite Hrej in Hnode. exists w1. split.
    { simpl. unfold mbind, M_bind at 1. unfold mbind, M_bind at 1. by rewrite Hnode. }
    split; [done|]. split; [done|]. csimpl. by rewrite app_nil_r. }
  apply Forall_cons in Hok as [Hx Hok].
  destruct (perform_vm_action_node_spec x w) as (w1 & Hnode & Hsame1 & Hst1 & Hc1).
  rewrite Hx in Hnode.
  destruct (IH (done0 ++ [refreshed w x]) w1) as (w' & Hloop & Hsame2 & Hst2 & Hc2).
  { eapply Forall_impl; [exact Hok|]. intros y Hy. simpl in Hy.
    by rewrite (post_rejected_same w w1). }
  { by rewrite (post_rejected_same w w1). }
  exists w'. split.
  { simpl. unfold mbind, M_bind at 1. unfold mbind, M_bind at 1. rewrite Hnode. simpl.
    unfold ret, mret, M_ret at 1. simpl. exact Hloop. }
  split; [by eapply same_remote_trans|]. split; [congruence|].
  assert ((pre ++ [vm]) ≫= node_requests w1 action
          = (pre ++ [vm]) ≫= node_requests w action) as Hreq.
  { apply list_bind_ext; [|done]. intros y. by apply node_requests_same. }
  rewrite Hc2, Hc1, Hreq, <-app_assoc. by csimpl.
Qed.
End Lifecycle.

Lemma reads_post_nothing (cs : list Call) :
  Forall is_read cs → posted cs = [] ∧ written cs = [].
Proof.
  induction 1 as [|c cs Hread _ [IHp IHw]]; [done|].
  unfold written, posted in *. simpl. destruct c; try done; simpl; by rewrite ?IHw, ?IHp.
Qed.

Lemma planned_post_range (action current_status a : string) :
  planned_post action current_status = Some a →
  a ∈ ["start"; "shutdown"; "reboot"] ∧ action ∈ ["start"; "stop"; "restart"].
Proof.
  unfold planned_post. repeat case_bool_decide; intros [= <-]; subst;
    split; apply (bool_decide_eq_true_1 _); reflexivity.
Qed.

(** What a run of iterations posts and writes. *)
Lemma node_requests_posted (w : World) (action : string) (nodes : list VMIdentifier) :
  posted (nodes ≫= node_requests w action) =
    omap (λ vm, (λ a, (proxmox_node vm, vmid vm, a)) <$> due_post w action vm) nodes ∧
  written (nodes ≫= node_requests w action) = [].
Proof.
  induction nodes as [|vm nodes [IHp IHw]]; [done|].
  csimpl. unfold posted, written in *.
  change (node_requests w action vm) with
    ([CallStatusCurrent (proxmox_node vm) (vmid vm)] ++
     match due_post w action vm with
     | Some a => [CallStatusPost (proxmox_node vm) (vmid vm) a]
     | None => []
     end).
  rewrite !omap_app, IHp, IHw. by destruct (due_post w action vm).
Qed.

Lemma node_requests_actions (w : World) (action : string) (nodes : list VMIdentifier) :
  Forall (λ p, p.2 ∈ ["start"; "shutdown"; "reboot"])
    (posted (nodes ≫= node_requests w action)) ∧
  (action ∉ ["start"; "stop"; "restart"] → posted (nodes ≫= node_requests w action) = []).
Proof.
  destruct (node_requests_posted w action nodes) as [-> _].
  induction nodes as [|vm nodes [IH1 IH2]]; [done|]. csimpl.
  destruct (due_post w action vm) as [a|] eqn:Hdue; [|done]. simpl.
  unfold due_post in Hdue.
  destruct (status_current w (proxmox_node vm) (vmid vm)) as [status_data|]; [|done].
  simpl in Hdue. apply planned_post_range in Hdue as [Ha Haction].
  split; [by constructor|done].
Qed.

(** A list either has no rejected action or a first one. *)
Lemma first_rejected (w : World) (action : string) (nodes : list VMIdentifier) :
  Forall (λ vm, post_rejected w action vm = false) nodes ∨
  ∃ pre vm post,
    nodes = pre ++ vm :: post ∧
    Forall (λ vm, post_rejected w action vm = false) pre ∧
    post_rejected w action vm = true.
Proof.
  induction nodes as [|x nodes IH]; [by left|].
  destruct (post_rejected w action x) eqn:Hx.
  { right. by exists [], x, nodes. }
  destruct IH as [IH|(pre & vm & post & -> & Hpre & Hvm)].
  - left. by constructor.
  - right. exists (x :: pre), vm, post. by repeat constructor.
Qed.

(** The loop, whatever happens: it runs over an initial part of the list. *)
Lemma perform_loop_trace (action : string) (nodes : list VMIdentifier) (w : World) :
  ∃ r w' ran,
    for_each (λ done vm, vm' ← perform_vm_action_node action vm; ret (done ++ [vm']))
      [] nodes w = (r, w') ∧
    (r = Ok (refreshed w <$> nodes) ∨ r = Raise ProxmoxError) ∧
    same_remote w w' ∧ vm_store w' = vm_store w ∧
    calls w' = calls w ++ (ran ≫= node_requests w action).
Proof.
  destruct (first_rejected w action nodes) as [Hok|(pre & vm & post & -> & Hpre & Hvm)].
  - destruct (perform_loop_accepted action nodes [] w Hok) as (w' & Hrun & Hsame & Hst & Hc).
    exists (Ok (refreshed w <$> nodes)), w', nodes. split; [done|]. split; [by left|].
    by split_and!.
  - destruct (perform_loop_rejected action pre vm post [] w Hpre Hvm)
      as (w' & Hrun & Hsame & Hst & Hc).
    exists (Raise ProxmoxError), w', (pre ++ [vm]). split; [done|].
    split; [by right|]. by split_and!.
Qed.

(** [perform_vm_action], step by step. *)
Lemma perform_vm_action_cases (E : AppConfig) (action : string) (m : Manager) (w : World) :
  perform_vm_action E action m w =
    match ensure_nodes_are_discovered E true m w with
    | (Ok m1, w1) =>
        if bool_decide (all_nodes m1 = [])
        then (Ok m1, add_log (INFO_YELLOW, MsgNoVmLocations) w1)
        else
          match perform_vm_action_loop action (all_nodes m1) w1 with
          | (Ok vms, w2) =>
              (Ok (with_lists m1 (servers m1) (agents m1) (storage m1) vms), w2)
          | (Raise e, w2) => (Raise e, w2)
          end
    | (Raise e, w1) => (Raise e, w1)
    end.
Proof.
  unfold perform_vm_action, perform_vm_action_loop. unfold mbind, M_bind at 1.
  destruct (ensure_nodes_are_discovered E true m w) as [[m1|e] w1]; [|done].
  case_bool_decide; [done|]. unfold mbind, M_bind at 1.
  by destruct (for_each _ _ _ _) as [[vms|e] w2].
Qed.

(** X14.  With nodes at hand, [perform_vm_action] walks the all-nodes list
    in order and sends, per VM, one status read followed by at most one
    power action.  A VM whose status cannot be read is skipped and the loop
    goes on.  When the cluster accepts every action that is due, the call
    returns and each VM whose status was read carries it.  When the
    cluster rejects an action, the [ProxmoxError] leaves the loop: the call
    raises it, and no request is sent for any later VM. *)
Theorem lifecycle_loop_stops_at_first_rejected_action
    (E : AppConfig) (action : string) (m : Manager) (w : World) :
  all_nodes m ≠ [] →
  (Forall (λ vm, post_rejected w action vm = false) (all_nodes m) →
     ∃ m',
       (perform_vm_action E action m w).1 = Ok m' ∧
       all_nodes m' = refreshed w <$> all_nodes m ∧
       calls_since w (perform_vm_action E action m w).2
         = all_nodes m ≫= node_requests w action) ∧
  (∀ pre vm post,
     all_nodes m = pre ++ vm :: post →
     Forall (λ vm, post_rejected w action vm = false) pre →
     post_rejected w action vm = true →
     (perform_vm_action E action m w).1 = Raise ProxmoxError ∧
     calls_since w (perform_vm_action E action m w).2
       = (pre ++ [vm]) ≫= node_requests w action).
Proof.
  intros Hm. rewrite perform_vm_action_cases, ensure_cases, bool_decide_eq_true_2 by done.
  rewrite bool_decide_eq_false_2 by done. unfold perform_vm_action_loop. split.
  - intros Hok.
    destruct (perform_loop_accepted action (all_nodes m) [] w Hok)
      as (w' & Hrun & _ & _ & Hc).
    rewrite Hrun. simpl. eexists. split; [done|]. split; [done|].
    unfold calls_since. by rewrite Hc, drop_app_length.
  - intros pre vm post Hsplit Hpre Hvm. rewrite Hsplit.
    destruct (perform_loop_rejected action pre vm post [] w Hpre Hvm)
      as (w' & Hrun & _ & _ & Hc).
    rewrite Hrun. simpl. split; [done|].
    unfold calls_since. by rewrite Hc, drop_app_length.
Qed.

Lemma lifecycle_loop_stops_at_first_rejected_action_witness :
  calls_since (demo_world demo_store)
    (perform_vm_action default_config "restart" demo_manager (demo_world demo_store)).2
  = [CallStatusCurrent "pve2" 200; CallStatusPost "pve2" 200 "reboot";
     CallStatusCurrent "pve1" 101; CallStatusPost "pve1" 101 "reboot";
     CallStatusCurrent "pve1" 100; CallStatusPost "pve1" 100 "reboot"].
Proof.
  destruct (lifecycle_loop_stops_at_first_rejected_action default_config "restart"
              demo_manager (demo_world demo_store)) as [Hok _]; [discriminate|].
  destruct Hok as (m' & _ & _ & ->); [|reflexivity].
  repeat constructor.
Defined.

(** X15.  Whatever the manager holds and whatever the command, a lifecycle
    run changes no stored configuration and sends no configuration write;
    every power action it posts is a start, a shutdown or a reboot (the
    command name [stop] never reaches the cluster), and a command other
    than start, stop and restart posts nothing. *)
Theorem lifecycle_posts_only_start_shutdown_reboot
    (E : AppConfig) (action : string) (m : Manager) (w : World) :
  vm_store (perform_vm_action E action m w).2 = vm_store w ∧
  written (calls_since w (perform_vm_action E action m w).2) = [] ∧
  Forall (λ p, p.2 ∈ ["start"; "shutdown"; "reboot"])
    (posted (calls_since w (perform_vm_action E action m w).2)) ∧
  (action ∉ ["start"; "stop"; "restart"] →
     posted (calls_since w (perform_vm_action E action m w).2) = []).
Proof.
  rewrite perform_vm_action_cases. unfold perform_vm_action_loop.
  destruct (ensure_reads_only E true m w) as (Hsame & Hst & cs & Hc & Hr & _).
  destruct (reads_post_nothing cs Hr) as [Hposted Hwritten].
  destruct (ensure_nodes_are_discovered E true m w) as [[m1|e] w1]; simpl in *.
  2: { unfold calls_since. rewrite Hc, drop_app_length, Hposted, Hwritten. by repeat split. }
  case_bool_decide as Hnodes.
  { unfold calls_since. simpl. rewrite Hc, drop_app_length, Hposted, Hwritten.
    by repeat split. }
  destruct (perform_loop_trace action (all_nodes m1) w1)
    as (r & w' & ran & Hrun & Hres & Hsame' & Hst' & Hc').
  rewrite Hrun.
  assert (calls_since w w' = cs ++ (ran ≫= node_requests w1 action)) as Hcs.
  { unfold calls_since. by rewrite Hc', Hc, <-app_assoc, drop_app_length. }
  destruct (node_requests_posted w1 action ran) as [_ Hw'].
  destruct (node_requests_actions w1 action ran) as [Hact Hnone].
  assert (posted (calls_since w w') = posted (ran ≫= node_requests w1 action)) as Hp.
  { rewrite Hcs. unfold posted in *. by rewrite omap_app, Hposted. }
  assert (written (calls_since w w') = []) as Hwr.
  { rewrite Hcs. unfold written in *. by rewrite omap_app, Hwritten, Hw'. }
  destruct Hres as [-> | ->]; simpl; rewrite ?Hp, ?Hwr; (split; [congruence|]); done.
Qed.

(** ** From an empty manager to a command's exit code *)

Section FromTheCluster.
Context (E : AppConfig).

Lemma no_hosts_host_names (w : World) : no_hosts w → host_names w = [].
Proof.
  unfold no_hosts, host_names. destruct (nodes_get w) as [nodes_data|]; [|done].
  by intros ->.
Qed.

(** Without a node list file, [ensure_nodes_are_discovered] is discovery
    followed by the emptiness test. *)
Lemma ensure_absent_cases (m : Manager) (w : World) :
  all_nodes m = [] → node_config_file w = CfAbsent →
  ensure_nodes_are_discovered E true m w =
    match discover_nodes_by_tags E m w with
    | (Ok m2, w3) =>
        if bool_decide (all_nodes m2 ≠ []) then (Ok m2, w3)
        else (Raise NodeDiscoveryError, w3)
    | (Raise e, w3) => (Raise e, w3)
    end.
Proof.
  intros Hm Hfile. by rewrite ensure_cases, Hm, load_nodes_result, Hfile.
Qed.

(** Its outcome, by what the cluster holds. *)
Lemma ensure_absent_spec (m : Manager) (w : World) :
  no_nodes m → node_config_file w = CfAbsent →
  ((∀ k, ¬ (visited w k ∧ tagged w (is_role_tags E) k)) ∧
   (ensure_nodes_are_discovered E true m w).1 = Raise NodeDiscoveryError) ∨
  (∃ m' w',
     ensure_nodes_are_discovered E true m w = (Ok m', w') ∧
     all_nodes m' ≠ [] ∧
     (∀ k, k ∈ sort_key <$> all_nodes m' ↔ visited w k ∧ tagged w (is_role_tags E) k) ∧
     (∀ k, k ∈ sort_key <$> servers m' ↔ visited w k ∧ tagged w (is_server_tags E) k) ∧
     StronglySorted vm_le (servers m') ∧
     server_master m' = head (servers m')).
Proof.
  intros (Hs0 & Ha0 & Hg0 & Hn0) Hfile. rewrite ensure_absent_cases by done.
  assert (∀ sel k,
            k ∈ sort_key <$> sort_nodes (Py.list_set sort_key (found_all w sel (host_names w)))
            ↔ visited w k ∧ tagged w sel k) as Hkeys.
  { intros sel k. rewrite sort_nodes_perm, list_set_keys, found_all_keys.
    unfold visited. naive_solver. }
  destruct (discover_outcome E m w) as [[Hno Hr]|[Hhosts [m2 Hr]]].
  - left. split.
    + intros k [[Hh _] _]. rewrite (no_hosts_host_names w Hno) in Hh.
      by apply elem_of_nil in Hh.
    + destruct (discover_nodes_by_tags E m w) as [r w3]. simpl in *. by subst r.
  - destruct (discover_nodes_by_tags E m w) as [r w3] eqn:Hrun. simpl in Hr. subst r.
    destruct (discover_lists E m w m2 w3 Hrun) as (_ & Hs & _ & _ & Hn & Hmaster & _).
    rewrite Hs0 in Hs. rewrite Hn0 in Hn. simpl in Hs, Hn.
    case_bool_decide as Hnodes.
    + right. exists m2, w3. split; [done|]. split; [done|].
      split; [intros k; by rewrite Hn, Hkeys|].
      split; [intros k; by rewrite Hs, Hkeys|].
      split; [rewrite Hs; apply sort_nodes_StronglySorted|done].
    + left. split; [|done]. intros k Hk. apply Hkeys in Hk. rewrite <-Hn in Hk.
      rewrite Hnodes in Hk. by apply elem_of_nil in Hk.
Qed.
(** [provision_k3s_cluster] from an empty manager, by what the cluster
    holds. *)
Lemma provision_cases (m : Manager) (w : World) :
  no_nodes m → node_config_file w = CfAbsent →
  ((∀ k, ¬ (visited w k ∧ tagged w (is_role_tags E) k)) ∧
   (provision_k3s_cluster E m w).1 = Raise NodeDiscoveryError) ∨
  ((∃ k, visited w k ∧ tagged w (is_role_tags E) k) ∧
   (∀ k, ¬ (visited w k ∧ tagged w (is_server_tags E) k)) ∧
   (provision_k3s_cluster E m w).1 = Raise K3sDeployError) ∨
  (∃ m' master,
     (provision_k3s_cluster E m w).1 = Ok m' ∧ server_master m' = Some master ∧
     visited w (sort_key master) ∧ tagged w (is_server_tags E) (sort_key master) ∧
     ∀ k, visited w k → tagged w (is_server_tags E) k → key_le (sort_key master) k).
Proof.
  intros Hm Hfile. unfold provision_k3s_cluster. unfold mbind, M_bind.
  destruct (ensure_absent_spec m w Hm Hfile)
    as [[Hnone Hr]|(m' & w' & Hrun & Hne & Hall & Hsrv & Hsorted & Hmaster)].
  { left. split; [done|].
    destruct (ensure_nodes_are_discovered E true m w) as [r w1]. simpl in *. by subst r. }
  right. rewrite Hrun.
  assert (∃ k, visited w k ∧ tagged w (is_role_tags E) k) as Hseen.
  { destruct (all_nodes m') as [|x l] eqn:Hl; [done|]. exists (sort_key x).
    apply Hall. rewrite fmap_cons. left. }
  destruct (servers m') as [|master rest] eqn:Hservers; simpl in Hmaster; rewrite Hmaster.
  { left. split; [done|]. split; [|done].
    intros k Hk. apply Hsrv in Hk. by apply elem_of_nil in Hk. }
  right. exists m', master. split; [done|]. split; [done|].
  assert (visited w (sort_key master) ∧ tagged w (is_server_tags E) (sort_key master))
    as [Hv0 Ht0].
  { apply Hsrv. rewrite fmap_cons. left. }
  split; [done|]. split; [done|].
  intros k Hv Ht.
  assert (k ∈ sort_key <$> master :: rest) as Hk by (by apply Hsrv).
  rewrite fmap_cons in Hk. apply elem_of_cons in Hk as [->|Hk].
  { by destruct (total key_le (sort_key master) (sort_key master)). }
  apply StronglySorted_inv in Hsorted as [_ Hleast].
  apply list_elem_of_fmap in Hk as (x & -> & Hx).
  rewrite Forall_forall in Hleast. by apply Hleast.
Qed.
End FromTheCluster.

(** X16.  Started on an empty manager without a node list file,
    [provision_k3s_cluster] has three outcomes, decided by what the cluster
    holds: [NodeDiscoveryError] when no VM that discovery can see carries a
    role tag; [K3sDeployError] when some do but none carries the server
    tag; and a normal return, with the master the discovered VM of lowest
    (host, id) that carries the server tag, otherwise.  It changes nothing
    in the cluster. *)
Theorem provision_needs_a_discovered_server (E : AppConfig) (m : Manager) (w : World) :
  no_nodes m → node_config_file w = CfAbsent →
  let seen sel := ∃ k, visited w k ∧ tagged w sel k in
  ((provision_k3s_cluster E m w).1 = Raise NodeDiscoveryError ↔
     ¬ seen (is_role_tags E)) ∧
  ((provision_k3s_cluster E m w).1 = Raise K3sDeployError ↔
     seen (is_role_tags E) ∧ ¬ seen (is_server_tags E)) ∧
  ((∃ m' master,
      (provision_k3s_cluster E m w).1 = Ok m' ∧ server_master m' = Some master ∧
      visited w (sort_key master) ∧ tagged w (is_server_tags E) (sort_key master) ∧
      ∀ k, visited w k → tagged w (is_server_tags E) k → key_le (sort_key master) k) ↔
     seen (is_server_tags E)) ∧
  vm_store (provision_k3s_cluster E m w).2 = vm_store w ∧
  Forall is_read (calls_since w (provision_k3s_cluster E m w).2).
Proof.
  intros Hm Hfile seen. subst seen. simpl.
  assert ((∃ k, visited w k ∧ tagged w (is_server_tags E) k) →
          ∃ k, visited w k ∧ tagged w (is_role_tags E) k) as Hrole.
  { intros (k & Hv & Ht). exists k. split; [done|]. apply tagged_role. by left. }
  assert (vm_store (provision_k3s_cluster E m w).2 = vm_store w ∧
          Forall is_read (calls_since w (provision_k3s_cluster E m w).2)) as [Hq1 Hq2].
  { unfold provision_k3s_cluster. unfold mbind, M_bind.
    destruct (ensure_reads_only E true m w) as (_ & Hst & cs & Hc & Hr & _).
    destruct (ensure_nodes_are_discovered E true m w) as [[m1|e] w1]; simpl in *.
    - destruct (server_master m1); simpl; unfold calls_since;
        by rewrite Hc, drop_app_length.
    - unfold calls_since. by rewrite Hc, drop_app_length. }
  pose proof (provision_cases E m w Hm Hfile) as Hcases.
  revert Hcases. generalize ((provision_k3s_cluster E m w).1). intros r Hcases.
  split_and!; [| | |done|done].
  - destruct Hcases as [[Hnone ->]|[(Hseen & Hnone & ->)|(m' & master & -> & _ & Hv & Ht & _)]].
    + split; [|done]. intros _ (k & Hk). by apply (Hnone k).
    + split; [intros [=]|]. intros Hno. by destruct Hno.
    + split; [intros [=]|]. intros Hno. destruct Hno. apply Hrole. eauto.
  - destruct Hcases as [[Hnone ->]|[(Hseen & Hnone & ->)|(m' & master & -> & _ & Hv & Ht & _)]].
    + split; [intros [=]|]. intros [(k & Hk) _]. by destruct (Hnone k).
    + split; [|done]. intros _. split; [done|]. intros (k & Hk). by apply (Hnone k).
    + split; [intros [=]|]. intros [_ Hno]. destruct Hno. eauto.
  - destruct Hcases as [[Hnone ->]|[(Hseen & Hnone & ->)|(m' & master & -> & Hrest)]].
    + split; [by intros (? & ? & [=] & _)|].
      intros Hs. destruct (Hrole Hs) as (k & Hk). by destruct (Hnone k).
    + split; [by intros (? & ? & [=] & _)|]. intros (k & Hk). by destruct (Hnone k).
    + split; [|intros _; by exists m', master].
      intros _. exists (sort_key master). tauto.
Qed.

Lemma provision_needs_a_discovered_server_witness :
  ∃ m' master,
    (provision_k3s_cluster default_config empty_manager (demo_world demo_store)).1 = Ok m' ∧
    server_master m' = Some master ∧ sort_key master = ("pve1", 100).
Proof.
  destruct (provision_needs_a_discovered_server default_config empty_manager
              (demo_world demo_store)) as (_ & _ & [_ Hserver] & _);
    [by repeat split|reflexivity|].
  destruct Hserver as (m' & master & Hrun & Hmaster & Hv & Ht & Hleast).
  { exists ("pve1", 100). split.
    - split; apply (bool_decide_eq_true_1 _); vm_compute; reflexivity.
    - exists {["tags" := "k3s-server"]}. split; vm_compute; reflexivity. }
  exists m', master. split; [exact Hrun|]. split; [exact Hmaster|].
  vm_compute in Hrun. injection Hrun as <-.
  vm_compute in Hmaster. injection Hmaster as <-. reflexivity.
Defined.

Lemma run_handler_lifecycle (E : AppConfig) response answer cmd action m w :
  action_name cmd = Some action →
  run_handler E response answer cmd m w =
    match perform_vm_action E action m w with
    | (Ok _, w') => (Ok (), w')
    | (Raise e, w') => (Raise e, w')
    end.
Proof.
  destruct cmd; intros [= <-]; unfold run_handler, mbind, M_bind;
    by destruct (perform_vm_action _ _ _ _) as [[?|?] ?].
Qed.

(** How a lifecycle run can end. *)
Lemma perform_vm_action_result (E : AppConfig) (action : string) (m : Manager) (w : World) :
  vm_store (perform_vm_action E action m w).2 = vm_store w ∧
  ((∃ m', (perform_vm_action E action m w).1 = Ok m') ∨
   (perform_vm_action E action m w).1 = Raise ProxmoxError ∨
   (∃ e, (ensure_nodes_are_discovered E true m w).1 = Raise e ∧
         perform_vm_action E action m w
           = (Raise e, (ensure_nodes_are_discovered E true m w).2))).
Proof.
  rewrite perform_vm_action_cases. unfold perform_vm_action_loop.
  destruct (ensure_reads_only E true m w) as (_ & Hst & _).
  destruct (ensure_nodes_are_discovered E true m w) as [[m1|e] w1]; simpl in *.
  2: { split; [done|]. right. right. by exists e. }
  case_bool_decide; simpl; [split; [done|]; left; by eexists|].
  destruct (perform_loop_trace action (all_nodes m1) w1)
    as (r & w' & ran & -> & Hres & _ & Hst' & _).
  destruct Hres as [-> | ->]; simpl; (split; [congruence|]).
  - left. by eexists.
  - right. by left.
Qed.

(** X17.  Without a node list file, the start, stop and restart commands
    end with exit code 0 or 1, never with the code for an unexpected error,
    and leave every stored configuration as it was; when no VM that
    discovery can see carries a role tag the exit code is 1 and no power
    action is posted. *)
Theorem lifecycle_command_exits_0_or_1
    (E : AppConfig) (response : ReleaseResponse) (answer : PromptInput)
    (cmd : Command) (action : string) (w : World) :
  action_name cmd = Some action →
  node_config_file w = CfAbsent →
  ((main_cli E response answer cmd w).1 = Some 0 ∨
   (main_cli E response answer cmd w).1 = Some 1) ∧
  vm_store (main_cli E response answer cmd w).2 = vm_store w ∧
  ((∀ k, ¬ (visited w k ∧ tagged w (is_role_tags E) k)) →
     (main_cli E response answer cmd w).1 = Some 1 ∧
     posted (calls_since w (main_cli E response answer cmd w).2) = []).
Proof.
  intros Hcmd Hfile. unfold main_cli. rewrite (run_handler_lifecycle E _ _ _ action) by done.
  set (w0 := add_log (INFO_BLUE, MsgExecutingCommand (command_name cmd)) w).
  assert (∀ w', calls_since w w' = calls_since w0 w') as Hsince by done.
  assert (vm_store w0 = vm_store w) as Hst0 by done.
  assert ((∀ k, ¬ (visited w k ∧ tagged w (is_role_tags E) k)) →
          ∀ k, ¬ (visited w0 k ∧ tagged w0 (is_role_tags E) k)) as Htag by done.
  assert (node_config_file w0 = CfAbsent) as Hfile0 by done.
  clearbody w0.
  destruct (perform_vm_action_result E action empty_manager w0) as [Hst Hres].
  destruct (ensure_absent_spec E empty_manager w0) as [[Hnone Hr]|(m' & w' & Hrun & Hrest)];
    [by repeat split|done| |].
  - (* nothing to act on *)
    destruct (ensure_reads_only E true empty_manager w0) as (_ & _ & cs & Hc & Hreads & _).
    destruct Hres as [[m' Hok]|[Hpve|(e & He & Hrun)]].
    + rewrite perform_vm_action_cases in Hok.
      destruct (ensure_nodes_are_discovered E true empty_manager w0) as [r w1].
      simpl in Hr. by subst r.
    + rewrite perform_vm_action_cases in Hpve.
      destruct (ensure_nodes_are_discovered E true empty_manager w0) as [r w1].
      simpl in Hr. by subst r.
    + rewrite Hrun in *. rewrite Hr in He. injection He as <-. simpl in *.
      split; [by right|]. split; [congruence|]. intros _. split; [done|].
      rewrite Hsince. unfold calls_since. simpl. rewrite Hc, drop_app_length.
      by apply reads_post_nothing.
  - destruct Hrest as (Hne & Hall & _).
    assert (¬ ∀ k, ¬ (visited w0 k ∧ tagged w0 (is_role_tags E) k)) as Hsome.
    { intros Hnone. destruct (all_nodes m') as [|x l] eqn:Hl; [done|].
      apply (Hnone (sort_key x)). apply Hall. rewrite fmap_cons. left. }
    destruct Hres as [[m2 Hok]|[Hpve|(e & He & _)]].
    + destruct (perform_vm_action E action empty_manager w0) as [r w2]. simpl in *. subst r.
      simpl. split; [by left|]. split; [congruence|]. intros Hno. destruct Hsome. by apply Htag.
    + destruct (perform_vm_action E action empty_manager w0) as [r w2]. simpl in *. subst r.
      simpl. split; [by right|]. split; [congruence|]. intros Hno. destruct Hsome. by apply Htag.
    + by rewrite Hrun in He.
Qed.

Lemma lifecycle_command_exits_0_or_1_witness :
  (main_cli default_config RespRequestException (InputLine "") CmdStop
     (demo_world demo_store)).1
  = Some 0.
Proof.
  destruct (lifecycle_command_exits_0_or_1 default_config RespRequestException
              (InputLine "") CmdStop "stop" (demo_world demo_store) eq_refl eq_refl)
    as ([H0|H1] & _); [exact H0|].
  vm_compute in H1. discriminate.
Defined.

(** ** The version check *)

(** X18.  [check_k3s_version] changes the manager in one situation only:
    the release lookup answered an object whose [tag_name] is a non-empty
    string other than the current version, an update was asked for, and
    the prompt read a line that is [y] once stripped and lower-cased; the
    new version is then that tag and nothing else changes.  In that
    situation it does change it.  The prompt is shown only when an update
    was asked for, and a failed or unparsable lookup returns with the
    manager as it was and without a prompt. *)
Theorem version_changes_only_on_confirmed_update
    (response : ReleaseResponse) (answer : PromptInput) (ask_update : bool) (m : Manager) :
  let vc := check_k3s_version response answer ask_update m in
  let confirmed tag :=
    ask_update = true ∧
    (∃ answer_line,
       answer = InputLine answer_line ∧ Py.lower (Py.strip answer_line) = "y") ∧
    (∃ latest_release_data,
       response = RespJson latest_release_data ∧
       Js.get latest_release_data "tag_name" JNull = Ok (JStr tag)) ∧
    tag ≠ "" ∧ tag ≠ k3s_version m in
  (∀ m', vc_result vc = Ok m' →
         m' = m ∨ ∃ tag, confirmed tag ∧ m' = set_k3s_version tag m) ∧
  (∀ tag, confirmed tag →
          vc = mkVersionCheck (Ok (set_k3s_version tag m)) true) ∧
  (vc_prompted vc = true → ask_update = true) ∧
  (response = RespRequestException ∨ response = RespJSONDecodeError →
     vc = mkVersionCheck (Ok m) false).
Proof.
  intros vc confirmed. subst vc confirmed. simpl. unfold check_k3s_version.
  split_and!.
  - intros m'. destruct response as [| |data]; simpl; try (intros [= <-]; by left).
    destruct (Js.get data "tag_name" JNull) as [latest_tag_name|e] eqn:Hget; simpl; [|done].
    destruct (negb (Js.truthy latest_tag_name)) eqn:Htruthy; simpl;
      [intros [= <-]; by left|].
    destruct latest_tag_name as [|b|z|tag|items|fields]; simpl in *;
      try (destruct ask_update; simpl; [|intros [= <-]; by left];
           destruct answer as [answer_line|f]; simpl; [|done];
           destruct (bool_decide (Py.lower (Py.strip answer_line) = "y")); simpl;
           [done|intros [= <-]; by left]).
    unfold Py.neq. destruct (bool_decide (k3s_version m ≠ tag)) eqn:Hneq; simpl;
      [|intros [= <-]; by left].
    destruct ask_update; simpl; [|intros [= <-]; by left].
    destruct answer as [answer_line|f]; simpl; [|done].
    destruct (bool_decide (Py.lower (Py.strip answer_line) = "y")) eqn:Hy; simpl;
      [|intros [= <-]; by left].
    apply bool_decide_eq_true_1 in Hneq, Hy.
    intros [= <-]. right. exists tag. split; [|done].
    split; [done|]. split; [by exists answer_line|]. split; [by exists data|].
    split; [|done]. unfold Py.truthy in Htruthy.
    apply negb_false_iff, bool_decide_eq_true_1 in Htruthy. done.
  - intros tag (-> & (answer_line & -> & Hy) & (data & -> & Hget) & Hne & Hdiff). simpl.
    rewrite Hget. simpl. unfold Py.truthy, Py.neq.
    rewrite (bool_decide_eq_true_2 (tag ≠ "")) by done. simpl.
    rewrite (bool_decide_eq_true_2 (k3s_version m ≠ tag)) by done.
    by rewrite (bool_decide_eq_true_2 _ Hy).
  - destruct response as [| |data]; simpl; try done.
    destruct (Js.get data "tag_name" JNull) as [latest_tag_name|e]; simpl; [|done].
    destruct (negb (Js.truthy latest_tag_name)); simpl; [done|].
    destruct (match latest_tag_name with JStr tag => _ | _ => true end); simpl; [|done].
    destruct ask_update; [done|]. done.
  - by intros [-> | ->].
Qed.

Lemma version_changes_only_on_confirmed_update_witness :
  check_k3s_version (RespJson (JObj [("tag_name", JStr "v1.33.1+k3s1")]))
    (InputLine " Y ") true empty_manager
  = mkVersionCheck (Ok (set_k3s_version "v1.33.1+k3s1" empty_manager)) true.
Proof.
  destruct (version_changes_only_on_confirmed_update
              (RespJson (JObj [("tag_name", JStr "v1.33.1+k3s1")])) (InputLine " Y ")
              true empty_manager)
    as (_ & Hconfirmed & _).
  apply Hconfirmed. split; [reflexivity|].
  split; [exists " Y "; split; [reflexivity|vm_compute; reflexivity]|].
  split; [eexists; split; reflexivity|]. split; discriminate.
Defined.

(** X19.  An update that was accepted is not offered again: once a check
    has changed the version, a further check against the same release
    answer returns the manager as it is and shows no prompt, whatever
    would be typed and whether or not an update is asked for. *)
Theorem accepted_update_is_not_offered_again
    (response : ReleaseResponse) (answer : PromptInput) (ask_update : bool)
    (m m' : Manager) :
  vc_result (check_k3s_version response answer ask_update m) = Ok m' →
  k3s_version m' ≠ k3s_version m →
  ∀ answer2 ask_update2,
    check_k3s_version response answer2 ask_update2 m' = mkVersionCheck (Ok m') false.
Proof.
  intros Hfirst Hchanged answer2 ask_update2.
  unfold check_k3s_version in *.
  destruct response as [| |data]; simpl in *; try (injection Hfirst as <-; done).
  destruct (Js.get data "tag_name" JNull) as [latest_tag_name|e]; simpl in *; [|done].
  destruct (negb (Js.truthy latest_tag_name)) eqn:Htruthy; simpl in *;
    [injection Hfirst as <-; done|].
  destruct latest_tag_name as [|b|z|tag|items|fields]; simpl in *;
    try (destruct ask_update; simpl in *; [|injection Hfirst as <-; done];
         destruct answer as [answer_line|f]; simpl in *; [|done];
         destruct (bool_decide (Py.lower (Py.strip answer_line) = "y")); simpl in *;
         [done|injection Hfirst as <-; done]).
  unfold Py.neq in *.
  destruct (bool_decide (k3s_version m ≠ tag)) eqn:Hneq; simpl in *;
    [|injection Hfirst as <-; done].
  destruct ask_update; simpl in *; [|injection Hfirst as <-; done].
  destruct answer as [answer_line|f]; simpl in *; [|done].
  destruct (bool_decide (Py.lower (Py.strip answer_line) = "y")) eqn:Hy; simpl in *;
    [|injection Hfirst as <-; done].
  injection Hfirst as <-. simpl.
  by rewrite bool_decide_eq_false_2 by (intros Hne; by apply Hne).
Qed.

Lemma accepted_update_is_not_offered_again_witness :
  check_k3s_version (RespJson (JObj [("tag_name", JStr "v1.33.1+k3s1")]))
    (InputLine "y") true (set_k3s_version "v1.33.1+k3s1" empty_manager)
  = mkVersionCheck (Ok (set_k3s_version "v1.33.1+k3s1" empty_manager)) false.
Proof.
  apply (accepted_update_is_not_offered_again
           (RespJson (JObj [("tag_name", JStr "v1.33.1+k3s1")])) (InputLine "y") true
           empty_manager).
  - vm_compute. reflexivity.
  - discriminate.
Defined.

(** ** What the commands can do to the cluster *)

Lemma main_cli_world (E : AppConfig) response answer cmd w :
  vm_store (main_cli E response answer cmd w).2
    = vm_store (run_handler E response answer cmd empty_manager
                  (add_log (INFO_BLUE, MsgExecutingCommand (command_name cmd)) w)).2 ∧
  calls (main_cli E response answer cmd w).2
    = calls (run_handler E response answer cmd empty_manager
               (add_log (INFO_BLUE, MsgExecutingCommand (command_name cmd)) w)).2.
Proof.
  unfold main_cli.
  destruct (run_handler E response answer cmd empty_manager _) as [[[]|e] w'];
    [done|]. by destruct e.
Qed.

Lemma perform_vm_action_writes_nothing (E : AppConfig) action m w :
  vm_store (perform_vm_action E action m w).2 = vm_store w ∧
  written (calls_since w (perform_vm_action E action m w).2) = [].
Proof.
  rewrite perform_vm_action_cases. unfold perform_vm_action_loop.
  destruct (ensure_reads_only E true m w) as (Hsame & Hst & cs & Hc & Hr & _).
  destruct (reads_post_nothing cs Hr) as [_ Hwritten].
  destruct (ensure_nodes_are_discovered E true m w) as [[m1|e] w1]; simpl in *.
  2: { unfold calls_since. by rewrite Hc, drop_app_length. }
  case_bool_decide as Hnodes.
  { unfold calls_since. simpl. by rewrite Hc, drop_app_length. }
  destruct (perform_loop_trace action (all_nodes m1) w1)
    as (r & w' & ran & Hrun & Hres & Hsame' & Hst' & Hc').
  rewrite Hrun.
  assert (written (calls_since w w') = []) as Hwr.
  { unfold calls_since. rewrite Hc', Hc, <-app_assoc, drop_app_length.
    destruct (node_requests_posted w1 action ran) as [_ Hw'].
    unfold written in *. by rewrite omap_app, Hwritten, Hw'. }
  destruct Hres as [-> | ->]; simpl; split; congruence.
Qed.

Lemma provision_writes_nothing (E : AppConfig) m w :
  vm_store (provision_k3s_cluster E m w).2 = vm_store w ∧
  written (calls_since w (provision_k3s_cluster E m w).2) = [].
Proof.
  unfold provision_k3s_cluster. unfold mbind, M_bind.
  destruct (ensure_reads_only E true m w) as (_ & Hst & cs & Hc & Hr & _).
  destruct (reads_post_nothing cs Hr) as [_ Hwritten].
  destruct (ensure_nodes_are_discovered E true m w) as [[m1|e] w1]; simpl in *.
  - destruct (server_master m1); simpl; unfold calls_since;
      by rewrite Hc, drop_app_length.
  - unfold calls_since. by rewrite Hc, drop_app_length.
Qed.

Lemma run_handler_writes_nothing (E : AppConfig) response answer cmd m w :
  vm_store (run_handler E response answer cmd m w).2 = vm_store w ∧
  written (calls_since w (run_handler E response answer cmd m w).2) = [].
Proof.
  assert (∀ action,
            vm_store ((perform_vm_action E action m;; ret ()) w).2 = vm_store w ∧
            written (calls_since w ((perform_vm_action E action m;; ret ()) w).2) = [])
    as Hact.
  { intros action. unfold mbind, M_bind.
    destruct (perform_vm_action_writes_nothing E action m w) as [Hst Hwr].
    by destruct (perform_vm_action E action m w) as [[?|?] ?]. }
  assert (written (calls_since w w) = []) as Hidle.
  { unfold calls_since. by rewrite drop_all. }
  destruct cmd as [| | | | |update]; simpl; try apply Hact.
  - done.
  - unfold mbind, M_bind.
    destruct (provision_writes_nothing E m w) as [Hst Hwr].
    by destruct (provision_k3s_cluster E m w) as [[?|?] ?].
  - unfold mbind, M_bind, lift.
    by destruct (vc_result (check_k3s_version response answer update m)).
Qed.

(** How the version check ends. *)
Lemma check_k3s_version_result (response : ReleaseResponse) (answer : PromptInput)
    (update : bool) (m : Manager) :
  let r := vc_result (check_k3s_version response answer update m) in
  (response = RespRequestException ∨ response = RespJSONDecodeError → r = Ok m) ∧
  (∀ data, response = RespJson data → (∀ fields, data ≠ JObj fields) →
     r = Raise AttributeError) ∧
  (∀ fields, response = RespJson (JObj fields) →
     (update = true ∧ prompt_due response m ∧
      match answer with
      | InputRaises f => r = Raise (input_failure_exn f)
      | InputLine _ => (∃ m', r = Ok m') ∨ r = Raise Unmodelled
      end) ∨
     (¬ (update = true ∧ prompt_due response m) ∧ r = Ok m)).
Proof.
  simpl. unfold check_k3s_version. split_and!.
  - by intros [-> | ->].
  - intros data -> Hno. destruct data as [|b|z|s|items|fields]; try done.
    by destruct (Hno fields).
  - intros fields ->. simpl.
    destruct (Js.truthy (from_option id JNull (Js.assoc "tag_name" fields))) eqn:Htruthy;
      simpl.
    2: { right. split; [|done]. intros (_ & fs & [= <-] & Ht & _). congruence. }
    destruct (match from_option id JNull (Js.assoc "tag_name" fields) with
              | JStr tag => Py.neq (k3s_version m) tag
              | _ => true
              end) eqn:Hdiff.
    2: { right. split; [|done]. intros (_ & fs & [= <-] & _ & Hne).
         destruct (from_option id JNull (Js.assoc "tag_name" fields)); try done.
         unfold Py.neq in Hdiff. apply bool_decide_eq_false_1 in Hdiff.
         apply Hne. f_equal. symmetry. by apply dec_stable. }
    destruct update; simpl.
    2: { right. split; [|done]. by intros [? _]. }
    left. split; [done|]. split.
    { exists fields. split; [done|]. split; [done|].
      intros Heq. rewrite Heq in Hdiff. unfold Py.neq in Hdiff.
      by apply bool_decide_eq_true_1 in Hdiff. }
    destruct answer as [answer_line|f]; [|done].
    destruct (bool_decide _); [|left; by eexists].
    destruct (from_option id JNull (Js.assoc "tag_name" fields));
      (by right) || (left; by eexists).
Qed.

(** X20.  No command of the CLI ever writes a VM configuration: whatever
    the command, the configuration and the cluster, the run sends no
    configuration write and leaves every stored configuration as it was.
    The command meant to do so, [configure-ips], calls a method the
    manager does not have: it always ends with exit code 2, the code for
    an unexpected error, without any request to the cluster, and what it
    logs is the line that announces the command followed by the critical
    line for the [AttributeError]. *)
Theorem no_command_writes_a_configuration
    (E : AppConfig) (response : ReleaseResponse) (answer : PromptInput)
    (cmd : Command) (w : World) :
  vm_store (main_cli E response answer cmd w).2 = vm_store w ∧
  written (calls_since w (main_cli E response answer cmd w).2) = [] ∧
  (main_cli E response answer CmdConfigureIps w).1 = Some 2 ∧
  calls (main_cli E response answer CmdConfigureIps w).2 = calls w ∧
  log_since w (main_cli E response answer CmdConfigureIps w).2
    = [(INFO_BLUE, MsgExecutingCommand "configure-ips");
       (CRITICAL, MsgUnexpectedError AttributeError)].
Proof.
  destruct (main_cli_world E response answer cmd w) as [Hst Hcalls].
  destruct (run_handler_writes_nothing E response answer cmd empty_manager
              (add_log (INFO_BLUE, MsgExecutingCommand (command_name cmd)) w))
    as [Hst' Hwr].
  split_and!.
  - by rewrite Hst, Hst'.
  - unfold calls_since in *. by rewrite Hcalls.
  - done.
  - done.
  - unfold main_cli, run_handler, raise. simpl. by since.
Qed.

(** X21.  The [check-version] command never contacts the cluster and
    never ends with the application-error code 1.  A release lookup that
    fails or cannot be parsed is not an error: the exit code is 0.  The
    exit code is 2 in two situations and no other: the release answer is
    JSON that is not an object; or an update was asked for, the answer is
    an object whose [tag_name] is truthy and is not the current version, so
    that the prompt is shown, and [input()] raises. *)
Theorem check_version_command_exit_codes
    (E : AppConfig) (response : ReleaseResponse) (answer : PromptInput)
    (update : bool) (w : World) :
  calls (main_cli E response answer (CmdCheckVersion update) w).2 = calls w ∧
  vm_store (main_cli E response answer (CmdCheckVersion update) w).2 = vm_store w ∧
  (main_cli E response answer (CmdCheckVersion update) w).1 ≠ Some 1 ∧
  (response = RespRequestException ∨ response = RespJSONDecodeError →
     (main_cli E response answer (CmdCheckVersion update) w).1 = Some 0) ∧
  ((main_cli E response answer (CmdCheckVersion update) w).1 = Some 2 ↔
     (∃ latest_release_data,
        response = RespJson latest_release_data ∧
        ∀ fields, latest_release_data ≠ JObj fields) ∨
     (update = true ∧ prompt_due response empty_manager ∧
      ∃ f, answer = InputRaises f)).
Proof.
  destruct (check_k3s_version_result response answer update empty_manager)
    as (Hfail & Hshape & Hobj).
  unfold main_cli, run_handler, mbind, M_bind, lift.
  destruct response as [| |data].
  1,2: rewrite Hfail by tauto; simpl; split_and!; try done;
       split; [done|]; intros [(? & [=] & _)|(_ & (? & [=] & _) & _)].
  assert ((∃ fields, data = JObj fields) ∨ ¬ ∃ fields, data = JObj fields)
    as [[fields ->]|Hno].
  { destruct data; (left; by eexists) || (right; by intros [? [=]]). }
  - destruct (Hobj fields eq_refl) as [(Hup & Hdue & Hres)|[Hdue Hres]]; clear Hobj.
    + destruct answer as [answer_line|f].
      * destruct Hres as [[m' ->]| ->]; simpl; split_and!; try done; try (by intros [|]);
          (split; [done|]);
          intros [(d & [= <-] & Hn)|(_ & _ & f & [=])]; by destruct (Hn fields).
      * rewrite Hres. destruct f; simpl; split_and!; try done; try (by intros [|]);
          (split; [intros _|done]); right; split_and!; try done; by eexists.
    + rewrite Hres. simpl. split_and!; try done; try (by intros [|]).
      split; [done|].
      intros [(d & [= <-] & Hn)|(? & ? & _)]; [by destruct (Hn fields)|].
      by destruct Hdue.
  - rewrite (Hshape data eq_refl) by (intros fields ->; apply Hno; by eexists).
    simpl. split_and!; try done; try (by intros [|]).
    split; [intros _|done]. left. exists data. split; [done|].
    intros fields ->. apply Hno. by eexists.
Qed.

(** A closed standard input at the prompt. *)
Example closed_stdin_at_the_prompt_exits_2 :
  (main_cli default_config (RespJson (JObj [("tag_name", JStr "v1.33.1+k3s1")]))
     (InputRaises StdinClosed) (CmdCheckVersion true) (demo_world demo_store)).1
  = Some 2.
Proof. reflexivity. Qed.

(** ** Locations as text *)

Lemma contains_colon_cons (c : ascii) (s : string) :
  Py.contains ":" (String c s) = bool_decide (c = ":"%char) || Py.contains ":" s.
Proof.
  change (Py.contains ":" (String c s))
    with ((if ascii_dec ":" c then String.prefix "" s else false) || Py.contains ":" s).
  destruct (ascii_dec ":" c) as [<-|Hne].
  - rewrite bool_decide_eq_true_2 by done. by destruct s.
  - by rewrite bool_decide_eq_false_2.
Qed.

Lemma split_once_go_first (a cur b : string) :
  Py.contains ":" a = false →
  split_once_go ":" cur (a +:+ String ":" b) = [String.rev_app cur a; b].
Proof.
  revert cur. induction a as [|c a IH]; intros cur Hno; [done|].
  rewrite contains_colon_cons in Hno. apply orb_false_iff in Hno as [Hc Ha].
  simpl. rewrite Hc. by rewrite IH.
Qed.

Lemma split_once_go_two (s cur : string) :
  Py.contains ":" s = true → ∃ a b, split_once_go ":" cur s = [a; b].
Proof.
  revert cur. induction s as [|c s IH]; intros cur Hin; [done|].
  rewrite contains_colon_cons in Hin. simpl.
  destruct (bool_decide (c = ":"%char)); [by eexists _, _|]. by apply IH.
Qed.

Lemma string_app_nil_r (s : string) : s +:+ "" = s.
Proof.
  induction s as [|c s IH]; [done|].
  change (String c s +:+ "") with (String c (s +:+ "")). by f_equal.
Qed.

(** X22.  [_parse_vm_location] cuts its argument at the first colon: text
    without a colon is refused with [ValueError]; otherwise the part before
    the first colon is the host, whatever follows it is handed to [int],
    and a failure of [int] is again a [ValueError].  No input makes it fail
    in another way.  It reads back the text [VMIdentifier.__str__] gives
    for a VM without a name whose host name has no colon. *)
Theorem parse_vm_location_cuts_at_first_colon (py_int : string → option Z) :
  (∀ location_str,
     Py.contains ":" location_str = false →
     _parse_vm_location py_int location_str = Raise ValueError) ∧
  (∀ location_str,
     (∃ r, _parse_vm_location py_int location_str = Ok r) ∨
     _parse_vm_location py_int location_str = Raise ValueError) ∧
  (∀ node rest,
     Py.contains ":" node = false →
     _parse_vm_location py_int (node +:+ ":" +:+ rest) =
       match py_int rest with
       | Some n => Ok (node, n)
       | None => Raise ValueError
       end) ∧
  (∀ vm,
     Py.contains ":" (proxmox_node vm) = false →
     Py.truthy_opt (name vm) = false →
     py_int (pretty (vmid vm)) = Some (vmid vm) →
     _parse_vm_location py_int (vm_str vm) = Ok (sort_key vm)).
Proof.
  assert (∀ node rest,
            Py.contains ":" node = false →
            _parse_vm_location py_int (node +:+ ":" +:+ rest) =
              match py_int rest with
              | Some n => Ok (node, n)
              | None => Raise ValueError
              end) as Hcut.
  { intros node rest Hno. unfold _parse_vm_location, split_once.
    change (":" +:+ rest) with (String ":" rest).
    rewrite split_once_go_first by done. simpl.
    assert (Py.contains ":" (node +:+ String ":" rest) = true) as ->.
    { clear Hno. induction node as [|c node IH].
      - simpl. by destruct rest.
      - change (String c node +:+ String ":" rest)
          with (String c (node +:+ String ":" rest)).
        rewrite contains_colon_cons, IH. by rewrite orb_true_r. }
    done. }
  split_and!.
  - intros location_str Hno. unfold _parse_vm_location. by rewrite Hno.
  - intros location_str. unfold _parse_vm_location, split_once.
    destruct (Py.contains ":" location_str) eqn:Hin; simpl; [|by right].
    destruct (split_once_go_two location_str "" Hin) as (a & b & ->).
    destruct (py_int b); [left; by eexists|by right].
  - exact Hcut.
  - intros vm Hno Hname Hint. unfold vm_str. rewrite Hname, string_app_nil_r.
    rewrite Hcut by done. by rewrite Hint.
Qed.

Lemma parse_vm_location_cuts_at_first_colon_witness :
  _parse_vm_location read_nat_text "pve1:100" = Ok ("pve1", 100).
Proof.
  destruct (parse_vm_location_cuts_at_first_colon read_nat_text) as (_ & _ & _ & Hback).
  apply (Hback vm_a); reflexivity.
Defined.

(** ** What the node list file gives *)

Section LoaderInvariant.
Context (E : AppConfig) (P : VMIdentifier → Prop).
Context (HP : ∀ node id, P (mkVM node id None None [] ∅ None)).

Lemma load_vm_inv proxmox_node_id acc vm_info acc' :
  load_vm E proxmox_node_id acc vm_info = Ok acc' →
  Forall P (acc.1.1 ++ acc.1.2 ++ acc.2) → Forall P (acc'.1.1 ++ acc'.1.2 ++ acc'.2).
Proof.
  unfold load_vm. intros Hload Hacc.
  destruct (Js.get vm_info "vmid" JNull) as [vmid_v|]; [|done].
  destruct (Js.get vm_info "role" (JStr "")) as [role_v|]; [|done].
  destruct (negb (Js.truthy vmid_v)); [by simplify_eq|].
  destruct proxmox_node_id; try done. destruct vmid_v as [| |z| | |]; try done.
  destruct acc as [[srv agt] sto]. simpl in *.
  rewrite !Forall_app in Hacc. destruct Hacc as (? & ? & ?).
  destruct (bool_decide (_ ∨ _)); [|destruct (bool_decide (_ ∨ _));
    [|destruct (bool_decide (_ ∨ _))]]; simplify_eq; simpl; rewrite !Forall_app;
    repeat split; try done; by repeat constructor.
Qed.

Lemma load_vms_inv proxmox_node_id vms acc acc' :
  load_vms E proxmox_node_id acc vms = Ok acc' →
  Forall P (acc.1.1 ++ acc.1.2 ++ acc.2) → Forall P (acc'.1.1 ++ acc'.1.2 ++ acc'.2).
Proof.
  revert acc. induction vms as [|vm_info vms IH]; intros acc Hload Hacc; simpl in Hload.
  { by simplify_eq. }
  destruct (load_vm E proxmox_node_id acc vm_info) as [acc1|] eqn:Hvm; [|done].
  eapply IH; [done|]. by eapply load_vm_inv.
Qed.

Lemma load_hosts_inv hosts acc acc' :
  load_hosts E acc hosts = Ok acc' →
  Forall P (acc.1.1 ++ acc.1.2 ++ acc.2) → Forall P (acc'.1.1 ++ acc'.1.2 ++ acc'.2).
Proof.
  revert acc. induction hosts as [|h hosts IH]; intros acc Hload Hacc; simpl in Hload.
  { by simplify_eq. }
  destruct (load_host E acc h) as [acc1|] eqn:Hh; [|done].
  eapply IH; [done|]. unfold load_host in Hh.
  destruct (Js.get h "id" JNull) as [id_v|]; [|done].
  destruct (negb (Js.truthy id_v)); [by simplify_eq|].
  destruct (Js.get h "vms" (JArr [])) as [vms_v|]; [|done].
  destruct (Js.iter vms_v) as [vms|]; [|done].
  by eapply load_vms_inv.
Qed.

Lemma load_data_inv data loaded_servers loaded_agents loaded_storage :
  load_data E data = Ok (loaded_servers, loaded_agents, loaded_storage) →
  Forall P (loaded_servers ++ loaded_agents ++ loaded_storage).
Proof.
  unfold load_data. intros Hload.
  destruct (Js.get data "nodes" (JArr [])) as [nodes_v|]; [|done].
  destruct (Js.iter nodes_v) as [hosts|]; [|done].
  apply (load_hosts_inv hosts ([], [], []) _ Hload). constructor.
Qed.
End LoaderInvariant.

(** X23.  A node list file that loads replaces whatever node lists the
    manager held (discovery, in contrast, appends to them): the lists after
    the load are the same for every manager it is run on.  The load leaves
    the K3s version alone, contacts nothing, and every VM it yields carries
    its host and id only: no name, address, tags, attribute map or status. *)
Theorem loaded_lists_come_from_the_file_alone
    (E : AppConfig) (m m' : Manager) (w w' : World) :
  load_nodes_from_config_file E m w = (Ok (true, m'), w') →
  w' = w ∧ k3s_version m' = k3s_version m ∧
  Forall (λ vm, vm = mkVM (proxmox_node vm) (vmid vm) None None [] ∅ None)
    (servers m' ++ agents m' ++ storage m' ++ all_nodes m') ∧
  ∀ m2, ∃ m2',
    load_nodes_from_config_file E m2 w = (Ok (true, m2'), w) ∧
    servers m2' = servers m' ∧ agents m2' = agents m' ∧ storage m2' = storage m' ∧
    all_nodes m2' = all_nodes m' ∧ server_master m2' = server_master m' ∧
    servers_no_first m2' = servers_no_first m'.
Proof.
  rewrite load_nodes_result. intros Hload.
  destruct (node_config_file w) as [| | |f|data] eqn:Hfile; try done.
  destruct (load_data E data) as [[[s a] g]|e] eqn:Hdata; [|done].
  injection Hload as <- <-.
  split; [done|].
  match goal with |- context [_populate_node_lists ?m0] =>
    destruct (populate_fields m0) as (Hs & Ha & Hg & Hn & Hmaster & Hrest) end.
  simpl in *. split.
  { unfold _populate_node_lists. simpl. by destruct (sort_nodes s). }
  split.
  { pose proof (load_data_inv E
                  (λ vm, vm = mkVM (proxmox_node vm) (vmid vm) None None [] ∅ None)
                  (λ _ _, eq_refl) data s a g Hdata) as Hbare.
    rewrite Hs, Ha, Hg, Hn. rewrite !Forall_app in *. destruct Hbare as (Hbs & Hba & Hbg).
    rewrite !sort_nodes_perm. split_and!; try done.
    apply Forall_forall. intros vm Hvm%list_set_subset.
    rewrite !elem_of_app in Hvm. rewrite Forall_forall in Hbs, Hba, Hbg.
    naive_solver. }
  intros m2. rewrite load_nodes_result, Hfile, Hdata. eexists. split; [done|].
  match goal with |- context [_populate_node_lists ?m0] =>
    destruct (populate_fields m0) as (Hs2 & Ha2 & Hg2 & Hn2 & Hmaster2 & Hrest2) end.
  simpl in *. rewrite Hs, Ha, Hg, Hn, Hmaster, Hrest, Hs2, Ha2, Hg2, Hn2, Hmaster2, Hrest2.
  done.
Qed.

Lemma loaded_lists_come_from_the_file_alone_witness :
  ∃ m2', load_nodes_from_config_file default_config demo_manager
           (with_files (CfJson sample_node_file) KfAbsent (demo_world demo_store))
         = (Ok (true, m2'),
            with_files (CfJson sample_node_file) KfAbsent (demo_world demo_store)) ∧
         sort_key <$> all_nodes m2' = [("pve1", 100); ("pve1", 101)].
Proof.
  destruct (load_nodes_from_config_file default_config empty_manager
              (with_files (CfJson sample_node_file) KfAbsent (demo_world demo_store)))
    as [[[loaded m']|e] w'] eqn:Hrun; [|vm_compute in Hrun; discriminate].
  destruct loaded; [|vm_compute in Hrun; discriminate].
  destruct (loaded_lists_come_from_the_file_alone default_config empty_manager m'
              _ w' Hrun) as (_ & _ & _ & Hany).
  destruct (Hany demo_manager) as (m2' & Hrun2 & _ & _ & _ & Hall & _).
  exists m2'. split; [exact Hrun2|]. rewrite Hall.
  vm_compute in Hrun. injection Hrun as <- _. vm_compute. reflexivity.
Defined.

(** ** Populating and discovering again *)

Section Again.
Context (E : AppConfig).

Lemma sort_nodes_sorted_id (l : list VMIdentifier) :
  Sorted vm_le l → sort_nodes l = l.
Proof.
  induction 1 as [|x l Hl IH Hhd]; [done|].
  unfold sort_nodes in *. simpl. rewrite IH.
  destruct Hhd as [|y l Hxy]; [done|]. simpl.
  unfold vm_le, key_le in Hxy. by rewrite Hxy.
Qed.

Lemma filter_all {A} (P : A → Prop) `{∀ x, Decision (P x)} (l : list A) :
  Forall P l → filter P l = l.
Proof.
  induction 1 as [|x l Hx _ IH]; [done|]. by rewrite filter_cons_True, IH.
Qed.

Lemma filter_none {A} (P : A → Prop) `{∀ x, Decision (P x)} (l : list A) :
  Forall (λ x, ¬ P x) l → filter P l = [].
Proof.
  induction 1 as [|x l Hx _ IH]; [done|]. by rewrite filter_cons_False, IH.
Qed.

Lemma list_set_NoDup_id {A} `{EqDecision K} (key : A → K) (l : list A) :
  NoDup (key <$> l) → Py.list_set key l = l.
Proof.
  induction l as [|y l IH]; [done|]. rewrite fmap_cons.
  intros [Hy Hnd]%NoDup_cons. simpl. rewrite IH by done. f_equal.
  apply filter_all, Forall_forall. intros x Hx Heq. apply Hy. rewrite <-Heq.
  by apply list_elem_of_fmap_2.
Qed.

Lemma list_set_app {A} `{EqDecision K} (key : A → K) (l1 l2 : list A) :
  Py.list_set key (l1 ++ l2) =
    Py.list_set key l1 ++ filter (λ x, key x ∉ key <$> l1) (Py.list_set key l2).
Proof.
  induction l1 as [|y l1 IH]; simpl.
  { symmetry. apply filter_all, Forall_forall. intros x _. apply not_elem_of_nil. }
  f_equal. rewrite IH, filter_app. f_equal.
  rewrite list_filter_filter. apply list_filter_iff. intros x. csimpl.
  rewrite not_elem_of_cons. tauto.
Qed.

(** Adding elements whose keys are all present to a duplicate-free list
    and deduplicating gives the list back. *)
Lemma list_set_absorb {A} `{EqDecision K} (key : A → K) (l1 l2 : list A) :
  NoDup (key <$> l1) → (∀ x, x ∈ l2 → key x ∈ key <$> l1) →
  Py.list_set key (l1 ++ l2) = l1.
Proof.
  intros Hnd Hin. rewrite list_set_app, list_set_NoDup_id by done.
  rewrite filter_none; [by rewrite app_nil_r|].
  apply Forall_forall. intros x Hx%list_set_subset Hnot. by apply Hnot, Hin.
Qed.

(** Deduplicating keeps every element of a duplicate-free front part. *)
Lemma list_set_keeps_front {A} `{EqDecision K} (key : A → K) (l1 l2 : list A) x :
  NoDup (key <$> l1) → x ∈ l1 → x ∈ Py.list_set key (l1 ++ l2).
Proof.
  intros Hnd Hx. rewrite list_set_app, list_set_NoDup_id by done.
  apply elem_of_app. by left.
Qed.

Lemma host_names_same (w w' : World) : same_remote w w' → host_names w' = host_names w.
Proof. intros (Hn & _). unfold host_names. by rewrite Hn. Qed.

Lemma rediscover_list (w : World) sel (held : list VMIdentifier) :
  sort_nodes (Py.list_set sort_key
    (sort_nodes (Py.list_set sort_key (held ++ found_all w sel (host_names w)))
     ++ found_all w sel (host_names w)))
  = sort_nodes (Py.list_set sort_key (held ++ found_all w sel (host_names w))).
Proof.
  rewrite list_set_absorb.
  - apply sort_nodes_sorted_id, sort_nodes_Sorted.
  - rewrite sort_nodes_perm. apply list_set_NoDup.
  - intros x Hx. rewrite sort_nodes_perm, list_set_keys, fmap_app, elem_of_app.
    right. by apply list_elem_of_fmap_2.
Qed.
End Again.

(** X24.  [_populate_node_lists] is idempotent: populating a populated
    manager changes nothing, and a manager whose lists are already in
    ascending (host, id) order keeps them as they are. *)
Theorem populate_node_lists_idempotent (m : Manager) :
  _populate_node_lists (_populate_node_lists m) = _populate_node_lists m ∧
  (Sorted vm_le (servers m) → Sorted vm_le (agents m) → Sorted vm_le (storage m) →
   Sorted vm_le (all_nodes m) →
   servers (_populate_node_lists m) = servers m ∧
   agents (_populate_node_lists m) = agents m ∧
   storage (_populate_node_lists m) = storage m ∧
   all_nodes (_populate_node_lists m) = all_nodes m).
Proof.
  split.
  - assert (∀ l, sort_nodes (sort_nodes l) = sort_nodes l) as Hidem.
    { intros l. apply sort_nodes_sorted_id, sort_nodes_Sorted. }
    unfold _populate_node_lists at 1.
    destruct (populate_fields m) as (Hs & Ha & Hg & Hn & _).
    rewrite Hs, Ha, Hg, Hn, !Hidem.
    unfold _populate_node_lists. by destruct (sort_nodes (servers m)).
  - intros Hs Ha Hg Hn.
    destruct (populate_fields m) as (-> & -> & -> & -> & _).
    by rewrite !sort_nodes_sorted_id.
Qed.

Lemma populate_node_lists_idempotent_witness :
  servers (_populate_node_lists (_populate_node_lists demo_manager)) = [vm_a; vm_b].
Proof.
  destruct (populate_node_lists_idempotent demo_manager) as [-> _].
  vm_compute. reflexivity.
Defined.

(** X25.  Discovering again on an unchanged cluster changes nothing: when
    a discovery has returned, a second one run on its result and on the
    world it left returns too, with the same role lists, all-nodes list,
    master and remaining servers. *)
Theorem rediscovery_changes_nothing (E : AppConfig) (m m' : Manager) (w w' : World) :
  discover_nodes_by_tags E m w = (Ok m', w') →
  ∃ m'' w'',
    discover_nodes_by_tags E m' w' = (Ok m'', w'') ∧
    servers m'' = servers m' ∧ agents m'' = agents m' ∧ storage m'' = storage m' ∧
    all_nodes m'' = all_nodes m' ∧ server_master m'' = server_master m' ∧
    servers_no_first m'' = servers_no_first m'.
Proof.
  intros Hrun.
  destruct (discover_lists E m w m' w' Hrun) as (Hhosts & Hs & Ha & Hg & Hn & Hmaster & Hrest).
  destruct (discover_reads_only E m w) as (Hsame & Hst & _). rewrite Hrun in *.
  simpl in Hsame, Hst.
  destruct (discover_outcome E m' w') as [[Hno _]|[_ [m'' Hok]]].
  { apply no_hosts_host_names in Hno. by rewrite (host_names_same w w') in Hno. }
  destruct (discover_nodes_by_tags E m' w') as [r w''] eqn:Hrun2. simpl in Hok. subst r.
  exists m'', w''. split; [done|].
  destruct (discover_lists E m' w' m'' w'' Hrun2)
    as (_ & Hs2 & Ha2 & Hg2 & Hn2 & Hmaster2 & Hrest2).
  rewrite (host_names_same w w') in * by done.
  rewrite !(found_all_same w w') in * by done.
  assert (servers m'' = servers m') as Hservers.
  { rewrite Hs2, Hs. apply rediscover_list. }
  split_and!; [done| | | | |].
  - rewrite Ha2, Ha. apply rediscover_list.
  - rewrite Hg2, Hg. apply rediscover_list.
  - rewrite Hn2, Hn. apply rediscover_list.
  - by rewrite Hmaster2, Hmaster, Hservers.
  - by rewrite Hrest2, Hrest, Hservers.
Qed.

Lemma rediscovery_changes_nothing_witness :
  ∃ m' w' m'' w'',
    discover_nodes_by_tags default_config empty_manager (demo_world demo_store)
      = (Ok m', w') ∧
    discover_nodes_by_tags default_config m' w' = (Ok m'', w'') ∧
    all_nodes m'' = all_nodes m'.
Proof.
  destruct (discover_nodes_by_tags default_config empty_manager (demo_world demo_store))
    as [[m'|e] w'] eqn:Hrun; [|vm_compute in Hrun; discriminate].
  destruct (rediscovery_changes_nothing default_config empty_manager m'
              (demo_world demo_store) w' Hrun) as (m'' & w'' & Hrun2 & _ & _ & _ & Hall & _).
  exists m', w', m'', w''. split; [reflexivity|]. split; [exact Hrun2|exact Hall].
Defined.

(** X26.  Discovery never drops or refreshes a node the manager already
    holds: whatever the cluster now answers, every object of a
    duplicate-free role list or all-nodes list is still in that list,
    unchanged, after a discovery that returns. *)
Theorem discovery_keeps_held_nodes (E : AppConfig) (m m' : Manager) (w w' : World) :
  discover_nodes_by_tags E m w = (Ok m', w') →
  (NoDup (sort_key <$> servers m) → ∀ vm, vm ∈ servers m → vm ∈ servers m') ∧
  (NoDup (sort_key <$> agents m) → ∀ vm, vm ∈ agents m → vm ∈ agents m') ∧
  (NoDup (sort_key <$> storage m) → ∀ vm, vm ∈ storage m → vm ∈ storage m') ∧
  (NoDup (sort_key <$> all_nodes m) → ∀ vm, vm ∈ all_nodes m → vm ∈ all_nodes m').
Proof.
  intros Hrun.
  destruct (discover_lists E m w m' w' Hrun) as (_ & -> & -> & -> & -> & _).
  split_and!; intros Hnd vm Hvm; rewrite sort_nodes_perm; by apply list_set_keeps_front.
Qed.

Lemma discovery_keeps_held_nodes_witness :
  vm_c ∈ all_nodes (match (discover_nodes_by_tags default_config demo_manager
                             (demo_world demo_store)).1 with
                    | Ok m' => m'
                    | Raise _ => empty_manager
                    end).
Proof.
  destruct (discover_nodes_by_tags default_config demo_manager (demo_world demo_store))
    as [[m'|e] w'] eqn:Hrun; [|vm_compute in Hrun; discriminate].
  destruct (discovery_keeps_held_nodes default_config demo_manager m'
              (demo_world demo_store) w' Hrun) as (_ & _ & _ & Hall).
  simpl. apply Hall.
  - apply (bool_decide_eq_true_1 (NoDup _)). vm_compute. reflexivity.
  - left.
Defined.

(** ** The API client *)

(** X27.  The client is built once.  A call of [get_proxmox_client] that
    returns leaves its result in the module's global, and from then on
    every call hands back that same client without attempting a
    connection, whatever the settings have become.  A call that raises
    leaves no client behind, and raises [ConfigurationError] or
    [ProxmoxError] only. *)
Theorem client_is_built_once
    (S : ClientSettings) (connects : ProxmoxAPI → bool) (st : ClientState) :
  (∀ client st',
     get_proxmox_client S connects st = (Ok client, st') →
     _proxmox_client st' = Some client ∧
     ∀ S2 connects2, get_proxmox_client S2 connects2 st' = (Ok client, st')) ∧
  (∀ e st',
     get_proxmox_client S connects st = (Raise e, st') →
     _proxmox_client st' = None ∧ (e = ConfigurationError ∨ e = ProxmoxError)).
Proof.
  unfold get_proxmox_client. split.
  - intros client st'. destruct (_proxmox_client st) as [cached|] eqn:Hcache.
    { intros [= <- <-]. split; [done|]. intros S2 connects2. by rewrite Hcache. }
    destruct (negb _ || negb _); [done|].
    destruct (Py.truthy_opt (PROXMOX_TOKEN_ID S) && Py.truthy_opt (PROXMOX_TOKEN_SECRET S));
      [|destruct (Py.truthy_opt (PROXMOX_PASSWORD S)); [|done]];
      (match goal with |- context [connects ?c] => destruct (connects c) end; [|done]);
      by intros [= <- <-].
  - intros e st'. destruct (_proxmox_client st) as [cached|] eqn:Hcache; [done|].
    destruct (negb _ || negb _); [intros [= <- <-]; split; [done|by left]|].
    destruct (Py.truthy_opt (PROXMOX_TOKEN_ID S) && Py.truthy_opt (PROXMOX_TOKEN_SECRET S));
      [|destruct (Py.truthy_opt (PROXMOX_PASSWORD S));
        [|intros [= <- <-]; split; [done|by left]]];
      (match goal with |- context [connects ?c] => destruct (connects c) end; [done|]);
      intros [= <- <-]; (split; [done|by right]).
Qed.

Lemma client_is_built_once_witness :
  get_proxmox_client (mkClientSettings None None None None None true 8006) (λ _, false)
    (get_proxmox_client sample_settings (λ _, true) (mkClientState None [] false)).2
  = get_proxmox_client sample_settings (λ _, true) (mkClientState None [] false).
Proof.
  destruct (get_proxmox_client sample_settings (λ _, true) (mkClientState None [] false))
    as [[client|e] st'] eqn:Hrun; [|vm_compute in Hrun; discriminate].
  destruct (client_is_built_once sample_settings (λ _, true) (mkClientState None [] false))
    as [Hok _].
  destruct (Hok client st' Hrun) as [_ Hagain]. apply Hagain.
Defined.

(** X28.  With no client built yet, [get_proxmox_client] raises
    [ConfigurationError] exactly when the host or the user is missing or
    empty, or when neither a token (id and secret both non-empty) nor a
    non-empty password is set; it then attempts no connection.  A complete
    token takes precedence over a password: the one connection attempted
    is made as [user!token_id] with the token secret, and the password is
    not used. *)
Theorem client_credentials_precedence
    (S : ClientSettings) (connects : ProxmoxAPI → bool) (st : ClientState) :
  _proxmox_client st = None →
  let has_token :=
    Py.truthy_opt (PROXMOX_TOKEN_ID S) && Py.truthy_opt (PROXMOX_TOKEN_SECRET S) in
  ((get_proxmox_client S connects st).1 = Raise ConfigurationError ↔
     Py.truthy_opt (PROXMOX_HOST S) = false ∨ Py.truthy_opt (PROXMOX_USER S) = false ∨
     (has_token = false ∧ Py.truthy_opt (PROXMOX_PASSWORD S) = false)) ∧
  ((get_proxmox_client S connects st).1 = Raise ConfigurationError →
     (get_proxmox_client S connects st).2 = st) ∧
  (Py.truthy_opt (PROXMOX_HOST S) = true → Py.truthy_opt (PROXMOX_USER S) = true →
   has_token = true →
   attempted (get_proxmox_client S connects st).2 =
     attempted st ++
     [mkProxmoxAPI (default "" (PROXMOX_HOST S))
        (default "" (PROXMOX_USER S) +:+ "!" +:+ default "" (PROXMOX_TOKEN_ID S))
        (TokenValue (default "" (PROXMOX_TOKEN_SECRET S)))
        (PROXMOX_PORT S) (PROXMOX_SSL_VERIFY S)]).
Proof.
  intros Hcache has_token. subst has_token. unfold get_proxmox_client. rewrite Hcache.
  destruct (Py.truthy_opt (PROXMOX_HOST S)), (Py.truthy_opt (PROXMOX_USER S)); simpl.
  2-4: split_and!; try done; split; [intros _|done]; tauto.
  destruct (Py.truthy_opt (PROXMOX_TOKEN_ID S) && Py.truthy_opt (PROXMOX_TOKEN_SECRET S));
    [|destruct (Py.truthy_opt (PROXMOX_PASSWORD S))]; simpl.
  3: { split_and!; try done. split; [intros _|done]. tauto. }
  all: match goal with |- context [if ?f ?c then (Ok _, _) else _] => destruct (f c) end;
    simpl.
  all: split_and!; try done.
  all: split; [done|]; intros [|[|[]]]; done.
Qed.

Lemma client_credentials_precedence_witness :
  attempted (get_proxmox_client sample_settings (λ _, true)
               (mkClientState None [] false)).2
  = [mkProxmoxAPI "pve.lan" "root@pam!deploy" (TokenValue "0000-1111") 8006 true].
Proof.
  destruct (client_credentials_precedence sample_settings (λ _, true)
              (mkClientState None [] false) eq_refl) as (_ & _ & Htoken).
  apply Htoken; reflexivity.
Defined.
